(** * Simple shell: process execution and job control

    A shallow embedding of [shell.c]: the job table (a singly linked list of
    heap records reached from the global [process_list]), the launchers
    [execute] and [execute_pipe], the built-in dispatcher, the signal handler
    and one turn of the read loop of [main].

    A run of the model follows ONE operating-system process.  The memory of
    that process (the heap of job records, the globals [process_list] and
    [shell_id]) is explicit state.  Everything the kernel or libc decides
    (the result of [fork], [execvp], [malloc], [pipe], [wait3], ...) is read
    from a script of answers, and every call that leaves the process is
    appended to a trace. *)

From Stdlib Require Import Ascii String.
From stdpp Require Import base numbers list strings gmap.

Open Scope Z_scope.

(** ** Constants of the source *)

Definition nl : string := String (ascii_of_nat 10) EmptyString.
Definition tab : string := String (ascii_of_nat 9) EmptyString.

Definition MAX_ARGS : Z := 32.
Definition CWD_NAME_BUFFER_SIZE : Z := 1024.
Definition LIST_ID_FIRST_VAL : Z := 0.

Definition SHELL_PROMPT : string := nl +:+ ">> ".
Definition SHELL_JOBS_FORMAT : string := nl +:+ "[%d] %s" +:+ tab +:+ "%d".
Definition SHELL_JOBS_HEADER : string :=
  nl +:+ "Current running jobs:" +:+ nl +:+ "[#] cmd" +:+ tab +:+ tab +:+ "pid"
     +:+ nl +:+ "-----------------------".

Definition ERROR_INPUT_CMD : string := "Command not found".
Definition ERROR_FORK : string := "process creation failed: ".
Definition ERROR_SIGNAL_BIND : string := "Could not bind signal: ".
Definition ERROR_OUT_OF_MEM : string :=
  "Could not allocate sufficient memory for process".
Definition ERROR_NO_SUCH_PROC : string := "Invalid process number".

(** Values of the system headers the source relies on (Linux). *)
Definition SIGINT : Z := 2.
Definition SIGKILL : Z := 9.
Definition SIGCHLD : Z := 17.
Definition SIGTSTP : Z := 20.
Definition WNOHANG : Z := 1.
Definition STDIN_FILENO : Z := 0.
Definition STDOUT_FILENO : Z := 1.

(** ** Machine integers *)

(** [int] is 32 bits wide, two's complement. *)
Definition INT_MAX : Z := 2 ^ 31 - 1.
Definition int_wrap (z : Z) : Z := (z + 2 ^ 31) mod 2 ^ 32 - 2 ^ 31.
(** [unsigned int], the parameter type of [sleep]. *)
Definition uint_wrap (z : Z) : Z := z mod 2 ^ 32.
(** [long] is 64 bits wide; [strtol] saturates at its bounds. *)
Definition LONG_MAX : Z := 2 ^ 63 - 1.
Definition LONG_MIN : Z := - 2 ^ 63.

(** ** Data *)

(** A [char*]: [None] is the null pointer. *)
Definition cstr : Type := option string.

(** Addresses of heap records; a pointer is an address or [NULL]. *)
Definition addr : Type := positive.
Definition ptr : Type := option addr.

(** [struct process]. *)
Record process : Type := Process {
  next : ptr;
  name : cstr;
  process_id : Z;
  list_id : Z
}.

Definition with_next (v : ptr) (p : process) : process :=
  Process v (name p) (process_id p) (list_id p).
Definition with_list_id (v : Z) (p : process) : process :=
  Process (next p) (name p) (process_id p) v.

(** A heap cell is a record that is allocated or one that was handed back to
    [free].  Every access to a released record is written down as a
    [violation].  Of a released record the model knows the pid and the list
    id, which stay where they were; its first two words, [next] and [name],
    belong to the allocator from then on (see [load_head]). *)
Inductive cell : Type :=
| Live (p : process)
| Freed (p : process).

Inductive violation : Type :=
| UseAfterFree (a : addr)
| DoubleFree (a : addr).

(** ** The environment *)

(** What [fork] does to the run: it goes on in the new process, whose
    identifier is [me], or in the caller, who learns the identifier of the
    [child], or no process was created. *)
Inductive fork_result : Type :=
| InChild (me : Z)
| InParent (child : Z)
| ForkFailed.

(** The words of one input line as [getcmd] stores them in [args], with the
    three flags it sets. *)
Record command_line : Type := CommandLine {
  cl_args : list string;
  cl_bg : bool;
  cl_rd : bool;
  cl_pipe : bool
}.

(** Answers of the kernel and of libc, in the order the process asks. *)
Inductive answer : Type :=
| AFork (r : fork_result)
| AExec (err : option Z)            (* [None]: the image is replaced *)
| AMalloc (p : ptr)
| APipe (fds : option (Z * Z))      (* read end, write end *)
| AWait3 (ret : Z)
| AChdir (ret : Z)
| AGetcwd (buf : cstr)
| AFd (fd : Z)                      (* [dup], [open] *)
| ALine (l : option command_line)   (* [None]: end of input *)
| ASignal (ok : bool)
| ANoReturn.                        (* the wait made now never comes back *)

Inductive fmt_arg : Type :=
| ArgInt (z : Z)
| ArgStr (s : cstr).

(** Calls that leave the process, as they appear in the trace. *)
Inductive event : Type :=
| EvPrintf (fmt : string) (args : list fmt_arg)
| EvFputs (s : string)
| EvFflush
| EvPerror (msg : cstr)
| EvFork (r : fork_result)
| EvExecvp (file : cstr) (argv : list string) (err : option Z)
| EvWaitpid (pid options : Z)
| EvWait3 (ret : Z)
| EvKill (pid sig : Z)
| EvSleep (secs : Z)
| EvPipe (fds : option (Z * Z))
| EvClose (fd : Z)
| EvDup (fd ret : Z)
| EvDup2 (oldfd newfd : Z)
| EvOpen (path : cstr) (ret : Z)
| EvChdir (path : cstr) (ret : Z)
| EvGetcwd (buf : cstr)
| EvSignal (sig : Z) (ok : bool)
| EvExit (status : Z).

(** The state of the process that the run follows. *)
Record world : Type := World {
  heap : gmap addr cell;
  process_list : ptr;          (* global [process_list] *)
  shell_id : Z;                (* global [shell_id] *)
  self_pid : Z;                (* what [getpid] reports *)
  errno : Z;
  os : list answer;            (* answers still to come *)
  trace : list event;          (* calls made so far, oldest first *)
  stale : list violation       (* accesses to released records, oldest first *)
}.

Definition set_heap (h : gmap addr cell) (w : world) : world :=
  World h (process_list w) (shell_id w) (self_pid w) (errno w) (os w)
        (trace w) (stale w).
Definition set_process_list (p : ptr) (w : world) : world :=
  World (heap w) p (shell_id w) (self_pid w) (errno w) (os w)
        (trace w) (stale w).
Definition set_shell_id (z : Z) (w : world) : world :=
  World (heap w) (process_list w) z (self_pid w) (errno w) (os w)
        (trace w) (stale w).
Definition set_self_pid (z : Z) (w : world) : world :=
  World (heap w) (process_list w) (shell_id w) z (errno w) (os w)
        (trace w) (stale w).
Definition set_errno (z : Z) (w : world) : world :=
  World (heap w) (process_list w) (shell_id w) (self_pid w) z (os w)
        (trace w) (stale w).
Definition set_os (l : list answer) (w : world) : world :=
  World (heap w) (process_list w) (shell_id w) (self_pid w) (errno w) l
        (trace w) (stale w).
Definition add_event (e : event) (w : world) : world :=
  World (heap w) (process_list w) (shell_id w) (self_pid w) (errno w) (os w)
        (trace w ++ [e]) (stale w).
Definition add_violation (v : violation) (w : world) : world :=
  World (heap w) (process_list w) (shell_id w) (self_pid w) (errno w) (os w)
        (trace w) (stale w ++ [v]).

(** ** The monad of the embedding *)

(** Why a call does not come back to its caller. *)
Inductive stop : Type :=
| Exit (status : Z)   (* [exit] *)
| Replaced            (* [execvp] succeeded: another image runs from here *)
| Killed              (* the process sent SIGKILL to itself or its group *)
| Crashed             (* a null or wild pointer was dereferenced *)
| Untracked           (* a slot behind the end of [args] was read *)
| NoAnswer            (* the script has no fitting answer left *)
| OutOfFuel           (* a list walk did not end: the chain is cyclic *)
| Blocked             (* a [waitpid] that never comes back *)
| Aborted             (* [abort] in the allocator: a block released twice *)
| Undefined.          (* a word was read that the allocator has overwritten:
                         the source does not say what follows *)

Inductive outcome (A : Type) : Type :=
| Returned (a : A)
| Stopped (why : stop).
Arguments Returned {A} a.
Arguments Stopped {A} why.

Definition M (A : Type) : Type := world -> outcome A * world.

Definition ret {A : Type} (a : A) : M A := fun w => (Returned a, w).

Definition bind {A B : Type} (m : M A) (k : A -> M B) : M B :=
  fun w =>
    match m w with
    | (Returned a, w') => k a w'
    | (Stopped why, w') => (Stopped why, w')
    end.

Notation "x <- c ;; k" := (bind c (fun x => k))
  (at level 100, c at next level, right associativity).
Notation "c ;; k" := (bind c (fun _ => k))
  (at level 100, right associativity).

Definition halt {A : Type} (why : stop) : M A := fun w => (Stopped why, w).
Definition get {A : Type} (f : world -> A) : M A := fun w => (Returned (f w), w).
Definition modify (f : world -> world) : M unit := fun w => (Returned tt, f w).
Definition emit (e : event) : M unit := modify (add_event e).

(** The next answer of the script. *)
Definition ask : M answer :=
  fun w =>
    match os w with
    | [] => (Stopped NoAnswer, w)
    | a :: rest => (Returned a, set_os rest w)
    end.

(** ** Memory *)

(** Reading a record through a pointer, for its pid or its list id, or to
    write it back with one field changed.  A released record still holds
    its pid and its list id. *)
Definition load (a : addr) : M process :=
  fun w =>
    match heap w !! a with
    | Some (Live p) => (Returned p, w)
    | Some (Freed p) => (Returned p, add_violation (UseAfterFree a) w)
    | None => (Stopped Crashed, w)
    end.

(** Writing a record through a pointer. *)
Definition store (a : addr) (p : process) : M unit :=
  fun w =>
    match heap w !! a with
    | Some (Live _) => (Returned tt, set_heap (<[a := Live p]> (heap w)) w)
    | Some (Freed _) =>
        (Returned tt,
         add_violation (UseAfterFree a) (set_heap (<[a := Freed p]> (heap w)) w))
    | None => (Stopped Crashed, w)
    end.

(** [p->process_id] and [p->list_id] *)
Definition field {A : Type} (f : process -> A) (p : ptr) : M A :=
  match p with
  | None => halt Crashed
  | Some a => r <- load a ;; ret (f r)
  end.

(** Reading one of the first two words of a record, [next] or [name].  The
    allocator keeps its own links in these words of a released block: what a
    read finds there is not what the program wrote, and the run is followed
    no further. *)
Definition load_head (a : addr) : M process :=
  fun w =>
    match heap w !! a with
    | Some (Live p) => (Returned p, w)
    | Some (Freed _) => (Stopped Undefined, add_violation (UseAfterFree a) w)
    | None => (Stopped Crashed, w)
    end.

(** [p->next] and [p->name] *)
Definition head_field {A : Type} (f : process -> A) (p : ptr) : M A :=
  match p with
  | None => halt Crashed
  | Some a => r <- load_head a ;; ret (f r)
  end.

(** [p->next = v] and [p->list_id = v] *)
Definition assign_next (p : ptr) (v : ptr) : M unit :=
  match p with
  | None => halt Crashed
  | Some a => r <- load a ;; store a (with_next v r)
  end.
Definition assign_list_id (p : ptr) (v : Z) : M unit :=
  match p with
  | None => halt Crashed
  | Some a => r <- load a ;; store a (with_list_id v r)
  end.

(** [malloc(sizeof(process))]: the allocator answers [NULL] or the address of
    a block that is not in use. *)
Definition malloc : M ptr :=
  a <- ask ;;
  match a with
  | AMalloc None => ret None
  | AMalloc (Some b) =>
      h <- get heap ;;
      match h !! b with
      | Some (Live _) => halt NoAnswer
      | _ => ret (Some b)
      end
  | _ => halt NoAnswer
  end.

(** [*new = (process) {...}] on a block that [malloc] just returned. *)
Definition init (a : addr) (p : process) : M unit :=
  modify (fun w => set_heap (<[a := Live p]> (heap w)) w).

(** [free(p)] for a non-null [p].  The allocator ends the process when it
    is handed a block a second time. *)
Definition free (a : addr) : M unit :=
  fun w =>
    match heap w !! a with
    | Some (Live p) => (Returned tt, set_heap (<[a := Freed p]> (heap w)) w)
    | Some (Freed _) => (Stopped Aborted, add_violation (DoubleFree a) w)
    | None => (Stopped Crashed, w)
    end.

(** A walk along [next] pointers that takes more steps than the heap has
    cells has met one cell twice. *)
Definition walk_fuel (w : world) : nat := S (size (heap w)).

(** ** libc and the kernel *)

(** [printf(fmt, args...)], [fputs], [perror]. *)
Definition printf (fmt : string) (args : list fmt_arg) : M unit :=
  emit (EvPrintf fmt args).
Definition fputs (s : string) : M unit := emit (EvFputs s).
Definition perror (msg : cstr) : M unit := emit (EvPerror msg).

(** [!strcmp(a, b)] with a literal [b]: a null [a] is dereferenced. *)
Definition streq (a : cstr) (b : string) : M bool :=
  match a with
  | None => halt Crashed
  | Some s => ret (String.eqb s b)
  end.

(** [strtol(s, NULL, 10)]: blanks, an optional sign, then decimal digits up
    to the first other character; no digit gives 0; the result saturates. *)
Definition isspace (c : ascii) : bool :=
  let n := Z.of_nat (nat_of_ascii c) in
  (n =? 32) || ((9 <=? n) && (n <=? 13)).

Definition digit_of (c : ascii) : option Z :=
  let n := Z.of_nat (nat_of_ascii c) in
  if (48 <=? n) && (n <=? 57) then Some (n - 48) else None.

Fixpoint skip_spaces (s : string) : string :=
  match s with
  | String c s' => if isspace c then skip_spaces s' else s
  | EmptyString => s
  end.

Fixpoint digits (acc : Z) (s : string) : Z :=
  match s with
  | String c s' =>
      match digit_of c with
      | Some d => digits (10 * acc + d) s'
      | None => acc
      end
  | EmptyString => acc
  end.

Definition strtol10 (s : string) : Z :=
  let s1 := skip_spaces s in
  let v :=
    match s1 with
    | String "-" r => - digits 0 r
    | String "+" r => digits 0 r
    | _ => digits 0 s1
    end in
  Z.max LONG_MIN (Z.min LONG_MAX v).

Definition strtol (nptr : cstr) : M Z :=
  match nptr with
  | None => halt Crashed
  | Some s => ret (strtol10 s)
  end.

(** [fork()].  The kernel gives a new process an identifier that is positive
    and differs from its parent's; a script that says otherwise is not an
    answer of the kernel. *)
Definition fork : M Z :=
  a <- ask ;;
  match a with
  | AFork (InChild me) =>
      parent <- get self_pid ;;
      if (0 <? me) && negb (me =? parent) then
        emit (EvFork (InChild me)) ;; modify (set_self_pid me) ;; ret 0
      else halt NoAnswer
  | AFork (InParent child) =>
      me <- get self_pid ;;
      if (0 <? child) && negb (child =? me) then
        emit (EvFork (InParent child)) ;; ret child
      else halt NoAnswer
  | AFork ForkFailed => emit (EvFork ForkFailed) ;; ret (-1)
  | _ => halt NoAnswer
  end.

(** [execvp(file, argv)] comes back only when it failed.  It looks at the
    first character of [file]: a null pointer is dereferenced. *)
Definition execvp (file : cstr) (argv : list string) : M Z :=
  match file with
  | None => halt Crashed
  | Some _ =>
      a <- ask ;;
      match a with
      | AExec None => emit (EvExecvp file argv None) ;; halt Replaced
      | AExec (Some e) =>
          emit (EvExecvp file argv (Some e)) ;; modify (set_errno e) ;; ret (-1)
      | _ => halt NoAnswer
      end
  end.

(** [waitpid(pid, NULL, options)] for a child that runs a program of its
    own (it was replaced by [execvp], or it sleeps): the call comes back when
    that program ends, which is not up to this source.  The source drops the
    result. *)
Definition waitpid (pid options : Z) : M unit := emit (EvWaitpid pid options).

(** [waitpid(pid, NULL, 0)] in [execute_pipe].  There the child writes into
    a pipe that nobody reads before this very call has come back, or the
    child is the process that makes such a call: whether the call ever comes
    back is up to how much the first command writes.  The script says when
    it does not. *)
Definition waitpid_pipeline (pid options : Z) : M unit :=
  emit (EvWaitpid pid options) ;;
  script <- get os ;;
  match script with
  | ANoReturn :: _ => halt Blocked
  | _ => ret tt
  end.

(** [wait3(NULL, WNOHANG, NULL)] *)
Definition wait3 : M Z :=
  a <- ask ;;
  match a with
  | AWait3 r => emit (EvWait3 r) ;; ret r
  | _ => halt NoAnswer
  end.

(** [kill(pid, sig)].  SIGKILL sent to the caller itself, or to its process
    group (pid 0), ends the caller. *)
Definition kill (pid sig : Z) : M unit :=
  emit (EvKill pid sig) ;;
  me <- get self_pid ;;
  if (sig =? SIGKILL) && ((pid =? 0) || (pid =? me)) then halt Killed
  else ret tt.

Definition exit {A : Type} (status : Z) : M A :=
  emit (EvExit status) ;; halt (Exit status).

Definition sleep (secs : Z) : M unit := emit (EvSleep (uint_wrap secs)).

Definition getpid : M Z := get self_pid.

Definition pipe : M (option (Z * Z)) :=
  a <- ask ;;
  match a with
  | APipe fds => emit (EvPipe fds) ;; ret fds
  | _ => halt NoAnswer
  end.

Definition close (fd : Z) : M unit := emit (EvClose fd).
Definition dup2 (oldfd newfd : Z) : M unit := emit (EvDup2 oldfd newfd).

Definition dup (fd : Z) : M Z :=
  a <- ask ;;
  match a with
  | AFd r => emit (EvDup fd r) ;; ret r
  | _ => halt NoAnswer
  end.

Definition open (path : cstr) : M Z :=
  a <- ask ;;
  match a with
  | AFd r => emit (EvOpen path r) ;; ret r
  | _ => halt NoAnswer
  end.

Definition chdir (path : cstr) : M Z :=
  a <- ask ;;
  match a with
  | AChdir r => emit (EvChdir path r) ;; ret r
  | _ => halt NoAnswer
  end.

Definition getcwd : M cstr :=
  a <- ask ;;
  match a with
  | AGetcwd buf => emit (EvGetcwd buf) ;; ret buf
  | _ => halt NoAnswer
  end.

Definition signal (sig : Z) : M bool :=
  a <- ask ;;
  match a with
  | ASignal ok => emit (EvSignal sig ok) ;; ret ok
  | _ => halt NoAnswer
  end.

(** ** Argument vectors *)

(** A null-terminated [char* []] is the list of its strings.  [v[i]] is the
    [i]-th string, the terminator at [i = length v]; slots behind the
    terminator are not tracked. *)
Definition arg_at (v : list string) (i : nat) : M cstr :=
  if decide (i <= length v)%nat then ret (v !! i) else halt Untracked.

(** [v + 1] *)
Definition args_from_1 (v : list string) : M (list string) :=
  match v with
  | [] => halt Untracked
  | _ :: rest => ret rest
  end.

(** ** Interface functions *)

Definition print_error (error_message : string) : M unit :=
  printf "%s: %s" [ArgStr (Some "Error"); ArgStr (Some error_message)].

(** ** Process list functions *)

Definition process_add (name : cstr) (pid : Z) (bg_flag : Z) : M Z :=
  new <- malloc ;;
  match new with
  | None => print_error ERROR_OUT_OF_MEM ;; ret (-1)
  | Some a =>
      init a (Process None name pid (-1)) ;;
      head <- get process_list ;;
      assign_next new head ;;
      modify (set_process_list new) ;;
      ret 0
  end.

(** The [while (node)] loop of [process_remove_from_list]. *)
Fixpoint remove_walk (fuel : nat) (node prev : ptr) (pid : Z) : M Z :=
  match node with
  | None => ret 0
  | Some a =>
      match fuel with
      | O => halt OutOfFuel
      | S fuel' =>
          p <- field process_id node ;;
          if p =? pid then
            nx <- head_field next node ;;
            match prev with
            | None => modify (set_process_list nx) ;; free a
            | Some _ => assign_next prev nx ;; free a
            end ;;
            ret 0
          else
            nx <- head_field next node ;;
            remove_walk fuel' nx node pid
      end
  end.

Definition process_remove_from_list (pid : Z) : M Z :=
  node <- get process_list ;;
  match node with
  | None => print_error ERROR_NO_SUCH_PROC ;; ret (-1)
  | Some _ =>
      fuel <- get walk_fuel ;;
      remove_walk fuel node None pid
  end.

(** The [while (node)] loop of [process_bring_to_fg]. *)
Fixpoint fg_walk (fuel : nat) (node : ptr) (id : Z) : M Z :=
  match node with
  | None => ret (-1)
  | Some _ =>
      match fuel with
      | O => halt OutOfFuel
      | S fuel' =>
          l <- field list_id node ;;
          if l =? id then
            p <- field process_id node ;;
            process_remove_from_list p ;;
            field process_id node
          else
            nx <- head_field next node ;;
            fg_walk fuel' nx id
      end
  end.

Definition process_bring_to_fg (id : Z) : M Z :=
  node <- get process_list ;;
  match node with
  | None => print_error ERROR_NO_SUCH_PROC ;; ret (-1)
  | Some _ =>
      fuel <- get walk_fuel ;;
      fg_walk fuel node id
  end.

(** The [while (node)] loop of [process_print_list]. *)
Fixpoint print_walk (fuel : nat) (node : ptr) (list_id_var : Z) : M unit :=
  match node with
  | None => ret tt
  | Some _ =>
      match fuel with
      | O => halt OutOfFuel
      | S fuel' =>
          nm <- head_field name node ;;
          p <- field process_id node ;;
          printf SHELL_JOBS_FORMAT [ArgInt list_id_var; ArgStr nm; ArgInt p] ;;
          assign_list_id node list_id_var ;;
          nx <- head_field next node ;;
          print_walk fuel' nx (int_wrap (list_id_var + 1))
      end
  end.

Definition process_print_list : M unit :=
  node <- get process_list ;;
  fuel <- get walk_fuel ;;
  print_walk fuel node LIST_ID_FIRST_VAL.

Definition process_terminate_fg (pid : Z) : M unit :=
  sid <- get shell_id ;;
  if sid =? pid then ret tt else kill pid SIGKILL.

(** ** Execute functions *)

(** [perror] after a failed [execvp]: errno 2 is ENOENT. *)
Definition report_exec_failure : M unit :=
  e <- get errno ;;
  if e =? 2 then perror (Some ERROR_INPUT_CMD) else perror None.

Definition execute (command : cstr) (params : list string) (bg_flag : Z) : M Z :=
  process_id <- fork ;;
  if process_id =? 0 then
    (* child process *)
    is_wait <- streq command "wait" ;;
    is_sleep <- (if is_wait then ret true else streq command "sleep") ;;
    if is_sleep then
      a1 <- arg_at params 1 ;;
      secs <- strtol a1 ;;
      sleep secs ;;
      ret 0
    else
      r <- execvp command params ;;
      (if r =? -1 then report_exec_failure else ret tt) ;;
      ret 0
  else if 0 <? process_id then
    (* parent process *)
    if bg_flag =? 0 then
      waitpid process_id 0 ;;
      ret 0
    else
      r <- process_add command process_id bg_flag ;;
      if negb (r =? 0) then
        kill process_id SIGKILL ;;
        ret (-1)
      else ret 0
  else
    perror (Some ERROR_FORK) ;;
    exit 1.

(** The loop of [execute_pipe] that looks for the word "|" from [args + 1]
    on.  It has no test for the end of the vector: at the terminator
    [strcmp] gets a null pointer. *)
Fixpoint split_at_pipe (l : list string) : option (list string * list string) :=
  match l with
  | [] => None
  | a :: l' =>
      if String.eqb a "|" then Some ([], l')
      else
        match split_at_pipe l' with
        | Some (c1, c2) => Some (a :: c1, c2)
        | None => None
        end
  end.

(** After the loop [args] is the first command and [pipe_args] the second. *)
Definition split_args (args : list string) : M (list string * list string) :=
  rest <- args_from_1 args ;;
  match split_at_pipe rest with
  | Some (c1, c2) => ret (firstn 1 args ++ c1, c2)
  | None => halt Crashed
  end.

Definition execute_pipe (args : list string) (bg_flag : Z) : M Z :=
  fds <- pipe ;;
  match fds with
  | None => perror None ;; ret (-1)
  | Some (pipe_list0, pipe_list1) =>
      split <- split_args args ;;
      let (args, pipe_args) := split in
      process_id1 <- fork ;;
      if process_id1 =? 0 then
        (* child process, layer 1 *)
        process_id2 <- fork ;;
        if process_id2 =? 0 then
          (* child process, layer 2 (runs first command) *)
          close pipe_list0 ;;
          dup2 pipe_list1 STDOUT_FILENO ;;
          r <- execvp (head args) args ;;
          (if r =? -1 then report_exec_failure else ret tt) ;;
          ret 0
        else if 0 <? process_id2 then
          (* parent process, layer 2 (runs second command) *)
          close pipe_list1 ;;
          dup2 pipe_list0 STDIN_FILENO ;;
          waitpid_pipeline process_id2 0 ;;
          added <- (if bg_flag =? 0 then ret 0
                    else process_add (head pipe_args) process_id2 bg_flag) ;;
          if negb (added =? 0) then
            kill process_id2 SIGKILL ;;
            ret (-1)
          else
            r <- execvp (head pipe_args) pipe_args ;;
            (if r =? -1 then report_exec_failure else ret tt) ;;
            ret 0
        else
          perror (Some ERROR_FORK) ;;
          exit 1
      else if 0 <? process_id1 then
        (* parent process, layer 1 *)
        close pipe_list0 ;;
        close pipe_list1 ;;
        if bg_flag =? 0 then
          waitpid_pipeline process_id1 0 ;;
          ret 0
        else
          r <- process_add (head args) process_id1 bg_flag ;;
          if negb (r =? 0) then
            kill process_id1 SIGKILL ;;
            ret (-1)
          else ret 0
      else
        perror (Some ERROR_FORK) ;;
        exit 1
  end.

Fixpoint execute_echo (words : list string) : M unit :=
  match words with
  | [] => ret tt
  | w :: rest => printf "%s " [ArgStr (Some w)] ;; execute_echo rest
  end.

Definition execute_cd (path : cstr) : M Z :=
  r <- chdir path ;;
  if negb (r =? 0) then perror None ;; ret (-1) else ret 0.

Definition execute_pwd : M unit :=
  buffer <- getcwd ;;
  match buffer with
  | Some s => printf "%s" [ArgStr (Some s)]
  | None => perror None
  end.

(** The [while (node)] loop of [execute_exit]. *)
Fixpoint exit_walk (fuel : nat) (node : ptr) : M unit :=
  match node with
  | None => ret tt
  | Some _ =>
      match fuel with
      | O => halt OutOfFuel
      | S fuel' =>
          first <- get process_list ;;
          pid <- field process_id first ;;
          process_remove_from_list pid ;;
          modify (set_process_list node) ;;
          nx <- head_field next node ;;
          exit_walk fuel' nx
      end
  end.

Definition execute_exit : M unit :=
  node <- get process_list ;;
  fuel <- get walk_fuel ;;
  exit_walk fuel node ;;
  kill 0 SIGKILL.

Definition execute_fg (list_id : Z) : M Z :=
  process_id <- process_bring_to_fg list_id ;;
  if process_id =? -1 then ret (-1)
  else waitpid process_id 0 ;; ret 0.

Definition execute_jobs : M unit :=
  printf "%s" [ArgStr (Some SHELL_JOBS_HEADER)] ;;
  process_print_list.

Definition execute_built_ins (command : cstr) (params : list string) : M Z :=
  is_echo <- streq command "echo" ;;
  if is_echo then
    words <- args_from_1 params ;; execute_echo words ;; ret 0
  else
  is_cd <- streq command "cd" ;;
  if is_cd then
    path <- arg_at params 1 ;; execute_cd path ;; ret 0
  else
  is_pwd <- streq command "pwd" ;;
  if is_pwd then execute_pwd ;; ret 0
  else
  is_exit <- streq command "exit" ;;
  if is_exit then execute_exit ;; ret 0
  else
  is_fg <- streq command "fg" ;;
  if is_fg then
    a1 <- arg_at params 1 ;;
    n <- strtol a1 ;;
    execute_fg (int_wrap n) ;; ret 0
  else
  is_jobs <- streq command "jobs" ;;
  if is_jobs then execute_jobs ;; ret 0
  else ret 1.

(** ** Signal handlers *)

(** The [while] loop of the SIGCHLD branch; every turn uses up one answer. *)
Fixpoint reap (fuel : nat) : M unit :=
  match fuel with
  | O => halt OutOfFuel
  | S fuel' =>
      process_id <- wait3 ;;
      if 0 <? process_id then
        process_remove_from_list process_id ;;
        reap fuel'
      else ret tt
  end.

Definition signal_handler (sig : Z) : M unit :=
  if sig =? SIGINT then
    me <- getpid ;;
    process_terminate_fg me
  else if sig =? SIGCHLD then
    fuel <- get (fun w => S (length (os w))) ;;
    reap fuel
  else ret tt.

(** ** The read loop *)

(** [getcmd]: the prompt, then one line.  Cutting the line into words is not
    part of the embedding; the script delivers the words and the flags. *)
Definition getcmd (prompt : string) : M command_line :=
  fputs prompt ;;
  a <- ask ;;
  match a with
  | ALine (Some l) => ret l
  | ALine None => exit (-1)
  | _ => halt NoAnswer
  end.

(** What [main] does before its loop. *)
Definition main_setup : M Z :=
  ok1 <- signal SIGTSTP ;;
  ok2 <- (if ok1 then signal SIGINT else ret false) ;;
  ok3 <- (if ok2 then signal SIGCHLD else ret false) ;;
  if ok3 then
    me <- getpid ;;
    modify (set_shell_id me) ;;
    ret 0
  else
    perror (Some ERROR_SIGNAL_BIND) ;;
    ret (-1).

(** One turn of [for (;;)].  When it returns, the next turn starts.  The
    turn is embedded for lines whose words and terminator fit into [args],
    which has [MAX_ARGS] slots; what [main] does to the memory behind [args]
    on a longer line is not followed. *)
Definition main_turn : M unit :=
  l <- getcmd SHELL_PROMPT ;;
  let args := cl_args l in
  let bg_flag := if cl_bg l then 1 else 0 in
  if decide (args = []) then ret tt
  else
    saved <- (if cl_rd l then
                std_out <- dup STDOUT_FILENO ;;
                close STDOUT_FILENO ;;
                rd_out <- open (last args) ;;
                ret (std_out, rd_out)
              else ret (0, 0)) ;;
    let args := if cl_rd l then removelast args else args in
    r <- execute_built_ins (head args) args ;;
    (if negb (r =? 0) then
       if cl_pipe l then execute_pipe args bg_flag ;; ret tt
       else execute (head args) args bg_flag ;; ret tt
     else ret tt) ;;
    if cl_rd l then
      close (snd saved) ;;
      r <- dup (fst saved) ;;
      close (fst saved) ;;
      emit EvFflush
    else ret tt.

(** [turns] turns of the loop. *)
Fixpoint main_loop (turns : nat) : M unit :=
  match turns with
  | O => ret tt
  | S n => main_turn ;; main_loop n
  end.

(** ** Cutting a line into words *)

(** What [getcmd] does with a line between [getline] and its return, on
    its own.  For a line that [getline] read, the words and the flags that
    the script hands to [getcmd] above are the ones computed here. *)

Definition FLAG_BG_PROCESS : ascii := "&"%char.
Definition FLAG_RD_OUTPUT : ascii := ">"%char.
Definition FLAG_PIPE : ascii := "|"%char.

(** The part of a buffer that the string functions of C see: the bytes
    before the first NUL. *)
Fixpoint c_string (s : list ascii) : list ascii :=
  match s with
  | [] => []
  | c :: r => if Ascii.eqb c Ascii.zero then [] else c :: c_string r
  end.

(** [pos = strchr(line, flag)] and, when it is found, [*pos = ' ']. *)
Fixpoint blank_first (flag : ascii) (s : list ascii) : option (list ascii) :=
  match s with
  | [] => None
  | c :: r =>
      if Ascii.eqb c flag then Some (" "%char :: r)
      else cons c <$> blank_first flag r
  end.

(** The delimiters handed to [strsep]: blank, tab, newline. *)
Definition is_delimiter (c : ascii) : bool :=
  Ascii.eqb c " " || Ascii.eqb c "009" || Ascii.eqb c "010".

(** The tokens that the calls [strsep(&line_buffer, " \t\n")] return until
    the buffer is used up: the first one, and the ones after it.  Two
    delimiters in a row give an empty token. *)
Fixpoint strsep_tokens (s : list ascii) : list ascii * list (list ascii) :=
  match s with
  | [] => ([], [])
  | c :: r =>
      let (t, ts) := strsep_tokens r in
      if is_delimiter c then ([], t :: ts) else (c :: t, ts)
  end.

(** [token[i] <= 32].  Whether [char] is signed is left to the platform:
    where it is, the bytes from 128 on are negative. *)
Definition at_most_32 (char_is_signed : bool) (c : ascii) : bool :=
  let n := nat_of_ascii c in
  (n <=? 32)%nat || (char_is_signed && (128 <=? n)%nat).

(** The [for] loop over one token: the first byte that is at most 32 is
    overwritten by NUL, which also ends the loop. *)
Fixpoint cut_token (char_is_signed : bool) (t : list ascii) : list ascii :=
  match t with
  | [] => []
  | c :: r =>
      if at_most_32 char_is_signed c then []
      else c :: cut_token char_is_signed r
  end.

(** What [getcmd] makes of the line that [getline] read: the words it
    stores in [args], in order, and the three flags. *)
Definition tokenize (char_is_signed : bool) (line : string) : command_line :=
  let s0 := c_string (list_ascii_of_string line) in
  let bg := blank_first FLAG_BG_PROCESS s0 in
  let s1 := default s0 bg in
  let rd := blank_first FLAG_RD_OUTPUT s1 in
  let s2 := default s1 rd in
  let (t, ts) := strsep_tokens s2 in
  CommandLine
    (string_of_list_ascii
       <$> filter (fun t => t <> []) (cut_token char_is_signed <$> t :: ts))
    (bool_decide (is_Some bg))
    (bool_decide (is_Some rd))
    (bool_decide (FLAG_PIPE ∈ s2)).

(** [getcmd] writes the words into [args], which has room for [MAX_ARGS]
    of them and is not checked: a line with more words writes behind the
    array, and what [getcmd] returns then is not defined ([None]). *)
Definition getcmd_args (char_is_signed : bool) (line : string)
  : option command_line :=
  let l := tokenize char_is_signed line in
  if bool_decide (Z.of_nat (length (cl_args l)) <= MAX_ARGS) then Some l
  else None.

(** ** The job table read as a list *)

(** One record of the table: where it lives and what it holds. *)
Record job : Type := Job {
  job_addr : addr;
  job_name : cstr;
  job_pid : Z;
  job_index : Z
}.

Definition record_of (j : job) (nx : ptr) : process :=
  Process nx (job_name j) (job_pid j) (job_index j).

(** [chain h p l]: from pointer [p], the heap [h] holds exactly the live
    records [l], linked in this order and ended by [NULL]. *)
Fixpoint chain (h : gmap addr cell) (p : ptr) (l : list job) : Prop :=
  match l with
  | [] => p = None
  | j :: l' =>
      p = Some (job_addr j) /\
      exists nx, h !! job_addr j = Some (Live (record_of j nx)) /\ chain h nx l'
  end.

(** The same, computed: follow [next] from [p] for at most [fuel] records. *)
Fixpoint read_chain (fuel : nat) (h : gmap addr cell) (p : ptr)
  : option (list job) :=
  match p with
  | None => Some []
  | Some a =>
      match fuel with
      | O => None
      | S fuel' =>
          match h !! a with
          | Some (Live r) =>
              match read_chain fuel' h (next r) with
              | Some l => Some (Job a (name r) (process_id r) (list_id r) :: l)
              | None => None
              end
          | _ => None
          end
      end
  end.

(** The job table of a world, newest record first; [None] when the chain
    from [process_list] is broken (released record, wild pointer, cycle). *)
Definition jobs (w : world) : option (list job) :=
  read_chain (size (heap w)) (heap w) (process_list w).

Definition pids (l : list job) : list Z := job_pid <$> l.
Definition addrs (l : list job) : list addr := job_addr <$> l.

(** What the list functions compute, on the list reading. *)

(** [process_remove_from_list]: the first record with this pid goes. *)
Fixpoint remove_first (pid : Z) (l : list job) : list job :=
  match l with
  | [] => []
  | j :: l' => if job_pid j =? pid then l' else j :: remove_first pid l'
  end.

(** The record [remove_first] takes out. *)
Fixpoint first_with_pid (pid : Z) (l : list job) : option job :=
  match l with
  | [] => None
  | j :: l' => if job_pid j =? pid then Some j else first_with_pid pid l'
  end.

(** [process_bring_to_fg]: the first record with this list id. *)
Fixpoint first_with_index (id : Z) (l : list job) : option job :=
  match l with
  | [] => None
  | j :: l' => if job_index j =? id then Some j else first_with_index id l'
  end.

(** [process_print_list]: the records numbered from [n] on. *)
Fixpoint renumber (n : Z) (l : list job) : list job :=
  match l with
  | [] => []
  | j :: l' =>
      Job (job_addr j) (job_name j) (job_pid j) n
        :: renumber (int_wrap (n + 1)) l'
  end.

(** The lines [process_print_list] prints. *)
Fixpoint job_lines (n : Z) (l : list job) : list event :=
  match l with
  | [] => []
  | j :: l' =>
      EvPrintf SHELL_JOBS_FORMAT [ArgInt n; ArgStr (job_name j); ArgInt (job_pid j)]
        :: job_lines (int_wrap (n + 1)) l'
  end.

(** ** Notions used in the statements and in the proofs *)

(** The place that points to the current node of [remove_walk]: the global
    [process_list] as long as [prev] is null, the [next] field of [prev]
    afterwards. *)
Definition slot_holds (prev : ptr) (w : world) (p : ptr) : Prop :=
  match prev with
  | None => process_list w = p
  | Some b => exists rb, heap w !! b = Some (Live rb) /\ next rb = p
  end.

Definition slot_after (prev : ptr) (w : world) (h' : gmap addr cell)
    (pl' p' : ptr) : Prop :=
  match prev with
  | None => pl' = p'
  | Some b =>
      pl' = process_list w /\
      forall rb, heap w !! b = Some (Live rb) ->
                 h' !! b = Some (Live (with_next p' rb))
  end.

(** Several events at once. *)
Definition add_events (es : list event) (w : world) : world :=
  World (heap w) (process_list w) (shell_id w) (self_pid w) (errno w) (os w)
        (trace w ++ es) (stale w).

(** A process identifier as [fork] returns it to a parent: a positive value
    of the 32-bit type [pid_t]. *)
Definition pid_ok (p : Z) : Prop := 0 < p <= INT_MAX.

Global Instance pid_ok_dec p : Decision (pid_ok p).
Proof. unfold pid_ok. apply _. Defined.

(** Whether the record at [a] has been handed back to [free]. *)
Definition released (w : world) (a : addr) : bool :=
  match heap w !! a with
  | Some (Freed _) => true
  | _ => false
  end.

(** Whether the block at [a] holds an allocated record. *)
Definition in_use (w : world) (a : addr) : bool :=
  match heap w !! a with
  | Some (Live _) => true
  | _ => false
  end.

(** One call on the job table.  An insertion comes with the allocator's
    answer to its [malloc]. *)
Inductive table_op : Type :=
| Insert (nm : cstr) (pid : Z) (block : ptr)
| RemoveByPid (pid : Z).

Definition run_op (o : table_op) : M Z :=
  match o with
  | Insert nm pid _ => process_add nm pid 1
  | RemoveByPid pid => process_remove_from_list pid
  end.

Fixpoint run_ops (ops : list table_op) : M unit :=
  match ops with
  | [] => ret tt
  | o :: rest => run_op o ;; run_ops rest
  end.

(** The answers the allocator gives during [run_ops]. *)
Definition alloc_script (ops : list table_op) : list answer :=
  omap (fun o => match o with
                 | Insert _ _ block => Some (AMalloc block)
                 | RemoveByPid _ => None
                 end) ops.

(** The job table as section 4.1 of the specification words it: a
    collection keyed by process identifier.  [insert] adds the pid unless
    memory is exhausted, [remove_by_pid] takes it out.  The map also
    remembers the block each record was placed in.  The result is [None]
    when the sequence is not one the claim speaks about: a pid is inserted
    while a live record carries it, or the allocator is made to hand out a
    block that is in use. *)
Fixpoint spec_tracked (ops : list table_op) (m : gmap Z addr)
  : option (gmap Z addr) :=
  match ops with
  | [] => Some m
  | Insert _ pid None :: rest => spec_tracked rest m
  | Insert _ pid (Some a) :: rest =>
      if bool_decide (m !! pid = None)
         && bool_decide (map_Forall (fun _ b => b <> a) m)
      then spec_tracked rest (<[pid := a]> m)
      else None
  | RemoveByPid pid :: rest => spec_tracked rest (delete pid m)
  end.

(** The pids on the lines that [process_print_list] wrote. *)
Definition printed_pids (es : list event) : list Z :=
  omap (fun e =>
          match e with
          | EvPrintf fmt [ArgInt _; ArgStr _; ArgInt p] =>
              if String.eqb fmt SHELL_JOBS_FORMAT then Some p else None
          | _ => None
          end) es.

(** How a world, its list reading and the specification's table fit. *)
Definition table_matches (w : world) (l : list job) (m : gmap Z addr) : Prop :=
  chain (heap w) (process_list w) l /\
  NoDup (pids l) /\
  (forall a, in_use w a = true -> a ∈ addrs l) /\
  (forall pid a, m !! pid = Some a <->
                 exists j, j ∈ l /\ job_pid j = pid /\ job_addr j = a).

(** The shell at the start of [main]: no job record, the globals zero. *)
Definition boot (pid : Z) (script : list answer) : world :=
  World ∅ None 0 pid 0 script [] [].

(** The process that [fork] creates from the shell whose pid is 100, after
    [main] installed the handlers and stored the shell's pid. *)
Definition child_of_shell : world :=
  snd ((main_setup ;; fork)
         (boot 100 [ASignal true; ASignal true; ASignal true;
                    AFork (InChild 101)])).

(** The shell with pid 100 between two commands: handlers installed,
    [shell_id] stored, no background job. *)
Definition shell (script : list answer) : world :=
  World ∅ None 100 100 0 script [] [].

(** Three background jobs, as "sleep 30 &", "ls &" and "wc &" leave them in
    the shell with pid 100, and the answers [script] still to come. *)
Definition three_jobs (script : list answer) : world :=
  World {[ 1%positive := Live (Process None (Some "sleep") 201 (-1));
           2%positive := Live (Process (Some 1%positive) (Some "ls") 202 (-1));
           3%positive := Live (Process (Some 2%positive) (Some "wc") 203 (-1)) ]}
        (Some 3%positive) 100 100 0 script [] [].

Definition three_jobs_list : list job :=
  [Job 3%positive (Some "wc") 203 (-1);
   Job 2%positive (Some "ls") 202 (-1);
   Job 1%positive (Some "sleep") 201 (-1)].

(** Two records that carry the same pid. *)
Definition twin_jobs : world :=
  World {[ 1%positive := Live (Process None (Some "ls") 201 (-1));
           2%positive := Live (Process (Some 1%positive) (Some "wc") 201 (-1)) ]}
        (Some 2%positive) 100 100 0 [] [] [].

(** ** Notions used in the further statements *)

(** The six words the dispatcher knows. *)
Definition is_built_in (c : string) : bool :=
  bool_decide (c ∈ ["echo"; "cd"; "pwd"; "exit"; "fg"; "jobs"]).

(** The calls of [printf] that [execute_echo] makes. *)
Definition echo_events (words : list string) : list event :=
  (fun s => EvPrintf "%s " [ArgStr (Some s)]) <$> words.

(** What the SIGCHLD branch leaves of the table when [wait3] reports the
    pids [ps], one after the other. *)
Definition reaped (ps : list Z) (l : list job) : list job :=
  foldl (fun l p => remove_first p l) l ps.

(** What the SIGCHLD branch writes while it does so: the results of
    [wait3], and the message of [process_remove_from_list] whenever the
    table is empty at that moment. *)
Fixpoint reap_events (ps : list Z) (l : list job) : list event :=
  match ps with
  | [] => []
  | p :: ps' =>
      EvWait3 p
        :: (match l with
            | [] => [EvPrintf "%s: %s" [ArgStr (Some "Error");
                                        ArgStr (Some ERROR_NO_SUCH_PROC)]]
            | _ => []
            end)
        ++ reap_events ps' (remove_first p l)
  end.

(** The record that [renumber] puts at position [k]. *)
Definition shown (j : job) (n : Z) : job :=
  Job (job_addr j) (job_name j) (job_pid j) n.

(** All tokens of [strsep_tokens] in one list. *)
Definition toks (s : list ascii) : list (list ascii) :=
  let (t, ts) := strsep_tokens s in t :: ts.

(** A word that [getcmd] hands on as it is: not empty, and made of bytes
    above 32 other than the two flags that are blanked. *)
Definition plain_word (sg : bool) (word : string) : Prop :=
  word <> "" /\
  Forall (fun c => at_most_32 sg c = false /\
                   c <> FLAG_BG_PROCESS /\ c <> FLAG_RD_OUTPUT)
         (list_ascii_of_string word).

(** ** Tactics *)

(** Case analysis along a run of [execute_pipe]: on the answers of the
    script, on comparisons of integers and on variables that a [match]
    inspects. *)
Ltac crunch_step :=
  match goal with
  | |- context [match os ?w with _ => _ end] =>
      destruct (os w) as [|[] ?] eqn:?
  | |- context [Z.eqb ?a ?b] => destruct (Z.eqb_spec a b); try lia
  | |- context [Z.ltb ?a ?b] => destruct (Z.ltb_spec a b); try lia
  | |- context [match split_at_pipe ?l with _ => _ end] =>
      destruct (split_at_pipe l) as [[? ?]|] eqn:?
  | |- context [match ?h !! ?a with _ => _ end] =>
      destruct (h !! a) as [[?|?]|] eqn:?
  | |- context [match head ?l with _ => _ end] => is_var l; destruct l
  | |- context [match ?x with _ => _ end] => is_var x; destruct x
  | |- context [if ?b then _ else _] => is_var b; destruct b
  end.

Ltac crunch := repeat (simpl; crunch_step).

Ltac tidy_trace :=
  simpl; rewrite <- ?app_assoc; simpl;
  rewrite ?drop_app_length, ?drop_all.

(** Membership in, and lookup at, a list that is written out. *)
Ltac member_cases H :=
  first
    [ apply elem_of_nil in H; contradiction
    | apply elem_of_cons in H as [H|H];
      [ first [discriminate H | injection H as H; subst] | member_cases H ] ].

Ltac lookup_cases H i :=
  destruct i as [|i]; simpl in H;
  [ first [discriminate H | injection H as ? ? ?; subst]
  | first [discriminate H | lookup_cases H i] ].

Ltac waited_at j :=
  exists j; split; [lia|]; split; [reflexivity|];
  eexists _, _; split; [reflexivity|]; split; reflexivity.

Arguments field : simpl never.
Arguments head_field : simpl never.
Arguments assign_next : simpl never.
Arguments assign_list_id : simpl never.
Arguments free : simpl never.
Arguments load : simpl never.
Arguments store : simpl never.
Arguments process_remove_from_list : simpl never.

(** ** Basic facts about the monad and the memory *)

Lemma bind_returned {A B : Type} (m : M A) (k : A -> M B) w a w' :
  m w = (Returned a, w') -> (x <- m ;; k x) w = k a w'.
Proof. intros H. unfold bind. now rewrite H. Qed.

Lemma bind_stopped {A B : Type} (m : M A) (k : A -> M B) w why w' :
  m w = (Stopped why, w') -> (x <- m ;; k x) w = (Stopped why, w').
Proof. intros H. unfold bind. now rewrite H. Qed.

Lemma world_eta w :
  World (heap w) (process_list w) (shell_id w) (self_pid w) (errno w) (os w)
        (trace w) (stale w) = w.
Proof. now destruct w. Qed.

Lemma field_live {A : Type} (f : process -> A) a r w :
  heap w !! a = Some (Live r) -> field f (Some a) w = (Returned (f r), w).
Proof. intros H. unfold field, bind, load, ret. now rewrite H. Qed.

Lemma head_field_live {A : Type} (f : process -> A) a r w :
  heap w !! a = Some (Live r) -> head_field f (Some a) w = (Returned (f r), w).
Proof. intros H. unfold head_field, bind, load_head, ret. now rewrite H. Qed.

Lemma assign_next_live a r v w :
  heap w !! a = Some (Live r) ->
  assign_next (Some a) v w
  = (Returned tt, set_heap (<[a := Live (with_next v r)]> (heap w)) w).
Proof. intros H. unfold assign_next, bind, load, store. now rewrite H, H. Qed.

Lemma assign_list_id_live a r v w :
  heap w !! a = Some (Live r) ->
  assign_list_id (Some a) v w
  = (Returned tt, set_heap (<[a := Live (with_list_id v r)]> (heap w)) w).
Proof. intros H. unfold assign_list_id, bind, load, store. now rewrite H, H. Qed.

Lemma free_live a r w :
  heap w !! a = Some (Live r) ->
  free a w = (Returned tt, set_heap (<[a := Freed r]> (heap w)) w).
Proof. intros H. unfold free. now rewrite H. Qed.

(** ** Facts about chains *)

Section chain_facts.

(** The heap all chains of this section live in. *)
Variable h : gmap addr cell.

Lemma chain_head p l : chain h p l -> p = head (addrs l).
Proof. destruct l as [|j l]; simpl; [done | now intros [-> _]]. Qed.

(** A chain is determined by the heap and its first pointer. *)
Lemma chain_functional p l1 l2 : chain h p l1 -> chain h p l2 -> l1 = l2.
Proof.
  revert p l2. induction l1 as [|j1 l1 IH]; intros p [|j2 l2]; simpl.
  - done.
  - intros -> [? _]. done.
  - intros [-> _] ?. done.
  - intros [-> (nx1 & H1 & C1)] [E (nx2 & H2 & C2)].
    injection E as E. rewrite <- E in H2. rewrite H1 in H2.
    injection H2 as -> Hn Hp Hi.
    f_equal.
    + destruct j1, j2; simpl in *; congruence.
    + eapply IH; eauto.
Qed.

Lemma chain_suffix p l i :
  chain h p l -> exists q, chain h q (drop i l).
Proof.
  revert p l. induction i as [|i IH]; intros p l C.
  - exists p. now rewrite drop_0.
  - destruct l as [|j l]; simpl.
    + exists None. done.
    + destruct C as [_ (nx & _ & C)]. eapply IH; eauto.
Qed.

(** No record occurs twice in a chain: a chain that came back to one of its
    records would never reach [NULL]. *)
Lemma chain_not_in p j l : chain h p (j :: l) -> job_addr j ∉ addrs l.
Proof.
  intros C Hin.
  apply list_elem_of_fmap in Hin as (j' & Ej & Hin).
  apply list_elem_of_lookup in Hin as (i & Hi).
  destruct C as [_ (nx & Hj & C)].
  destruct (chain_suffix nx l i C) as (q & Cq).
  rewrite (drop_S _ _ _ Hi) in Cq.
  assert (C' : chain h q (j :: l)).
  { simpl in Cq. destruct Cq as [-> (nx' & Hj' & Cq)].
    simpl. split; [now rewrite Ej|]. exists nx. split; [done|]. done. }
  pose proof (chain_functional _ _ _ Cq C') as E.
  assert (Hlen : length (j' :: drop (S i) l) = length (j :: l)) by now rewrite E.
  apply lookup_lt_Some in Hi.
  simpl in Hlen. rewrite length_drop in Hlen. lia.
Qed.

Lemma chain_NoDup p l : chain h p l -> NoDup (addrs l).
Proof.
  revert p. induction l as [|j l IH]; intros p C; simpl.
  - constructor.
  - constructor.
    + eapply chain_not_in; eauto.
    + destruct C as [_ (nx & _ & C)]. eapply IH; eauto.
Qed.

Lemma chain_live p l a :
  chain h p l -> a ∈ addrs l -> exists r, h !! a = Some (Live r).
Proof.
  revert p. induction l as [|j l IH]; intros p C Hin; simpl in *.
  - now apply elem_of_nil in Hin.
  - destruct C as [_ (nx & Hj & C)].
    apply elem_of_cons in Hin as [-> | Hin]; eauto.
Qed.

(** Writing to a cell outside the chain does not change it. *)
Lemma chain_frame p l a c :
  chain h p l -> a ∉ addrs l -> chain (<[a := c]> h) p l.
Proof.
  revert p. induction l as [|j l IH]; intros p C Hn; simpl in *; [done|].
  destruct C as [-> (nx & Hj & C)].
  apply not_elem_of_cons in Hn as [Hne Hn].
  split; [done|]. exists nx. split.
  - rewrite lookup_insert_ne; done.
  - apply IH; done.
Qed.

Lemma chain_length p l : chain h p l -> (length l <= size h)%nat.
Proof.
  intros C.
  assert (Hsub : addrs l ⊆ (map_to_list h).*1).
  { intros a Ha. destruct (chain_live _ _ _ C Ha) as (r & Hr).
    apply list_elem_of_fmap. exists (a, Live r). split; [done|].
    now apply elem_of_map_to_list. }
  pose proof (chain_NoDup _ _ C) as Hnd.
  apply NoDup_submseteq in Hsub; [|done].
  apply submseteq_length in Hsub.
  unfold addrs in Hsub. rewrite !length_fmap in Hsub.
  now rewrite length_map_to_list in Hsub.
Qed.

End chain_facts.

Lemma read_chain_sound fuel h p l : read_chain fuel h p = Some l -> chain h p l.
Proof.
  revert p l. induction fuel as [|fuel IH]; intros [a|] l; simpl; intros H;
    try congruence.
  - injection H as <-. done.
  - destruct (h !! a) as [[r|r]|] eqn:Ha; try congruence.
    destruct (read_chain fuel h (next r)) as [l'|] eqn:Hr; try congruence.
    injection H as <-. simpl. split; [done|].
    exists (next r). split; [|now apply IH]. now destruct r.
  - injection H as <-. done.
Qed.

Lemma read_chain_complete fuel h p l :
  chain h p l -> (length l <= fuel)%nat -> read_chain fuel h p = Some l.
Proof.
  revert p l. induction fuel as [|fuel IH]; intros p [|j l]; simpl;
    intros C Hlen; try lia.
  - now subst.
  - now subst.
  - destruct C as [-> (nx & Hj & C)]. rewrite Hj. simpl.
    rewrite (IH nx l C) by lia. now destruct j.
Qed.

Lemma jobs_chain w l : jobs w = Some l <-> chain (heap w) (process_list w) l.
Proof.
  split.
  - apply read_chain_sound.
  - intros C. apply read_chain_complete; [done|]. eapply chain_length; eauto.
Qed.

(** ** The list functions on a well-formed table *)

Lemma with_next_same r : with_next (next r) r = r.
Proof. now destruct r. Qed.

Lemma set_fields_same w :
  set_process_list (process_list w) (set_heap (heap w) w) = w.
Proof. now destruct w. Qed.

Lemma remove_walk_spec pid l :
  forall fuel node prev w,
    chain (heap w) node l ->
    slot_holds prev w node ->
    (forall b, prev = Some b -> b ∉ addrs l) ->
    (length l < fuel)%nat ->
    exists h' pl' p',
      remove_walk fuel node prev pid w
      = (Returned 0, set_process_list pl' (set_heap h' w)) /\
      slot_after prev w h' pl' p' /\
      chain h' p' (remove_first pid l) /\
      (forall c, c ∉ addrs l -> (forall b, prev = Some b -> c <> b) ->
                 h' !! c = heap w !! c) /\
      (forall j, first_with_pid pid l = Some j ->
                 exists nx, h' !! job_addr j = Some (Freed (record_of j nx)) /\
                            heap w !! job_addr j = Some (Live (record_of j nx))).
Proof.
  induction l as [|j l IH]; intros fuel node prev w C Hslot Hprev Hfuel.
  - (* the walk is at NULL: nothing matched *)
    simpl in C. subst node.
    exists (heap w), (process_list w), None.
    destruct fuel; [simpl in Hfuel; lia|]. simpl.
    rewrite set_fields_same. repeat split; try done.
    destruct prev as [b|]; simpl in *.
    + split; [done|]. intros rb Hb. destruct Hslot as (rb' & Hb' & Hn).
      rewrite Hb in Hb'. injection Hb' as <-. rewrite <- Hn.
      now rewrite with_next_same.
    + done.
  - destruct C as [-> (nx & Hj & C)].
    destruct fuel as [|fuel]; [simpl in Hfuel; lia|].
    pose proof (chain_not_in _ _ _ _ (conj eq_refl (ex_intro _ nx (conj Hj C))))
      as Hjl.
    simpl remove_walk.
    rewrite (bind_returned _ _ _ _ _ (field_live process_id _ _ _ Hj)).
    cbn [process_id record_of remove_first first_with_pid].
    destruct (job_pid j =? pid) eqn:Hpid.
    + (* this record goes *)
      rewrite (bind_returned _ _ _ _ _ (head_field_live next _ _ _ Hj)).
      cbn [next record_of].
      destruct prev as [b|]; simpl in Hslot.
      * destruct Hslot as (rb & Hb & Hn).
        assert (Hne : b <> job_addr j).
        { intros ->. apply (Hprev _ eq_refl). simpl. left. }
        assert (Hbl : b ∉ addrs l).
        { intros Hin. apply (Hprev _ eq_refl). simpl. now right. }
        exists (<[job_addr j := Freed (record_of j nx)]>
                  (<[b := Live (with_next nx rb)]> (heap w))),
               (process_list w), nx.
        split.
        { unfold bind at 1. unfold bind at 1.
          rewrite (assign_next_live _ _ _ _ Hb).
          erewrite free_live; [reflexivity|].
          simpl. rewrite lookup_insert_ne; done. }
        split.
        { simpl. split; [done|]. intros rb' Hb'.
          rewrite Hb in Hb'. injection Hb' as <-.
          rewrite lookup_insert_ne by done. now rewrite lookup_insert_eq. }
        split.
        { apply chain_frame; [|done]. apply chain_frame; done. }
        split.
        { intros c Hc Hcb. apply not_elem_of_cons in Hc as [Hcj Hc].
          rewrite lookup_insert_ne by done.
          rewrite lookup_insert_ne; [done|]. intros E. now apply (Hcb b). }
        { intros j' Ej. injection Ej as <-. exists nx.
          rewrite lookup_insert_eq. done. }
      * exists (<[job_addr j := Freed (record_of j nx)]> (heap w)), nx, nx.
        split.
        { unfold bind at 1. unfold bind at 1. unfold modify at 1.
          erewrite free_live; [reflexivity|]. simpl. done. }
        split; [done|].
        split; [apply chain_frame; done|].
        split.
        { intros c Hc _. apply not_elem_of_cons in Hc as [Hcj Hc].
          rewrite lookup_insert_ne; done. }
        { intros j' Ej. injection Ej as <-. exists nx.
          rewrite lookup_insert_eq. done. }
    + (* step to the next record *)
      rewrite (bind_returned _ _ _ _ _ (head_field_live next _ _ _ Hj)).
      cbn [next record_of].
      destruct (IH fuel nx (Some (job_addr j)) w C) as
        (h' & pl' & p' & Hrun & Hafter & Hchain & Hframe & Hfreed).
      { simpl. eauto. }
      { intros b [= <-]. done. }
      { simpl in Hfuel. lia. }
      destruct Hafter as [-> Hafter]. specialize (Hafter _ Hj).
      exists h', (process_list w), (Some (job_addr j)).
      split; [done|].
      assert (Hc' : chain h' (Some (job_addr j)) (j :: remove_first pid l)).
      { simpl. split; [done|]. exists p'. split; [|done]. done. }
      split.
      { destruct prev as [b|]; simpl in *.
        - split; [done|]. intros rb Hb.
          destruct Hslot as (rb' & Hb' & Hn).
          rewrite Hb in Hb'. injection Hb' as <-.
          rewrite <- Hn, with_next_same.
          rewrite Hframe; [done| |].
          + intros Hin. apply (Hprev _ eq_refl). simpl. now right.
          + intros b' [= <-] ->. apply (Hprev _ eq_refl). simpl. left.
        - done. }
      split; [done|].
      split.
      { intros c Hc Hcb. apply not_elem_of_cons in Hc as [Hcj Hc].
        apply Hframe; [done|]. intros b' [= <-]. done. }
      { done. }
Qed.

Lemma walk_fuel_enough w p l :
  chain (heap w) p l -> (length l < walk_fuel w)%nat.
Proof. intros C. apply chain_length in C. unfold walk_fuel. lia. Qed.

(** [process_remove_from_list] on a table that reads as [l]. *)
Lemma process_remove_from_list_empty pid w :
  process_list w = None ->
  process_remove_from_list pid w
  = (Returned (-1),
     add_event (EvPrintf "%s: %s" [ArgStr (Some "Error");
                                   ArgStr (Some ERROR_NO_SUCH_PROC)]) w).
Proof.
  intros H. unfold process_remove_from_list, bind, get. now rewrite H.
Qed.

Lemma process_remove_from_list_spec pid w l :
  chain (heap w) (process_list w) l ->
  l <> [] ->
  exists h' pl',
    process_remove_from_list pid w
    = (Returned 0, set_process_list pl' (set_heap h' w)) /\
    chain h' pl' (remove_first pid l) /\
    (forall c, c ∉ addrs l -> h' !! c = heap w !! c) /\
    (forall j, first_with_pid pid l = Some j ->
               exists nx, h' !! job_addr j = Some (Freed (record_of j nx)) /\
                          heap w !! job_addr j = Some (Live (record_of j nx))).
Proof.
  intros C Hne.
  destruct (remove_walk_spec pid l (walk_fuel w) (process_list w) None w C)
    as (h' & pl' & p' & Hrun & Hafter & Hchain & Hframe & Hfreed).
  { done. }
  { intros b. discriminate. }
  { eapply walk_fuel_enough; eauto. }
  simpl in Hafter. subst p'.
  exists h', pl'. split; [|split; [done|split; [|done]]].
  - unfold process_remove_from_list, bind, get.
    destruct (process_list w) as [a|] eqn:Hpl; [done|].
    destruct l; [done|]. simpl in C. now destruct C.
  - intros c Hc. apply Hframe; [done|]. intros b. discriminate.
Qed.

Lemma add_events_nil w : add_events [] w = w.
Proof. unfold add_events. rewrite app_nil_r. apply world_eta. Qed.

(** [print_walk] on the records [l] that follow [node]. *)
Lemma print_walk_spec l :
  forall fuel node n w,
    chain (heap w) node l ->
    (length l < fuel)%nat ->
    exists h',
      print_walk fuel node n w
      = (Returned tt, set_heap h' (add_events (job_lines n l) w)) /\
      chain h' node (renumber n l) /\
      (forall c, c ∉ addrs l -> h' !! c = heap w !! c).
Proof.
  induction l as [|j l IH]; intros fuel node n w C Hfuel.
  - simpl in C. subst node. exists (heap w).
    destruct fuel; [simpl in Hfuel; lia|]. simpl.
    rewrite add_events_nil. split; [|done]. f_equal. now destruct w.
  - destruct C as [-> (nx & Hj & C)].
    destruct fuel as [|fuel]; [simpl in Hfuel; lia|].
    pose proof (chain_not_in _ _ _ _ (conj eq_refl (ex_intro _ nx (conj Hj C))))
      as Hjl.
    simpl print_walk.
    rewrite (bind_returned _ _ _ _ _ (head_field_live name _ _ _ Hj)).
    rewrite (bind_returned _ _ _ _ _ (field_live process_id _ _ _ Hj)).
    cbn [name process_id record_of].
    unfold bind at 1. unfold printf at 1, emit at 1, modify at 1.
    set (e := EvPrintf _ _).
    assert (Hj1 : heap (add_event e w) !! job_addr j
                  = Some (Live (record_of j nx))) by done.
    rewrite (bind_returned _ _ _ _ _ (assign_list_id_live _ _ n _ Hj1)).
    set (w1 := set_heap _ _).
    assert (Hj2 : heap w1 !! job_addr j
                  = Some (Live (with_list_id n (record_of j nx)))).
    { unfold w1. simpl. now rewrite lookup_insert_eq. }
    rewrite (bind_returned _ _ _ _ _ (head_field_live next _ _ _ Hj2)).
    cbn [next with_list_id record_of].
    destruct (IH fuel nx (int_wrap (n + 1)) w1) as (h' & Hrun & Hchain & Hframe).
    { unfold w1. simpl. apply chain_frame; done. }
    { simpl in Hfuel. lia. }
    exists h'. split; [|split].
    + rewrite Hrun. f_equal. unfold w1, set_heap, add_events, add_event. simpl.
      f_equal. now rewrite <- app_assoc.
    + simpl. split; [done|]. exists nx. split; [|done].
      rewrite Hframe by done. unfold w1. simpl. now rewrite lookup_insert_eq.
    + intros c Hc. apply not_elem_of_cons in Hc as [Hcj Hc].
      rewrite Hframe by done. unfold w1. simpl.
      rewrite lookup_insert_ne; done.
Qed.

Lemma process_print_list_spec w l :
  chain (heap w) (process_list w) l ->
  exists h',
    process_print_list w
    = (Returned tt,
       set_heap h' (add_events (job_lines LIST_ID_FIRST_VAL l) w)) /\
    chain h' (process_list w) (renumber LIST_ID_FIRST_VAL l) /\
    (forall c, c ∉ addrs l -> h' !! c = heap w !! c).
Proof.
  intros C.
  destruct (print_walk_spec l (walk_fuel w) (process_list w) LIST_ID_FIRST_VAL w C)
    as (h' & Hrun & Hchain & Hframe).
  { eapply walk_fuel_enough; eauto. }
  exists h'. split; [|done]. done.
Qed.

Lemma field_freed {A : Type} (f : process -> A) a r w :
  heap w !! a = Some (Freed r) ->
  field f (Some a) w = (Returned (f r), add_violation (UseAfterFree a) w).
Proof. intros H. unfold field, bind, load, ret. now rewrite H. Qed.

(** [fg_walk] over the records [l] that follow [node], in a table that reads
    as [l_all].  The pid that is handed back is read from the record after
    [process_remove_from_list] released it. *)
Lemma fg_walk_spec id l_all l :
  forall fuel node w,
    chain (heap w) (process_list w) l_all ->
    l_all <> [] ->
    chain (heap w) node l ->
    (length l < fuel)%nat ->
    match first_with_index id l with
    | None => fg_walk fuel node id w = (Returned (-1), w)
    | Some j =>
        first_with_pid (job_pid j) l_all = Some j ->
        exists h' pl',
          fg_walk fuel node id w
          = (Returned (job_pid j),
             add_violation (UseAfterFree (job_addr j))
               (set_process_list pl' (set_heap h' w))) /\
          chain h' pl' (remove_first (job_pid j) l_all) /\
          (forall c, c ∉ addrs l_all -> h' !! c = heap w !! c) /\
          (exists r, h' !! job_addr j = Some (Freed r))
    end.
Proof.
  induction l as [|j l IH]; intros fuel node w Call Hne C Hfuel.
  - simpl in C. subst node. simpl. now destruct fuel.
  - destruct C as [-> (nx & Hj & C)].
    destruct fuel as [|fuel]; [simpl in Hfuel; lia|].
    simpl fg_walk.
    rewrite (bind_returned _ _ _ _ _ (field_live list_id _ _ _ Hj)).
    cbn [list_id record_of first_with_index].
    destruct (job_index j =? id) eqn:Hid.
    + intros Hfirst.
      rewrite (bind_returned _ _ _ _ _ (field_live process_id _ _ _ Hj)).
      cbn [process_id record_of].
      destruct (process_remove_from_list_spec (job_pid j) w l_all Call Hne)
        as (h' & pl' & Hrun & Hchain & Hframe & Hfreed).
      destruct (Hfreed _ Hfirst) as (nx' & Hr & _).
      exists h', pl'.
      rewrite (bind_returned _ _ _ _ _ Hrun).
      rewrite (field_freed process_id (job_addr j) (record_of j nx')); [|done].
      cbn [process_id record_of]. eauto.
    + rewrite (bind_returned _ _ _ _ _ (head_field_live next _ _ _ Hj)).
      cbn [next record_of].
      apply IH; try done. simpl in Hfuel. lia.
Qed.

Lemma process_bring_to_fg_empty id w :
  process_list w = None ->
  process_bring_to_fg id w
  = (Returned (-1),
     add_event (EvPrintf "%s: %s" [ArgStr (Some "Error");
                                   ArgStr (Some ERROR_NO_SUCH_PROC)]) w).
Proof.
  intros H. unfold process_bring_to_fg, bind, get. now rewrite H.
Qed.

Lemma process_bring_to_fg_walk id w l :
  chain (heap w) (process_list w) l ->
  l <> [] ->
  process_bring_to_fg id w = fg_walk (walk_fuel w) (process_list w) id w.
Proof.
  intros C Hne. unfold process_bring_to_fg, bind, get.
  destruct (process_list w) as [a|] eqn:Hpl; [done|].
  destruct l; [done|]. simpl in C. now destruct C.
Qed.

Lemma process_bring_to_fg_spec id w l :
  chain (heap w) (process_list w) l ->
  l <> [] ->
  match first_with_index id l with
  | None => process_bring_to_fg id w = (Returned (-1), w)
  | Some j =>
      first_with_pid (job_pid j) l = Some j ->
      exists h' pl',
        process_bring_to_fg id w
        = (Returned (job_pid j),
           add_violation (UseAfterFree (job_addr j))
             (set_process_list pl' (set_heap h' w))) /\
        chain h' pl' (remove_first (job_pid j) l) /\
        (forall c, c ∉ addrs l -> h' !! c = heap w !! c) /\
        (exists r, h' !! job_addr j = Some (Freed r))
  end.
Proof.
  intros C Hne.
  pose proof (fg_walk_spec id l l (walk_fuel w) (process_list w) w C Hne C
                (walk_fuel_enough _ _ _ C)) as H.
  rewrite (process_bring_to_fg_walk id w l C Hne). done.
Qed.

Lemma malloc_block a rest w :
  os w = AMalloc (Some a) :: rest ->
  (forall r, heap w !! a <> Some (Live r)) ->
  malloc w = (Returned (Some a), set_os rest w).
Proof.
  intros Hos Hfree. unfold malloc, bind, ask, get. rewrite Hos. simpl.
  destruct (heap w !! a) as [[r|r]|] eqn:Ha; try done. now destruct (Hfree r).
Qed.

(** [process_add] when the allocator hands out the block [a]. *)
Lemma process_add_spec nm pid bg a rest w l :
  chain (heap w) (process_list w) l ->
  os w = AMalloc (Some a) :: rest ->
  (forall r, heap w !! a <> Some (Live r)) ->
  process_add nm pid bg w
  = (Returned 0,
     set_process_list (Some a)
       (set_heap (<[a := Live (Process (process_list w) nm pid (-1))]> (heap w))
          (set_os rest w))) /\
  chain (<[a := Live (Process (process_list w) nm pid (-1))]> (heap w))
        (Some a) (Job a nm pid (-1) :: l).
Proof.
  intros C Hos Hfree. split.
  - unfold process_add.
    rewrite (bind_returned _ _ _ _ _ (malloc_block _ _ _ Hos Hfree)).
    erewrite bind_returned; [|reflexivity].
    erewrite bind_returned; [|reflexivity].
    erewrite bind_returned;
      [|apply assign_next_live; simpl; apply lookup_insert_eq].
    erewrite bind_returned; [|reflexivity].
    unfold ret. simpl. rewrite insert_insert_eq. done.
  - simpl. split; [done|]. exists (process_list w).
    split; [now rewrite lookup_insert_eq|].
    apply chain_frame; [done|].
    intros Hin. destruct (chain_live _ _ _ _ C Hin) as (r & Hr).
    now destruct (Hfree r).
Qed.

(** [process_add] when the allocator has no memory left. *)
Lemma process_add_fails nm pid bg rest w :
  os w = AMalloc None :: rest ->
  process_add nm pid bg w
  = (Returned (-1),
     add_event (EvPrintf "%s: %s" [ArgStr (Some "Error");
                                   ArgStr (Some ERROR_OUT_OF_MEM)])
       (set_os rest w)).
Proof.
  intros Hos. unfold process_add, malloc, bind, ask. now rewrite Hos.
Qed.

(** ** Facts about the list reading *)

Lemma int_wrap_small z : - 2 ^ 31 <= z < 2 ^ 31 -> int_wrap z = z.
Proof.
  intros H. unfold int_wrap.
  rewrite Z.mod_small; lia.
Qed.

(** Distinct identifiers of type [pid_t] are fewer than [int] has values. *)
Lemma distinct_pids_bound (l : list Z) :
  NoDup l -> Forall pid_ok l -> Z.of_nat (length l) <= INT_MAX.
Proof.
  intros Hnd Hok.
  assert (Hsub : l ⊆+ seqZ 1 INT_MAX).
  { apply NoDup_submseteq; [done|]. intros x Hx.
    rewrite Forall_forall in Hok. specialize (Hok x Hx).
    apply elem_of_seqZ. unfold pid_ok in Hok. lia. }
  apply submseteq_length in Hsub. rewrite length_seqZ in Hsub.
  unfold INT_MAX in *. lia.
Qed.

Lemma renumber_pids n l : pids (renumber n l) = pids l.
Proof. revert n. induction l as [|j l IH]; intros n; simpl; [done|]. now rewrite IH. Qed.

Lemma renumber_addrs n l : addrs (renumber n l) = addrs l.
Proof. revert n. induction l as [|j l IH]; intros n; simpl; [done|]. now rewrite IH. Qed.

Lemma renumber_length n l : length (renumber n l) = length l.
Proof. revert n. induction l as [|j l IH]; intros n; simpl; [done|]. now rewrite IH. Qed.

(** The [k]-th record gets the number [n + k], as long as the counter does
    not leave the range of [int]. *)
Lemma renumber_lookup l :
  forall n (k : nat) j,
    0 <= n -> n + Z.of_nat (length l) <= 2 ^ 31 ->
    renumber n l !! k = Some j ->
    exists j0, l !! k = Some j0 /\
               j = Job (job_addr j0) (job_name j0) (job_pid j0) (n + Z.of_nat k).
Proof.
  induction l as [|j0 l IH]; intros n k j Hn Hlen Hk; [done|].
  destruct k as [|k]; simpl in *.
  - injection Hk as <-. exists j0. split; [done|]. now rewrite Z.add_0_r.
  - destruct l as [|j1 l]; [done|].
    rewrite int_wrap_small in Hk by (simpl in Hlen; lia).
    destruct (IH (n + 1) k j) as (j' & Hj' & ->); [lia|simpl in *; lia|done|].
    exists j'. split; [done|]. f_equal. lia.
Qed.

Lemma first_with_index_assigned l :
  forall n (k : nat) j,
    0 <= n -> n + Z.of_nat (length l) <= 2 ^ 31 ->
    renumber n l !! k = Some j ->
    first_with_index (n + Z.of_nat k) (renumber n l) = Some j.
Proof.
  induction l as [|j0 l IH]; intros n k j Hn Hlen Hk; [done|].
  destruct k as [|k]; simpl in *.
  - injection Hk as <-. simpl. now rewrite Z.add_0_r, Z.eqb_refl.
  - destruct (Z.eqb_spec n (n + Z.of_nat (S k))) as [E|E]; [lia|].
    destruct l as [|j1 l]; [done|].
    rewrite int_wrap_small in * by (simpl in Hlen; lia).
    replace (n + Z.of_nat (S k)) with (n + 1 + Z.of_nat k) by lia.
    apply IH; [lia|simpl in *; lia|done].
Qed.

Lemma first_with_index_unassigned l :
  forall n id,
    0 <= n -> n + Z.of_nat (length l) <= 2 ^ 31 ->
    ~ (n <= id < n + Z.of_nat (length l)) ->
    first_with_index id (renumber n l) = None.
Proof.
  induction l as [|j0 l IH]; intros n id Hn Hlen Hid; [done|].
  simpl in *.
  destruct (Z.eqb_spec n id) as [E|E]; [lia|].
  destruct l as [|j1 l]; [done|].
  rewrite int_wrap_small by (simpl in Hlen; lia).
  apply IH; [lia|simpl in *; lia|simpl in *; lia].
Qed.

(** With pairwise distinct pids, removing by pid removes by position. *)
Lemma remove_first_delete l :
  forall (k : nat) j,
    NoDup (pids l) -> l !! k = Some j ->
    first_with_pid (job_pid j) l = Some j /\
    remove_first (job_pid j) l = delete k l.
Proof.
  induction l as [|j0 l IH]; intros k j Hnd Hk; [done|].
  simpl in Hnd. apply NoDup_cons in Hnd as [Hnotin Hnd].
  destruct k as [|k]; simpl in *.
  - injection Hk as <-. now rewrite Z.eqb_refl.
  - destruct (Z.eqb_spec (job_pid j0) (job_pid j)) as [E|E].
    + exfalso. apply Hnotin. rewrite E.
      apply list_elem_of_fmap. exists j. split; [done|].
      eapply list_elem_of_lookup_2; eauto.
    + destruct (IH k j Hnd Hk) as [-> ->]. done.
Qed.

Lemma remove_first_absent pid l : pid ∉ pids l -> remove_first pid l = l.
Proof.
  induction l as [|j l IH]; intros Hn; simpl in *; [done|].
  apply not_elem_of_cons in Hn as [Hne Hn].
  destruct (Z.eqb_spec (job_pid j) pid) as [E|E]; [done|]. now rewrite IH.
Qed.

Lemma remove_first_pids pid l :
  NoDup (pids l) ->
  NoDup (pids (remove_first pid l)) /\
  forall x, x ∈ pids (remove_first pid l) <-> x ∈ pids l /\ x <> pid.
Proof.
  induction l as [|j l IH]; intros Hnd; simpl in *.
  - split; [constructor|]. intros x. split; [intros H|intros [H _]];
      now apply elem_of_nil in H.
  - apply NoDup_cons in Hnd as [Hnotin Hnd].
    destruct (IH Hnd) as [IH1 IH2].
    destruct (Z.eqb_spec (job_pid j) pid) as [E|E].
    + split; [done|]. intros x. rewrite elem_of_cons.
      split.
      * intros Hx. split; [now right|]. intros ->. now subst.
      * intros [[-> | Hx] Hne]; [now subst|done].
    + simpl. split.
      * apply NoDup_cons. split; [|done]. rewrite IH2. tauto.
      * intros x. rewrite !elem_of_cons, IH2. split.
        -- intros [-> | [Hx Hne]]; [split; [now left|done]|split; [now right|done]].
        -- intros [[-> | Hx] Hne]; [now left|right; done].
Qed.

(** ** The job table: enumeration, then removal by display index *)

(** C1, with the condition the code needs.  The table is one whose pids
    are pairwise distinct.  Right after [process_print_list]
    (enumerate_for_display) the records
    carry the numbers 0, 1, 2, ... in list order.  On that table
    [process_bring_to_fg] (find_and_remove_by_display_index) with the number
    of the [k]-th record hands back the pid of that record and takes exactly
    that record out of the table: the other records stay, in order, and it
    is the record's own cell that is released.  With any number that was not
    assigned (negative, or at least the length of the table) it hands back
    -1 and leaves table and heap as they are.  The pids are positive values
    of [pid_t], as [fork] returns them.  The pid that is handed back is read
    from the record after its release, which the run records in [stale]. *)
Theorem bring_to_fg_after_print_list (w : world) (l : list job) :
  jobs w = Some l ->
  NoDup (pids l) ->
  Forall pid_ok (pids l) ->
  exists w1,
    process_print_list w = (Returned tt, w1) /\
    jobs w1 = Some (renumber LIST_ID_FIRST_VAL l) /\
    forall id : Z,
      (forall (k : nat) (j : job),
          renumber LIST_ID_FIRST_VAL l !! k = Some j ->
          id = Z.of_nat k ->
          job_index j = id /\
          exists w2,
            process_bring_to_fg id w1 = (Returned (job_pid j), w2) /\
            job_pid j <> -1 /\
            jobs w2 = Some (delete k (renumber LIST_ID_FIRST_VAL l)) /\
            released w2 (job_addr j) = true /\
            trace w2 = trace w1 /\
            stale w2 = stale w1 ++ [UseAfterFree (job_addr j)]) /\
      (~ (0 <= id < Z.of_nat (length l)) ->
          exists w2,
            process_bring_to_fg id w1 = (Returned (-1), w2) /\
            jobs w2 = Some (renumber LIST_ID_FIRST_VAL l) /\
            heap w2 = heap w1 /\
            process_list w2 = process_list w1).
Proof.
  intros Hjobs Hnd Hok.
  apply jobs_chain in Hjobs.
  pose proof (distinct_pids_bound _ Hnd Hok) as Hlen.
  unfold pids in Hlen. rewrite length_fmap in Hlen. unfold INT_MAX in Hlen.
  destruct (process_print_list_spec w l Hjobs) as (h1 & Hrun1 & Hchain1 & _).
  set (l1 := renumber LIST_ID_FIRST_VAL l) in *.
  set (w1 := set_heap h1 (add_events (job_lines LIST_ID_FIRST_VAL l) w)) in *.
  assert (Hc1 : chain (heap w1) (process_list w1) l1) by done.
  exists w1. split; [done|]. split; [now apply jobs_chain|].
  intros id. split.
  - intros k j Hk ->.
    destruct (renumber_lookup l LIST_ID_FIRST_VAL k j) as (j0 & Hj0 & Ej);
      [done|unfold LIST_ID_FIRST_VAL; lia|done|].
    split; [subst j; unfold LIST_ID_FIRST_VAL; simpl; lia|].
    assert (Hne : l1 <> []) by (intros E; now rewrite E in Hk).
    pose proof (process_bring_to_fg_spec (Z.of_nat k) w1 l1 Hc1 Hne) as Hfg.
    assert (Hfirst : first_with_index (Z.of_nat k) l1 = Some j).
    { replace (Z.of_nat k) with (LIST_ID_FIRST_VAL + Z.of_nat k)
        by (unfold LIST_ID_FIRST_VAL; lia).
      apply first_with_index_assigned;
        [done|unfold LIST_ID_FIRST_VAL; lia|done]. }
    rewrite Hfirst in Hfg.
    assert (Hnd1 : NoDup (pids l1)) by (unfold l1; now rewrite renumber_pids).
    destruct (remove_first_delete l1 k j Hnd1 Hk) as [Hfp Hrm].
    destruct (Hfg Hfp) as (h2 & pl2 & Hrun2 & Hchain2 & _ & (r & Hr)).
    eexists. split; [exact Hrun2|].
    split.
    { assert (Hin : job_pid j ∈ pids l1).
      { apply list_elem_of_fmap. exists j. split; [done|].
        eapply list_elem_of_lookup_2; eauto. }
      unfold l1 in Hin. rewrite renumber_pids in Hin.
      rewrite Forall_forall in Hok. specialize (Hok _ Hin).
      unfold pid_ok in Hok. lia. }
    split.
    { apply jobs_chain. simpl. now rewrite <- Hrm. }
    split.
    { unfold released. simpl. now rewrite Hr. }
    done.
  - intros Hid.
    destruct l as [|j0 l'] eqn:El.
    + (* the empty table: an error message, nothing else *)
      simpl in Hjobs.
      eexists. split.
      { apply process_bring_to_fg_empty. unfold w1. simpl. done. }
      split; [|done]. apply jobs_chain. done.
    + assert (Hne : l1 <> []) by done.
      pose proof (process_bring_to_fg_spec id w1 l1 Hc1 Hne) as Hfg.
      assert (Hnone : first_with_index id l1 = None).
      { apply first_with_index_unassigned; unfold LIST_ID_FIRST_VAL; [done|lia|lia]. }
      rewrite Hnone in Hfg.
      exists w1. split; [done|]. split; [now apply jobs_chain|done].
Qed.

Lemma in_use_false w a :
  in_use w a = false -> forall r, heap w !! a <> Some (Live r).
Proof. unfold in_use. intros H r E. now rewrite E in H. Qed.

(** C9. [process_add] gives the new record the list id -1 and puts it in
    front.  As long as no enumeration has run, [process_bring_to_fg (-1)]
    therefore finds this record: it hands back its pid and takes it out
    again.  Removing another pid leaves the record and its -1 in place.
    The next [process_print_list] replaces the -1 by the number 0. *)
Theorem new_record_reachable_by_minus_one
    (w : world) (l : list job) (nm : cstr) (pid bg : Z) (a : addr)
    (rest : list answer) :
  jobs w = Some l ->
  os w = AMalloc (Some a) :: rest ->
  in_use w a = false ->
  exists w1,
    process_add nm pid bg w = (Returned 0, w1) /\
    jobs w1 = Some (Job a nm pid (-1) :: l) /\
    (exists w2,
        process_bring_to_fg (-1) w1 = (Returned pid, w2) /\
        jobs w2 = Some l /\
        released w2 a = true) /\
    (exists w3,
        process_print_list w1 = (Returned tt, w3) /\
        jobs w3 = Some (Job a nm pid 0 :: renumber (int_wrap (0 + 1)) l)) /\
    (forall pid', pid' <> pid ->
        exists w4,
          process_remove_from_list pid' w1 = (Returned 0, w4) /\
          jobs w4 = Some (Job a nm pid (-1) :: remove_first pid' l)).
Proof.
  intros Hjobs Hos Hfree.
  apply jobs_chain in Hjobs.
  destruct (process_add_spec nm pid bg a rest w l Hjobs Hos (in_use_false _ _ Hfree))
    as [Hrun Hchain].
  eexists. split; [exact Hrun|].
  set (w1 := set_process_list _ _) in *.
  assert (Hc1 : chain (heap w1) (process_list w1) (Job a nm pid (-1) :: l)) by done.
  split; [now apply jobs_chain|]. split; [|split].
  - pose proof (process_bring_to_fg_spec (-1) w1 _ Hc1 ltac:(done)) as Hfg.
    cbn [first_with_index job_index] in Hfg. rewrite Z.eqb_refl in Hfg.
    cbn [first_with_pid remove_first job_pid] in Hfg. rewrite Z.eqb_refl in Hfg.
    destruct (Hfg eq_refl) as (h2 & pl2 & Hrun2 & Hchain2 & _ & (r & Hr)).
    eexists. split; [exact Hrun2|]. split.
    + apply jobs_chain. done.
    + unfold released. simpl in *. now rewrite Hr.
  - destruct (process_print_list_spec w1 _ Hc1) as (h3 & Hrun3 & Hchain3 & _).
    eexists. split; [exact Hrun3|]. apply jobs_chain. done.
  - intros pid' Hne.
    destruct (process_remove_from_list_spec pid' w1 _ Hc1 ltac:(done))
      as (h4 & pl4 & Hrun4 & Hchain4 & _).
    eexists. split; [exact Hrun4|]. apply jobs_chain.
    cbn [remove_first job_pid] in Hchain4.
    destruct (Z.eqb_spec pid pid') as [E|_]; [congruence|]. done.
Qed.

(** ** [process_remove_from_list] and its result *)

Lemma remove_walk_no_match pid l :
  forall fuel node prev w,
    chain (heap w) node l ->
    pid ∉ pids l ->
    (length l < fuel)%nat ->
    remove_walk fuel node prev pid w = (Returned 0, w).
Proof.
  induction l as [|j l IH]; intros fuel node prev w C Hn Hfuel.
  - simpl in C. subst node. now destruct fuel.
  - destruct C as [-> (nx & Hj & C)].
    destruct fuel as [|fuel]; [simpl in Hfuel; lia|].
    simpl in Hn. apply not_elem_of_cons in Hn as [Hne Hn].
    simpl remove_walk.
    rewrite (bind_returned _ _ _ _ _ (field_live process_id _ _ _ Hj)).
    cbn [process_id record_of].
    destruct (Z.eqb_spec (job_pid j) pid) as [E|E]; [done|].
    rewrite (bind_returned _ _ _ _ _ (head_field_live next _ _ _ Hj)).
    cbn [next record_of].
    apply IH; [done|done|simpl in Hfuel; lia].
Qed.

(** C3 (the code against its own contract).  The header of
    [process_remove_from_list] promises 0 when a node was removed and -1
    when no node was found.  On a table that is not empty the function
    answers 0 also when no record carries the pid, and leaves everything as
    it was: the loop falls through to the final [return 0]. *)
Theorem remove_from_list_reports_success_without_match
    (w : world) (l : list job) (pid : Z) :
  jobs w = Some l ->
  l <> [] ->
  pid ∉ pids l ->
  process_remove_from_list pid w = (Returned 0, w).
Proof.
  intros Hjobs Hne Hn. apply jobs_chain in Hjobs.
  unfold process_remove_from_list, bind, get.
  destruct (process_list w) as [a|] eqn:Hpl.
  - apply (remove_walk_no_match pid l); [done|done|].
    rewrite <- Hpl in Hjobs. eapply walk_fuel_enough; eauto.
  - destruct l; [done|]. simpl in Hjobs. now destruct Hjobs.
Qed.

(** ** Sequences of insertions and removals *)

Lemma printed_pids_job_lines n l : printed_pids (job_lines n l) = pids l.
Proof.
  revert n. induction l as [|j l IH]; intros n; [done|].
  simpl. unfold printed_pids in *. simpl. rewrite IH. done.
Qed.

Lemma elem_of_remove_first pid l j' :
  NoDup (pids l) ->
  j' ∈ remove_first pid l <-> j' ∈ l /\ job_pid j' <> pid.
Proof.
  induction l as [|j l IH]; intros Hnd; simpl in *.
  - split; [intros H|intros [H _]]; now apply elem_of_nil in H.
  - apply NoDup_cons in Hnd as [Hnotin Hnd].
    destruct (Z.eqb_spec (job_pid j) pid) as [E|E].
    + rewrite elem_of_cons. split.
      * intros Hin. split; [now right|]. intros E'. apply Hnotin.
        rewrite E, <- E'. apply list_elem_of_fmap. eauto.
      * intros [[-> | Hin] Hne]; done.
    + rewrite !elem_of_cons, IH by done. split.
      * intros [-> | [Hin Hne]]; [split; [now left|done]|split; [now right|done]].
      * intros [[-> | Hin] Hne]; [now left|now right].
Qed.

Lemma addrs_remove_first pid l c :
  c ∈ addrs l ->
  c ∈ addrs (remove_first pid l) \/
  exists j, first_with_pid pid l = Some j /\ c = job_addr j.
Proof.
  induction l as [|j l IH]; intros Hin; simpl in *.
  - now apply elem_of_nil in Hin.
  - destruct (Z.eqb_spec (job_pid j) pid) as [E|E].
    + apply elem_of_cons in Hin as [-> | Hin]; [right; eauto|now left].
    + apply elem_of_cons in Hin as [-> | Hin].
      * left. simpl. left.
      * destruct (IH Hin) as [H | H]; [left; simpl; now right|now right].
Qed.

Lemma table_matches_insert w l m nm pid a rest :
  table_matches w l m ->
  os w = AMalloc (Some a) :: rest ->
  m !! pid = None ->
  map_Forall (fun _ b => b <> a) m ->
  exists w',
    process_add nm pid 1 w = (Returned 0, w') /\
    table_matches w' (Job a nm pid (-1) :: l) (<[pid := a]> m) /\
    os w' = rest.
Proof.
  intros (C & Hnd & Hleak & Hm) Hos Hpid Hblock.
  assert (Ha : a ∉ addrs l).
  { intros Hin. apply list_elem_of_fmap in Hin as (j & -> & Hin).
    rewrite map_Forall_lookup in Hblock.
    apply (Hblock (job_pid j) (job_addr j)); [|done]. apply Hm. eauto. }
  assert (Hfree : in_use w a = false).
  { destruct (in_use w a) eqn:E; [|done]. now apply Hleak in E. }
  destruct (process_add_spec nm pid 1 a rest w l C Hos (in_use_false _ _ Hfree))
    as [Hrun Hchain].
  eexists. split; [exact Hrun|]. split; [|done].
  split; [done|]. split; [|split].
  - simpl. apply NoDup_cons. split; [|done].
    intros Hin. apply list_elem_of_fmap in Hin as (j & E & Hin).
    assert (Hsome : m !! pid = Some (job_addr j)) by (apply Hm; eauto).
    congruence.
  - intros c. unfold in_use. simpl.
    destruct (decide (c = a)) as [->|Hne].
    + intros _. left.
    + rewrite lookup_insert_ne by done. intros Hc. right. now apply Hleak.
  - intros pid' a'. destruct (decide (pid' = pid)) as [->|Hne].
    + rewrite lookup_insert_eq. split.
      * intros [= <-]. eexists. split; [left|]. done.
      * intros (j & Hin & E & <-). apply elem_of_cons in Hin as [-> | Hin]; [done|].
        assert (Hsome : m !! pid = Some (job_addr j)) by (apply Hm; eauto).
        congruence.
    + rewrite lookup_insert_ne by done. rewrite Hm. split.
      * intros (j & Hin & E & <-). exists j. split; [now right|done].
      * intros (j & Hin & E & <-). apply elem_of_cons in Hin as [-> | Hin];
          [simpl in E; congruence|eauto].
Qed.

Lemma table_matches_insert_fails w l m nm pid rest :
  table_matches w l m ->
  os w = AMalloc None :: rest ->
  exists w',
    process_add nm pid 1 w = (Returned (-1), w') /\
    table_matches w' l m /\
    os w' = rest.
Proof.
  intros (C & Hnd & Hleak & Hm) Hos.
  eexists. split; [exact (process_add_fails nm pid 1 rest w Hos)|].
  split; [|done]. split; [done|]. split; [done|]. split; done.
Qed.

Lemma table_matches_remove w l m pid :
  table_matches w l m ->
  exists r w',
    process_remove_from_list pid w = (Returned r, w') /\
    table_matches w' (remove_first pid l) (delete pid m) /\
    os w' = os w.
Proof.
  intros (C & Hnd & Hleak & Hm).
  destruct l as [|j0 l0] eqn:El.
  - (* empty table: the error message *)
    simpl in C. eexists _, _.
    split; [now apply process_remove_from_list_empty|].
    split; [|done]. split; [done|]. split; [done|]. split; [done|].
    intros pid' a'. split.
    + intros H. apply lookup_delete_Some in H as [_ H].
      apply Hm in H as (j & Hin & _). now apply elem_of_nil in Hin.
    + intros (j & Hin & _). now apply elem_of_nil in Hin.
  - rewrite <- El in *.
    assert (Hne : l <> []) by now rewrite El.
    destruct (process_remove_from_list_spec pid w l C Hne)
      as (h' & pl' & Hrun & Hchain & Hframe & Hfreed).
    eexists _, _. split; [exact Hrun|]. split; [|done].
    split; [done|]. split; [apply remove_first_pids; done|]. split.
    + intros c. unfold in_use. simpl. intros Hc.
      destruct (decide (c ∈ addrs l)) as [Hin|Hnin].
      * destruct (addrs_remove_first pid l c Hin) as [H | (j & Hj & ->)]; [done|].
        destruct (Hfreed j Hj) as (r & Hr & _). now rewrite Hr in Hc.
      * rewrite Hframe in Hc by done. exfalso. apply Hnin. now apply Hleak.
    + intros pid' a'. rewrite lookup_delete_Some, Hm. split.
      * intros (Hne' & j & Hin & E & <-). exists j. split; [|done].
        apply elem_of_remove_first; [done|]. split; [done|congruence].
      * intros (j & Hin & E & <-).
        apply elem_of_remove_first in Hin as [Hin Hne']; [|done].
        split; [congruence|eauto].
Qed.

Lemma run_ops_matches ops :
  forall w l m m' rest,
    table_matches w l m ->
    os w = alloc_script ops ++ rest ->
    spec_tracked ops m = Some m' ->
    exists w' l',
      run_ops ops w = (Returned tt, w') /\
      table_matches w' l' m' /\
      os w' = rest.
Proof.
  induction ops as [|o ops IH]; intros w l m m' rest HM Hos Hspec.
  - simpl in *. injection Hspec as <-. exists w, l. done.
  - destruct o as [nm pid [a|]|pid]; simpl in Hos, Hspec.
    + destruct (bool_decide (m !! pid = None)) eqn:E1; [|done].
      destruct (bool_decide (map_Forall (fun _ b => b <> a) m)) eqn:E2; [|done].
      simpl in Hspec.
      apply bool_decide_eq_true in E1. apply bool_decide_eq_true in E2.
      destruct (table_matches_insert w l m nm pid a _ HM Hos E1 E2)
        as (w1 & Hrun & HM1 & Hos1).
      destruct (IH w1 _ _ m' rest HM1 Hos1 Hspec) as (w' & l' & Hrun' & HM' & Hos').
      exists w', l'. split; [|done].
      simpl. now rewrite (bind_returned _ _ _ _ _ Hrun).
    + destruct (table_matches_insert_fails w l m nm pid _ HM Hos)
        as (w1 & Hrun & HM1 & Hos1).
      destruct (IH w1 _ _ m' rest HM1 Hos1 Hspec) as (w' & l' & Hrun' & HM' & Hos').
      exists w', l'. split; [|done].
      simpl. now rewrite (bind_returned _ _ _ _ _ Hrun).
    + destruct (table_matches_remove w l m pid HM) as (r & w1 & Hrun & HM1 & Hos1).
      rewrite Hos in Hos1.
      destruct (IH w1 _ _ m' rest HM1 Hos1 Hspec) as (w' & l' & Hrun' & HM' & Hos').
      exists w', l'. split; [|done].
      simpl. now rewrite (bind_returned _ _ _ _ _ Hrun).
Qed.

(** C2. Start from the empty table the shell begins with and run any
    sequence of [process_add] (insert) and [process_remove_from_list]
    (remove_by_pid) in which no pid is inserted while a live record carries
    it.  Then the table holds no two records with the same pid, its pids are
    exactly the ones the specification's table tracks, and
    [process_print_list] (enumerate_for_display) prints one line for each of
    them, in list order.  Since every prefix of such a sequence is such a
    sequence, this holds at every point of the run. *)
Theorem tracked_pids_distinct_and_listed
    (ops : list table_op) (w : world) (m : gmap Z addr) (rest : list answer) :
  heap w = ∅ ->
  process_list w = None ->
  os w = alloc_script ops ++ rest ->
  spec_tracked ops ∅ = Some m ->
  exists w' l,
    run_ops ops w = (Returned tt, w') /\
    jobs w' = Some l /\
    NoDup (pids l) /\
    list_to_set (pids l) = dom m /\
    exists w'',
      process_print_list w' = (Returned tt, w'') /\
      printed_pids (drop (length (trace w')) (trace w'')) = pids l.
Proof.
  intros Hheap Hpl Hos Hspec.
  assert (HM : table_matches w [] ∅).
  { split; [done|]. split; [constructor|]. split.
    - intros a. unfold in_use. rewrite Hheap, lookup_empty. done.
    - intros pid a. rewrite lookup_empty. split; [done|].
      intros (j & Hin & _). now apply elem_of_nil in Hin. }
  destruct (run_ops_matches ops w [] ∅ m rest HM Hos Hspec)
    as (w' & l & Hrun & (C & Hnd & Hleak & Hm) & Hos').
  exists w', l. split; [done|]. split; [now apply jobs_chain|].
  split; [done|]. split.
  - apply set_eq. intros pid.
    rewrite elem_of_list_to_set, elem_of_dom. unfold pids.
    rewrite list_elem_of_fmap. split.
    + intros (j & -> & Hin). exists (job_addr j). apply Hm. eauto.
    + intros (a & Ha). apply Hm in Ha as (j & Hin & <- & _). eauto.
  - destruct (process_print_list_spec w' l C) as (h' & Hrun' & _).
    eexists. split; [exact Hrun'|]. simpl.
    rewrite drop_app_length. apply printed_pids_job_lines.
Qed.

(** ** [execute_exit] *)

Lemma first_with_pid_head j l : first_with_pid (job_pid j) (j :: l) = Some j.
Proof. simpl. now rewrite Z.eqb_refl. Qed.

Lemma remove_first_head j l : remove_first (job_pid j) (j :: l) = l.
Proof. simpl. now rewrite Z.eqb_refl. Qed.

Lemma free_freed a r w :
  heap w !! a = Some (Freed r) ->
  free a w = (Stopped Aborted, add_violation (DoubleFree a) w).
Proof. intros H. unfold free. now rewrite H. Qed.

Lemma head_field_freed {A : Type} (f : process -> A) a r w :
  heap w !! a = Some (Freed r) ->
  head_field f (Some a) w
  = (Stopped Undefined, add_violation (UseAfterFree a) w).
Proof. intros H. unfold head_field, bind, load_head. now rewrite H. Qed.

Lemma kill_group w :
  kill 0 SIGKILL w = (Stopped Killed, add_event (EvKill 0 SIGKILL) w).
Proof. reflexivity. Qed.

(** The first turn of [exit_walk] on a table that is not empty: [node] and
    [process_list] point to the first record [j].  The turn releases [j],
    puts the pointer to [j] back into [process_list], and reads [j]'s
    [next]: a word of a released record. *)
Lemma exit_walk_first_turn (w : world) (j : job) (l : list job) (fuel : nat) :
  chain (heap w) (process_list w) (j :: l) ->
  exists h' pl',
    exit_walk (S fuel) (Some (job_addr j)) w
    = (Stopped Undefined,
       add_violation (UseAfterFree (job_addr j))
         (set_process_list (Some (job_addr j))
            (set_process_list pl' (set_heap h' w)))) /\
    chain h' pl' l /\
    (exists r, h' !! job_addr j = Some (Freed r)).
Proof.
  intros C. pose proof C as C0.
  destruct C as [Hpl (nx & Hj & C)].
  simpl exit_walk.
  erewrite bind_returned; [|reflexivity].
  rewrite Hpl.
  rewrite (bind_returned _ _ _ _ _ (field_live process_id _ _ _ Hj)).
  cbn [process_id record_of].
  destruct (process_remove_from_list_spec (job_pid j) w (j :: l) C0)
    as (h1 & pl1 & Hrun & Hchain & _ & Hfreed); [done|].
  rewrite remove_first_head in Hchain.
  rewrite (bind_returned _ _ _ _ _ Hrun).
  destruct (Hfreed j (first_with_pid_head j l)) as (nx' & Hr1 & _).
  erewrite bind_returned; [|reflexivity].
  exists h1, pl1. split; [|split; [done|eauto]].
  erewrite bind_stopped; [reflexivity|].
  eapply head_field_freed. simpl. exact Hr1.
Qed.

(** C7 (the code against its own comment).  [execute_exit] is meant to
    remove all process list elements from memory and then to end the
    process group.  On a table with at least one record it does neither.
    The first turn of its loop releases the first record, puts the pointer
    to this record back into [process_list] and then reads the record's
    [next] field, a word that belongs to the allocator by then: from this
    read on the source does not say what happens.  Up to there one record
    has been released, every other record is still allocated,
    [process_list] points to the released record, so the table is not empty
    and not even a list, and [kill(0, SIGKILL)] has not been called. *)
Theorem execute_exit_reads_released_record
    (w : world) (j : job) (l : list job) :
  jobs w = Some (j :: l) ->
  exists w',
    execute_exit w = (Stopped Undefined, w') /\
    trace w' = trace w /\
    stale w' = stale w ++ [UseAfterFree (job_addr j)] /\
    released w' (job_addr j) = true /\
    process_list w' = Some (job_addr j) /\
    (forall a, a ∈ addrs l -> in_use w' a = true) /\
    (forall l', jobs w' <> Some l').
Proof.
  intros Hjobs. apply jobs_chain in Hjobs.
  destruct (exit_walk_first_turn w j l (size (heap w)) Hjobs)
    as (h1 & pl1 & Hrun & Hchain & r & Hr).
  eexists. split.
  { unfold execute_exit.
    erewrite bind_returned; [|reflexivity].
    erewrite bind_returned; [|reflexivity].
    destruct Hjobs as [-> _].
    apply bind_stopped. exact Hrun. }
  split; [done|]. split; [done|]. split.
  { unfold released. simpl. now rewrite Hr. }
  split; [done|]. split.
  { intros a Ha. unfold in_use. simpl.
    destruct (chain_live _ _ _ _ Hchain Ha) as [r' Hr']. now rewrite Hr'. }
  intros l' E. apply jobs_chain in E. simpl in E.
  destruct l' as [|j' l']; simpl in E; [done|].
  destruct E as [E (nx & Hlive & _)]. injection E as E.
  rewrite <- E in Hlive. rewrite Hr in Hlive. done.
Qed.

(** ** The interrupt handler *)

Lemma fork_in_child me rest w :
  os w = AFork (InChild me) :: rest ->
  0 < me -> me <> self_pid w ->
  fork w = (Returned 0,
            set_self_pid me (add_event (EvFork (InChild me)) (set_os rest w))).
Proof.
  intros Hos Hpos Hne. unfold fork, bind, ask, get. rewrite Hos. simpl.
  destruct (Z.ltb_spec 0 me); [|lia].
  destruct (Z.eqb_spec me (self_pid w)); [done|]. done.
Qed.

Lemma fork_in_parent child rest w :
  os w = AFork (InParent child) :: rest ->
  0 < child -> child <> self_pid w ->
  fork w = (Returned child,
            add_event (EvFork (InParent child)) (set_os rest w)).
Proof.
  intros Hos Hpos Hne. unfold fork, bind, ask, get. rewrite Hos. simpl.
  destruct (Z.ltb_spec 0 child); [|lia].
  destruct (Z.eqb_spec child (self_pid w)); [done|]. done.
Qed.

(** [main] stores the shell's own pid in [shell_id]. *)
Lemma main_setup_shell_id w w' :
  main_setup w = (Returned 0, w') -> shell_id w' = self_pid w'.
Proof.
  unfold main_setup, signal, bind, ask, getpid, get, modify, emit, perror, ret.
  destruct (os w) as [|[] [|[] [|[] ?]]]; simpl; try congruence;
    repeat (match goal with
            | |- context [if ?b then _ else _] => destruct b; simpl
            end); try congruence;
    intros [= <-]; done.
Qed.

(** C6, as the code has it.  The handler for SIGINT hands the pid of the
    process it runs in to [process_terminate_fg].  In the shell itself this
    pid is the stored shell identity: the routine refuses to act and nothing
    is killed.  In a process that [fork] made from the shell and that still
    runs the shell's image, the pid differs from the stored identity and the
    process kills itself. *)
Theorem interrupt_handler_by_process (w : world) :
  signal_handler SIGINT w = process_terminate_fg (self_pid w) w /\
  (self_pid w = shell_id w -> signal_handler SIGINT w = (Returned tt, w)) /\
  (self_pid w <> shell_id w ->
   signal_handler SIGINT w
   = (Stopped Killed, add_event (EvKill (self_pid w) SIGKILL) w)).
Proof.
  split; [done|].
  unfold signal_handler, getpid, process_terminate_fg, kill, bind, get, emit,
    modify. simpl.
  split; intros H.
  - rewrite H, Z.eqb_refl. done.
  - destruct (Z.eqb_spec (shell_id w) (self_pid w)); [congruence|].
    rewrite Z.eqb_refl, orb_true_r. done.
Qed.

(** C6, the claim as it is worded, at a concrete process: in the child of
    the shell the handler is given the pid 101, not the shell identity 100,
    the terminate routine acts on it, and the process is killed. *)
Lemma interrupt_in_forked_child_kills_it :
  fst ((main_setup ;; fork)
         (boot 100 [ASignal true; ASignal true; ASignal true;
                    AFork (InChild 101)])) = Returned 0 /\
  self_pid child_of_shell = 101 /\
  shell_id child_of_shell = 100 /\
  signal_handler SIGINT child_of_shell
  = (Stopped Killed, add_event (EvKill 101 SIGKILL) child_of_shell).
Proof. repeat split; vm_compute; reflexivity. Qed.

(** ** The launcher *)

(** The stand-in for "wait" and "sleep" in the child of [execute]. *)
Lemma execute_stand_in
    (w : world) (cmd : string) (params : list string) (s : string)
    (bg me : Z) (rest : list answer) :
  os w = AFork (InChild me) :: rest ->
  0 < me -> me <> self_pid w ->
  cmd = "wait" \/ cmd = "sleep" ->
  params !! 1%nat = Some s ->
  execute (Some cmd) params bg w
  = (Returned 0,
     add_event (EvSleep (uint_wrap (strtol10 s)))
       (set_self_pid me (add_event (EvFork (InChild me)) (set_os rest w)))).
Proof.
  intros Hos Hpos Hne Hcmd Hs.
  unfold execute.
  rewrite (bind_returned _ _ _ _ _ (fork_in_child _ _ _ Hos Hpos Hne)).
  simpl.
  assert (Hlen : (1 <= length params)%nat).
  { apply lookup_lt_Some in Hs. lia. }
  destruct Hcmd as [-> | ->]; simpl;
    unfold arg_at, bind; destruct (decide (1 <= length params)%nat); try lia;
    simpl; rewrite Hs; done.
Qed.

(** C5 (the code against what a launcher must do).  In the child that
    [fork] created, the stand-in for "wait" and "sleep" sleeps and then
    executes [return 0]: the call of [execute] comes back to its caller, in
    the child.  The caller is the read loop: the turn of [main] that
    launched the command ends in the child as it does in the shell, and the
    child goes on to the next turn with its own pid in [getpid]. *)
Theorem sleep_child_returns_to_caller
    (w : world) (cmd s : string) (more : list string) (bg : bool)
    (me : Z) (rest : list answer) :
  os w = ALine (Some (CommandLine (cmd :: s :: more) bg false false))
         :: AFork (InChild me) :: rest ->
  0 < me -> me <> self_pid w ->
  cmd = "wait" \/ cmd = "sleep" ->
  let child :=
    add_event (EvSleep (uint_wrap (strtol10 s)))
      (set_self_pid me
         (add_event (EvFork (InChild me))
            (set_os rest (add_event (EvFputs SHELL_PROMPT) w)))) in
  execute (Some cmd) (cmd :: s :: more) (if bg then 1 else 0)
          (set_os (AFork (InChild me) :: rest)
             (add_event (EvFputs SHELL_PROMPT) w))
  = (Returned 0, child) /\
  main_turn w = (Returned tt, child) /\
  self_pid child = me.
Proof.
  intros Hos Hpos Hne Hcmd child.
  assert (Hexec :
    execute (Some cmd) (cmd :: s :: more) (if bg then 1 else 0)
            (set_os (AFork (InChild me) :: rest)
               (add_event (EvFputs SHELL_PROMPT) w))
    = (Returned 0, child)).
  { rewrite (execute_stand_in _ cmd _ s _ me rest); done. }
  split; [done|]. split; [|done].
  unfold main_turn, getcmd.
  erewrite bind_returned; cycle 1.
  { unfold bind, fputs, emit, modify, ask. simpl. rewrite Hos. reflexivity. }
  cbv zeta. cbn [cl_args cl_bg cl_rd cl_pipe].
  destruct (decide (cmd :: s :: more = [])) as [E|_]; [done|].
  erewrite bind_returned; [|reflexivity].
  erewrite bind_returned; cycle 1.
  { unfold execute_built_ins. destruct Hcmd as [-> | ->]; reflexivity. }
  simpl.
  rewrite (bind_returned _ _ _ _ _ (bind_returned _ _ _ _ _ Hexec)).
  done.
Qed.

(** The same at a concrete input: the child of "sleep 2" comes back from
    [execute], writes the prompt and asks for the next line. *)
Example sleep_child_prompts_again :
  let w := boot 100 [ALine (Some (CommandLine ["sleep"; "2"] false false false));
                     AFork (InChild 101);
                     ALine None] in
  main_loop 2 w
  = (Stopped (Exit (-1)),
     World ∅ None 0 101 0 []
       [EvFputs SHELL_PROMPT; EvFork (InChild 101); EvSleep 2;
        EvFputs SHELL_PROMPT; EvExit (-1)] []).
Proof. vm_compute. reflexivity. Qed.

(** ** The built-in dispatcher *)

Lemma first_with_index_elem id l j :
  first_with_index id l = Some j -> exists k : nat, l !! k = Some j.
Proof.
  induction l as [|j0 l IH]; simpl; [done|].
  destruct (job_index j0 =? id).
  - intros [= <-]. now exists 0%nat.
  - intros H. destruct (IH H) as (k & Hk). now exists (S k).
Qed.

Lemma first_with_index_suffix id l j :
  first_with_index id l = Some j -> j ∈ l.
Proof.
  intros H. destruct (first_with_index_elem _ _ _ H) as (k & Hk).
  eapply list_elem_of_lookup_2; eauto.
Qed.

Lemma field_mapped {A : Type} (f : process -> A) a c w :
  heap w !! a = Some c -> exists r w', field f (Some a) w = (Returned r, w').
Proof.
  intros H. destruct c as [r|r].
  - rewrite (field_live f a r w H). eauto.
  - rewrite (field_freed f a r w H). eauto.
Qed.

(** On a well-formed table [fg_walk] comes back, whatever the pids are. *)
Lemma fg_walk_returns id l_all l :
  forall fuel node w,
    chain (heap w) (process_list w) l_all ->
    l_all <> [] ->
    chain (heap w) node l ->
    (forall a, a ∈ addrs l -> a ∈ addrs l_all) ->
    (length l < fuel)%nat ->
    exists r w', fg_walk fuel node id w = (Returned r, w').
Proof.
  induction l as [|j l IH]; intros fuel node w Call Hne C Hsub Hfuel.
  - simpl in C. subst node. destruct fuel; [simpl in Hfuel; lia|].
    simpl. unfold ret. eauto.
  - destruct C as [-> (nx & Hj & C)].
    destruct fuel as [|fuel]; [simpl in Hfuel; lia|].
    simpl fg_walk.
    rewrite (bind_returned _ _ _ _ _ (field_live list_id _ _ _ Hj)).
    cbn [list_id record_of].
    destruct (job_index j =? id).
    + rewrite (bind_returned _ _ _ _ _ (field_live process_id _ _ _ Hj)).
      cbn [process_id record_of].
      destruct (process_remove_from_list_spec (job_pid j) w l_all Call Hne)
        as (h' & pl' & Hrun & Hchain & Hframe & Hfreed).
      rewrite (bind_returned _ _ _ _ _ Hrun).
      assert (Hin : job_addr j ∈ addrs l_all) by (apply Hsub; simpl; left).
      destruct (addrs_remove_first (job_pid j) l_all _ Hin)
        as [Hkept | (j' & Hj' & Ea)].
      * destruct (chain_live _ _ _ _ Hchain Hkept) as (r & Hr).
        eapply field_mapped. simpl. exact Hr.
      * destruct (Hfreed j' Hj') as (nx' & Hr & _). rewrite <- Ea in Hr.
        eapply field_mapped. simpl. exact Hr.
    + rewrite (bind_returned _ _ _ _ _ (head_field_live next _ _ _ Hj)).
      cbn [next record_of].
      apply IH; try done.
      * intros a Ha. apply Hsub. simpl. now right.
      * simpl in Hfuel. lia.
Qed.

(** On a well-formed table [execute_fg] comes back. *)
Lemma execute_fg_returns id w l :
  jobs w = Some l ->
  exists r w', execute_fg id w = (Returned r, w').
Proof.
  intros Hjobs. apply jobs_chain in Hjobs. unfold execute_fg.
  assert (Hfg : exists r w', process_bring_to_fg id w = (Returned r, w')).
  { destruct l as [|j0 l0] eqn:El.
    - simpl in Hjobs. rewrite (process_bring_to_fg_empty id w Hjobs). eauto.
    - rewrite <- El in *.
      assert (Hne : l <> []) by now rewrite El.
      rewrite (process_bring_to_fg_walk id w l Hjobs Hne).
      apply (fg_walk_returns id l l); try done.
      eapply walk_fuel_enough; eauto. }
  destruct Hfg as (r & w' & Hrun).
  rewrite (bind_returned _ _ _ _ _ Hrun).
  destruct (r =? -1); [unfold ret; eauto|].
  unfold waitpid, emit, modify, bind, ret. eauto.
Qed.

(** C10. "fg" in the dispatcher, and "wait" and "sleep" in the child of the
    launcher, hand [params[1]] to [strtol] without a test.  When the vector
    holds the command alone, [params[1]] is the terminating null pointer and
    the conversion dereferences it; with a second word present the call
    comes back.  So each of the two crashes exactly when [params[1]] is
    null. *)
Theorem second_argument_required
    (w : world) (params : list string) (l : list job) :
  jobs w = Some l ->
  (1 <= length params)%nat ->
  (fst (execute_built_ins (Some "fg") params w) = Stopped Crashed
   <-> params !! 1%nat = None) /\
  (forall (cmd : string) (bg me : Z) (rest : list answer),
      cmd = "wait" \/ cmd = "sleep" ->
      os w = AFork (InChild me) :: rest ->
      0 < me -> me <> self_pid w ->
      (fst (execute (Some cmd) params bg w) = Stopped Crashed
       <-> params !! 1%nat = None)).
Proof.
  intros Hjobs Hlen. split.
  - unfold execute_built_ins. simpl.
    unfold arg_at, bind. destruct (decide (1 <= length params)%nat); [|lia].
    simpl. destruct (params !! 1%nat) as [s|] eqn:Hs; simpl.
    + destruct (execute_fg_returns (int_wrap (strtol10 s)) w l Hjobs)
        as (r & w' & Hrun).
      rewrite Hrun. simpl. split; done.
    + split; done.
  - intros cmd bg me rest Hcmd Hos Hpos Hne.
    destruct (params !! 1%nat) as [s|] eqn:Hs.
    + rewrite (execute_stand_in w cmd params s bg me rest); try done.
    + unfold execute.
      rewrite (bind_returned _ _ _ _ _ (fork_in_child _ _ _ Hos Hpos Hne)).
      simpl.
      destruct Hcmd as [-> | ->]; simpl;
        unfold arg_at, bind; destruct (decide (1 <= length params)%nat);
        try lia; simpl; rewrite Hs; done.
Qed.

(** ** The pipeline launcher *)

Lemma split_args_found a0 more c1 c2 w :
  split_at_pipe more = Some (c1, c2) ->
  split_args (a0 :: more) w = (Returned (a0 :: c1, c2), w).
Proof. intros H. unfold split_args, bind, args_from_1, ret. now rewrite H. Qed.

(** C4, as the code has it.  In a background pipeline whose second
    command has at least one word, the intermediate process P1 (its own pid
    is [p1]) closes the write end, makes the read end its standard input and
    waits for its child P2 (pid [p2], the process that runs the first
    command).  Nobody reads the pipe during this wait, so it comes back only
    if the first command ends without filling the pipe; otherwise P1 stays in
    the wait and registers nothing.  When the wait comes back, P1 calls
    [process_add] with the name of the SECOND command and the pid [p2] of
    that child.  The record goes into P1's own copy of the table, and P1
    then replaces its image with the second command. *)
Theorem pipeline_child_registration
    (w : world) (a0 : string) (more c1 c2 : list string) (bg : Z)
    (r wr p1 p2 : Z) (a : addr) (after rest : list answer) (l : list job) :
  split_at_pipe more = Some (c1, c2) ->
  c2 <> [] ->
  bg <> 0 ->
  os w = APipe (Some (r, wr)) :: AFork (InChild p1) :: AFork (InParent p2)
         :: after ->
  0 < p1 -> p1 <> self_pid w -> 0 < p2 -> p2 <> p1 ->
  jobs w = Some l ->
  let before := [EvPipe (Some (r, wr)); EvFork (InChild p1);
                 EvFork (InParent p2); EvClose wr;
                 EvDup2 r STDIN_FILENO; EvWaitpid p2 0] in
  (head after = Some ANoReturn ->
   exists w',
     execute_pipe (a0 :: more) bg w = (Stopped Blocked, w') /\
     self_pid w' = p1 /\
     jobs w' = Some l /\
     trace w' = trace w ++ before) /\
  (after = AMalloc (Some a) :: AExec None :: rest ->
   in_use w a = false ->
   exists w',
     execute_pipe (a0 :: more) bg w = (Stopped Replaced, w') /\
     self_pid w' = p1 /\
     jobs w' = Some (Job a (head c2) p2 (-1) :: l) /\
     trace w' = trace w ++ before ++ [EvExecvp (head c2) c2 None]).
Proof.
  intros Hsplit Hc2 Hbg Hos Hp1 Hne Hp2 Hne2 Hjobs before. subst before.
  apply jobs_chain in Hjobs.
  assert (Hstart : forall k : unit -> M Z,
    execute_pipe (a0 :: more) bg w
    = (waitpid_pipeline p2 0 ;;
       added <- (if bg =? 0 then ret 0
                 else process_add (head c2) p2 bg) ;;
       if negb (added =? 0) then kill p2 SIGKILL ;; ret (-1)
       else
         x <- execvp (head c2) c2 ;;
         (if x =? -1 then report_exec_failure else ret tt) ;; ret 0)
        (add_event (EvDup2 r STDIN_FILENO)
           (add_event (EvClose wr)
              (add_event (EvFork (InParent p2))
                 (set_os after
                    (set_self_pid p1
                       (add_event (EvFork (InChild p1))
                          (set_os (AFork (InParent p2) :: after)
                             (add_event (EvPipe (Some (r, wr)))
                                (set_os (AFork (InChild p1)
                                         :: AFork (InParent p2) :: after)
                                   w)))))))))).
  { intros _. unfold execute_pipe.
    erewrite bind_returned; cycle 1.
    { unfold pipe, bind, ask, emit, modify. rewrite Hos. reflexivity. }
    cbv iota.
    rewrite (bind_returned _ _ _ _ _ (split_args_found a0 more c1 c2 _ Hsplit)).
    erewrite bind_returned; cycle 1.
    { apply fork_in_child; [reflexivity|done|done]. }
    rewrite Z.eqb_refl.
    erewrite bind_returned; cycle 1.
    { apply fork_in_parent; [reflexivity|done|done]. }
    destruct (Z.eqb_spec p2 0) as [E|_]; [lia|].
    destruct (Z.ltb_spec 0 p2) as [_|E]; [|lia].
    erewrite bind_returned; [|reflexivity].
    erewrite bind_returned; [|reflexivity].
    reflexivity. }
  rewrite (Hstart (fun _ => ret 0)). clear Hstart.
  set (w0 := add_event (EvDup2 r STDIN_FILENO) _).
  split.
  - intros Hhead. destruct after as [|[] after']; try discriminate Hhead.
    eexists. split.
    { apply bind_stopped. unfold waitpid_pipeline, bind, emit, modify, get, halt.
      simpl. reflexivity. }
    split; [done|]. split; [now apply jobs_chain|].
    simpl. rewrite <- !app_assoc. done.
  - intros -> Hfree.
    erewrite bind_returned; cycle 1.
    { unfold waitpid_pipeline, bind, emit, modify, get, ret. simpl. reflexivity. }
    destruct (Z.eqb_spec bg 0) as [E|_]; [done|].
    set (w1 := add_event (EvWaitpid p2 0) _).
    destruct (process_add_spec (head c2) p2 bg a (AExec None :: rest) w1 l)
      as [Hadd Hchain]; [done|done|apply in_use_false; done|].
    rewrite (bind_returned _ _ _ _ _ Hadd).
    simpl negb. cbv iota.
    set (w2 := set_process_list _ _) in *.
    destruct c2 as [|b0 c2']; [done|].
    eexists. split.
    { apply bind_stopped. unfold execvp, bind, ask, emit, modify, halt. simpl.
      reflexivity. }
    split; [done|]. split; [now apply jobs_chain|].
    simpl. rewrite <- !app_assoc. done.
Qed.

(** C4, the claim as it is worded, at a concrete launch: "ls | wc &" in the
    shell with pid 100.  P1 has the pid 101, its child P2 the pid 102.  The
    record P1 adds carries the name "wc" and the pid 102, not the first
    command's name "ls" with P1's own pid 101. *)
Lemma pipeline_child_registers_other_name_and_pid :
  let run := execute_pipe ["ls"; "|"; "wc"] 1
               (shell [APipe (Some (3, 4)); AFork (InChild 101);
                       AFork (InParent 102); AMalloc (Some 1%positive);
                       AExec None]) in
  fst run = Stopped Replaced /\
  self_pid (snd run) = 101 /\
  jobs (snd run) = Some [Job 1%positive (Some "wc") 102 (-1)] /\
  jobs (snd run) <> Some [Job 1%positive (Some "ls") 101 (-1)].
Proof. repeat split; try (vm_compute; reflexivity). vm_compute. discriminate. Qed.

(** C8. In every run of [execute_pipe], take the process that has a child
    of its own (the intermediate process P1: the shell's child that forked
    P2 for the first command).  Whenever that process reaches [execvp], it
    is the [execvp] of the second command, and the blocking
    [waitpid(p2, NULL, 0)] for the first command's process comes earlier in
    its trace: P1 does not turn into the second command before the first
    command's process has ended. *)
Theorem pipeline_waits_for_first_command
    (args : list string) (bg : Z) (w : world) :
  let run := execute_pipe args bg w in
  let new := drop (length (trace w)) (trace (snd run)) in
  forall (i : nat) (file : cstr) (argv : list string) (err : option Z) (p2 : Z),
    EvFork (InParent p2) ∈ new ->
    new !! i = Some (EvExecvp file argv err) ->
    exists j : nat,
      (j < i)%nat /\
      new !! j = Some (EvWaitpid p2 0) /\
      exists c1 c2,
        split_at_pipe (tail args) = Some (c1, c2) /\
        file = head c2 /\ argv = c2.
Proof.
  intros run new. subst run new.
  unfold execute_pipe, pipe, split_args, args_from_1, fork, execvp, waitpid,
    waitpid_pipeline,
    close, dup2, kill, exit, perror, report_exec_failure, process_add, malloc,
    init, assign_next, load, store, print_error, printf, emit, modify, get,
    ask, halt, ret, bind.
  crunch.
  all: tidy_trace.
  all: intros xi xfile xargv xerr xp2 Hin Hi.
  all: member_cases Hin.
  all: lookup_cases Hi xi.
  all: first [waited_at 5%nat | waited_at 4%nat | waited_at 6%nat ].
Qed.

(** ** The theorems at concrete inputs *)

Lemma bring_to_fg_after_print_list_witness :
  exists w1 w2,
    process_print_list (three_jobs []) = (Returned tt, w1) /\
    process_bring_to_fg 1 w1 = (Returned 202, w2) /\
    jobs w2 = Some [Job 3%positive (Some "wc") 203 0;
                    Job 1%positive (Some "sleep") 201 2].
Proof.
  destruct (bring_to_fg_after_print_list (three_jobs []) three_jobs_list)
    as (w1 & H1 & _ & H3).
  - vm_compute. reflexivity.
  - compute_done.
  - compute_done.
  - destruct (H3 1) as [Ha _].
    destruct (Ha 1%nat (Job 2%positive (Some "ls") 202 1))
      as (_ & w2 & Hb & _ & Hc & _); [reflexivity|reflexivity|].
    exists w1, w2. split; [exact H1|]. split; [exact Hb|exact Hc].
Defined.

(** C1, the claim as it is worded, on a table in which two records carry
    the same pid: after the enumeration the record at address 2 has the
    number 0 and the record at address 1 the number 1; asked for number 1,
    [process_bring_to_fg] removes the record with number 0, because it
    removes by pid, and the record that carried number 1 stays. *)
Lemma bring_to_fg_removes_other_record_with_same_pid :
  let w1 := snd (process_print_list twin_jobs) in
  jobs w1 = Some [Job 2%positive (Some "wc") 201 0;
                  Job 1%positive (Some "ls") 201 1] /\
  fst (process_bring_to_fg 1 w1) = Returned 201 /\
  jobs (snd (process_bring_to_fg 1 w1))
  = Some [Job 1%positive (Some "ls") 201 1].
Proof. repeat split; vm_compute; reflexivity. Qed.

Lemma tracked_pids_distinct_and_listed_witness :
  let ops := [Insert (Some "sleep") 201 (Some 1%positive);
              Insert (Some "ls") 202 (Some 2%positive);
              RemoveByPid 201;
              Insert (Some "wc") 203 (Some 1%positive)] in
  exists w' l,
    run_ops ops (shell (alloc_script ops)) = (Returned tt, w') /\
    jobs w' = Some l /\
    pids l = [203; 202].
Proof.
  intros ops.
  destruct (tracked_pids_distinct_and_listed ops (shell (alloc_script ops))
              {[ 202 := 2%positive; 203 := 1%positive ]} [])
    as (w' & l & H1 & H2 & _).
  - reflexivity.
  - reflexivity.
  - vm_compute. reflexivity.
  - vm_compute. reflexivity.
  - exists w', l. split; [exact H1|]. split; [exact H2|].
    assert (E : w' = snd (run_ops ops (shell (alloc_script ops))))
      by now rewrite H1.
    rewrite E in H2. vm_compute in H2. injection H2 as <-. reflexivity.
Defined.

Lemma remove_from_list_reports_success_without_match_witness :
  process_remove_from_list 7 (three_jobs []) = (Returned 0, three_jobs []).
Proof.
  apply (remove_from_list_reports_success_without_match
           (three_jobs []) three_jobs_list 7).
  - vm_compute. reflexivity.
  - discriminate.
  - compute_done.
Defined.

Lemma pipeline_child_registration_witness :
  (exists w',
     execute_pipe ["ls"; "|"; "wc"] 1
       (shell [APipe (Some (3, 4)); AFork (InChild 101); AFork (InParent 102);
               AMalloc (Some 1%positive); AExec None])
     = (Stopped Replaced, w') /\
     self_pid w' = 101 /\
     jobs w' = Some [Job 1%positive (Some "wc") 102 (-1)]) /\
  (exists w',
     execute_pipe ["seq"; "1"; "100000"; "|"; "wc"] 1
       (shell [APipe (Some (3, 4)); AFork (InChild 101); AFork (InParent 102);
               ANoReturn])
     = (Stopped Blocked, w') /\
     jobs w' = Some []).
Proof.
  split.
  - destruct (pipeline_child_registration
                (shell [APipe (Some (3, 4)); AFork (InChild 101);
                        AFork (InParent 102); AMalloc (Some 1%positive);
                        AExec None])
                "ls" ["|"; "wc"] [] ["wc"] 1 3 4 101 102 1%positive
                [AMalloc (Some 1%positive); AExec None] [] [])
      as [_ H].
    + reflexivity.
    + discriminate.
    + lia.
    + reflexivity.
    + lia.
    + simpl. lia.
    + lia.
    + lia.
    + vm_compute. reflexivity.
    + destruct H as (w' & H1 & H2 & H3 & _); [reflexivity|reflexivity|].
      exists w'. split; [exact H1|]. split; [exact H2|exact H3].
  - destruct (pipeline_child_registration
                (shell [APipe (Some (3, 4)); AFork (InChild 101);
                        AFork (InParent 102); ANoReturn])
                "seq" ["1"; "100000"; "|"; "wc"] ["1"; "100000"] ["wc"]
                1 3 4 101 102 1%positive [ANoReturn] [] [])
      as [H _].
    + reflexivity.
    + discriminate.
    + lia.
    + reflexivity.
    + lia.
    + simpl. lia.
    + lia.
    + lia.
    + vm_compute. reflexivity.
    + destruct H as (w' & H1 & _ & H3 & _); [reflexivity|].
      exists w'. split; [exact H1|exact H3].
Defined.

Lemma sleep_child_returns_to_caller_witness :
  main_turn (shell [ALine (Some (CommandLine ["sleep"; "2"] false false false));
                    AFork (InChild 101)])
  = (Returned tt,
     World ∅ None 100 101 0 []
       [EvFputs SHELL_PROMPT; EvFork (InChild 101); EvSleep 2] []).
Proof.
  destruct (sleep_child_returns_to_caller
              (shell [ALine (Some (CommandLine ["sleep"; "2"] false false false));
                      AFork (InChild 101)])
              "sleep" "2" [] false 101 [])
    as (_ & H & _).
  - reflexivity.
  - lia.
  - simpl. lia.
  - now right.
  - exact H.
Defined.

Lemma interrupt_handler_by_process_witness :
  signal_handler SIGINT (shell []) = (Returned tt, shell []) /\
  signal_handler SIGINT child_of_shell
  = (Stopped Killed, add_event (EvKill 101 SIGKILL) child_of_shell).
Proof.
  split.
  - apply (interrupt_handler_by_process (shell [])). reflexivity.
  - apply (interrupt_handler_by_process child_of_shell).
    vm_compute. discriminate.
Defined.

Lemma execute_exit_reads_released_record_witness :
  exists w',
    execute_exit (three_jobs []) = (Stopped Undefined, w') /\
    trace w' = [] /\
    released w' 3%positive = true /\
    in_use w' 2%positive = true /\ in_use w' 1%positive = true.
Proof.
  destruct (execute_exit_reads_released_record
              (three_jobs [])
              (Job 3%positive (Some "wc") 203 (-1))
              [Job 2%positive (Some "ls") 202 (-1);
               Job 1%positive (Some "sleep") 201 (-1)])
    as (w' & H1 & H2 & _ & H3 & _ & H4 & _).
  - vm_compute. reflexivity.
  - exists w'. split; [exact H1|]. split; [exact H2|]. split; [exact H3|].
    split; apply H4; compute_done.
Defined.

Lemma pipeline_waits_for_first_command_witness :
  let w := shell [APipe (Some (3, 4)); AFork (InChild 101);
                  AFork (InParent 102); AExec None] in
  drop (length (trace w)) (trace (snd (execute_pipe ["ls"; "|"; "wc"] 0 w)))
  = [EvPipe (Some (3, 4)); EvFork (InChild 101); EvFork (InParent 102);
     EvClose 4; EvDup2 3 STDIN_FILENO; EvWaitpid 102 0;
     EvExecvp (Some "wc") ["wc"] None] /\
  exists j : nat,
    (j < 6)%nat /\
    drop (length (trace w)) (trace (snd (execute_pipe ["ls"; "|"; "wc"] 0 w)))
      !! j = Some (EvWaitpid 102 0).
Proof.
  intros w. split; [vm_compute; reflexivity|].
  destruct (pipeline_waits_for_first_command ["ls"; "|"; "wc"] 0 w
              6%nat (Some "wc") ["wc"] None 102)
    as (j & Hlt & Hj & _).
  - vm_compute. apply list_elem_of_In. simpl. tauto.
  - vm_compute. reflexivity.
  - exists j. split; [exact Hlt|exact Hj].
Defined.

Lemma new_record_reachable_by_minus_one_witness :
  exists w1 w2,
    process_add (Some "vi") 204 1 (three_jobs [AMalloc (Some 4%positive)])
    = (Returned 0, w1) /\
    process_bring_to_fg (-1) w1 = (Returned 204, w2) /\
    jobs w2 = Some three_jobs_list.
Proof.
  destruct (new_record_reachable_by_minus_one
              (three_jobs [AMalloc (Some 4%positive)]) three_jobs_list
              (Some "vi") 204 1 4%positive [])
    as (w1 & H1 & _ & (w2 & H2 & H3 & _) & _ & _).
  - vm_compute. reflexivity.
  - reflexivity.
  - vm_compute. reflexivity.
  - exists w1, w2. split; [exact H1|]. split; [exact H2|exact H3].
Defined.

Lemma second_argument_required_witness :
  fst (execute_built_ins (Some "fg") ["fg"] (three_jobs [])) = Stopped Crashed /\
  fst (execute (Some "sleep") ["sleep"] 0 (three_jobs [AFork (InChild 101)]))
  = Stopped Crashed.
Proof.
  split.
  - apply (second_argument_required (three_jobs []) ["fg"] three_jobs_list).
    + vm_compute. reflexivity.
    + simpl. lia.
    + reflexivity.
  - destruct (second_argument_required
                (three_jobs [AFork (InChild 101)]) ["sleep"] three_jobs_list)
      as [_ H].
    + vm_compute. reflexivity.
    + simpl. lia.
    + apply (H "sleep" 0 101 []).
      * now right.
      * reflexivity.
      * lia.
      * simpl. lia.
      * reflexivity.
Defined.

(** * Further properties of the code *)

(** ** The launcher, in the shell *)

(** X1. [execute] in the shell, foreground.  When [fork] hands the parent the
    pid of its child and the background flag is 0, [execute] waits for
    exactly this child with [waitpid(child, NULL, 0)] and returns 0; the job
    table is as it was. *)
Theorem execute_foreground_waits_for_child
    (w : world) (command : cstr) (params : list string) (child : Z)
    (rest : list answer) :
  os w = AFork (InParent child) :: rest ->
  0 < child -> child <> self_pid w ->
  exists w',
    execute command params 0 w = (Returned 0, w') /\
    trace w' = trace w ++ [EvFork (InParent child); EvWaitpid child 0] /\
    heap w' = heap w /\ process_list w' = process_list w /\ os w' = rest.
Proof.
  intros Hos Hpos Hne. unfold execute.
  rewrite (bind_returned _ _ _ _ _ (fork_in_parent _ _ _ Hos Hpos Hne)).
  destruct (Z.eqb_spec child 0) as [E|_]; [lia|].
  destruct (Z.ltb_spec 0 child) as [_|E]; [|lia].
  simpl. eexists. split; [reflexivity|]. simpl.
  rewrite <- app_assoc. done.
Qed.

(** X2. [execute] in the shell, background.  With a background flag other
    than 0 [execute] does not wait: it puts one record in front of the job
    table, with the command's name, the child's pid and the list id -1, and
    returns 0. *)
Theorem execute_background_registers_child
    (w : world) (command : cstr) (params : list string) (bg child : Z)
    (a : addr) (rest : list answer) (l : list job) :
  bg <> 0 ->
  os w = AFork (InParent child) :: AMalloc (Some a) :: rest ->
  0 < child -> child <> self_pid w ->
  jobs w = Some l ->
  in_use w a = false ->
  exists w',
    execute command params bg w = (Returned 0, w') /\
    jobs w' = Some (Job a command child (-1) :: l) /\
    trace w' = trace w ++ [EvFork (InParent child)] /\
    os w' = rest.
Proof.
  intros Hbg Hos Hpos Hne Hjobs Hfree. apply jobs_chain in Hjobs.
  unfold execute.
  rewrite (bind_returned _ _ _ _ _ (fork_in_parent _ _ _ Hos Hpos Hne)).
  destruct (Z.eqb_spec child 0) as [E|_]; [lia|].
  destruct (Z.ltb_spec 0 child) as [_|E]; [|lia].
  destruct (Z.eqb_spec bg 0) as [E|_]; [done|].
  set (w1 := add_event _ _).
  destruct (process_add_spec command child bg a rest w1 l)
    as [Hadd Hchain]; [done|done|apply in_use_false; done|].
  rewrite (bind_returned _ _ _ _ _ Hadd). simpl.
  eexists. split; [reflexivity|]. split; [now apply jobs_chain|done].
Qed.

(** X3. [execute], background, when [malloc] fails: [process_add] prints
    "Error: Could not allocate sufficient memory for process", [execute]
    sends SIGKILL to the child it has just created and returns -1; the job
    table is as it was. *)
Theorem execute_background_out_of_memory_kills_child
    (w : world) (command : cstr) (params : list string) (bg child : Z)
    (rest : list answer) :
  bg <> 0 ->
  os w = AFork (InParent child) :: AMalloc None :: rest ->
  0 < child -> child <> self_pid w ->
  exists w',
    execute command params bg w = (Returned (-1), w') /\
    trace w' = trace w ++ [EvFork (InParent child);
                          EvPrintf "%s: %s" [ArgStr (Some "Error");
                                             ArgStr (Some ERROR_OUT_OF_MEM)];
                          EvKill child SIGKILL] /\
    heap w' = heap w /\ process_list w' = process_list w.
Proof.
  intros Hbg Hos Hpos Hne. unfold execute.
  rewrite (bind_returned _ _ _ _ _ (fork_in_parent _ _ _ Hos Hpos Hne)).
  destruct (Z.eqb_spec child 0) as [E|_]; [lia|].
  destruct (Z.ltb_spec 0 child) as [_|E]; [|lia].
  destruct (Z.eqb_spec bg 0) as [E|_]; [done|].
  erewrite bind_returned; [|apply process_add_fails; reflexivity].
  simpl. unfold kill, bind, emit, modify, get. simpl.
  destruct (Z.eqb_spec child 0) as [E|_]; [lia|].
  destruct (Z.eqb_spec child (self_pid w)) as [E|_]; [done|].
  simpl. eexists. split; [reflexivity|]. simpl. rewrite <- !app_assoc. done.
Qed.

(** X4. A failed [fork] ends the process with [exit(1)], after
    [perror("process creation failed: ")]: in [execute], in [execute_pipe]
    at its first [fork] (in both cases this is the shell itself), and in the
    first child of [execute_pipe] at the second [fork]. *)
Theorem fork_failure_ends_the_process
    (w : world) (rest : list answer) :
  let failed := [EvFork ForkFailed; EvPerror (Some ERROR_FORK); EvExit 1] in
  (forall command params bg,
     os w = AFork ForkFailed :: rest ->
     exists w',
       execute command params bg w = (Stopped (Exit 1), w') /\
       trace w' = trace w ++ failed) /\
  (forall a0 more c1 c2 bg fds,
     split_at_pipe more = Some (c1, c2) ->
     os w = APipe (Some fds) :: AFork ForkFailed :: rest ->
     exists w',
       execute_pipe (a0 :: more) bg w = (Stopped (Exit 1), w') /\
       trace w' = trace w ++ EvPipe (Some fds) :: failed) /\
  (forall a0 more c1 c2 bg fds p1,
     split_at_pipe more = Some (c1, c2) ->
     os w = APipe (Some fds) :: AFork (InChild p1) :: AFork ForkFailed
            :: rest ->
     0 < p1 -> p1 <> self_pid w ->
     exists w',
       execute_pipe (a0 :: more) bg w = (Stopped (Exit 1), w') /\
       trace w' = trace w
                  ++ EvPipe (Some fds) :: EvFork (InChild p1) :: failed).
Proof.
  intros failed. subst failed. split; [|split].
  - intros command params bg Hos.
    unfold execute, fork, bind, ask, emit, modify, perror, exit, halt.
    rewrite Hos. simpl. eexists. split; [reflexivity|].
    simpl. rewrite <- !app_assoc. done.
  - intros a0 more c1 c2 bg [r wr] Hsplit Hos. unfold execute_pipe.
    erewrite bind_returned; cycle 1.
    { unfold pipe, bind, ask, emit, modify. rewrite Hos. reflexivity. }
    cbv iota.
    rewrite (bind_returned _ _ _ _ _ (split_args_found a0 more c1 c2 _ Hsplit)).
    unfold fork, bind, ask, emit, modify, perror, exit, halt. simpl.
    eexists. split; [reflexivity|]. simpl. rewrite <- !app_assoc. done.
  - intros a0 more c1 c2 bg [r wr] p1 Hsplit Hos Hp1 Hne. unfold execute_pipe.
    erewrite bind_returned; cycle 1.
    { unfold pipe, bind, ask, emit, modify. rewrite Hos. reflexivity. }
    cbv iota.
    rewrite (bind_returned _ _ _ _ _ (split_args_found a0 more c1 c2 _ Hsplit)).
    erewrite bind_returned; cycle 1.
    { apply fork_in_child; [reflexivity|done|done]. }
    rewrite Z.eqb_refl.
    unfold fork, bind, ask, emit, modify, perror, exit, halt. simpl.
    eexists. split; [reflexivity|]. simpl. rewrite <- !app_assoc. done.
Qed.

(** X5. The child of [execute] whose [execvp] fails does not exit.  It
    calls [perror("Command not found")] when errno is 2 (ENOENT) and
    [perror(NULL)] otherwise, and returns 0 to the caller of [execute]: from
    here on a second process runs the code of the shell, with the table it
    inherited. *)
Theorem execute_child_exec_failure_returns
    (w : world) (c : string) (params : list string) (bg me e : Z)
    (rest : list answer) :
  os w = AFork (InChild me) :: AExec (Some e) :: rest ->
  0 < me -> me <> self_pid w ->
  c <> "wait" -> c <> "sleep" ->
  exists w',
    execute (Some c) params bg w = (Returned 0, w') /\
    trace w' = trace w ++ [EvFork (InChild me);
                          EvExecvp (Some c) params (Some e);
                          EvPerror (if e =? 2 then Some ERROR_INPUT_CMD
                                    else None)] /\
    self_pid w' = me /\
    heap w' = heap w /\ process_list w' = process_list w.
Proof.
  intros Hos Hpos Hne Hw Hs. unfold execute.
  rewrite (bind_returned _ _ _ _ _ (fork_in_child _ _ _ Hos Hpos Hne)).
  simpl.
  destruct (String.eqb_spec c "wait") as [E|_]; [done|].
  destruct (String.eqb_spec c "sleep") as [E|_]; [done|].
  unfold execvp, report_exec_failure, perror, ask, emit, modify, get, ret, bind.
  simpl.
  destruct (Z.eqb_spec e 2); simpl; eexists; (split; [reflexivity|]); simpl;
    rewrite <- !app_assoc; done.
Qed.

(** ** The pipeline launcher: the split and the roles *)

(** X6. The loop of [execute_pipe] that splits the words cuts at the first
    word "|" behind the command name: the words before it stay with the
    first command, the words behind it, further "|" included, are the second
    command. *)
Theorem split_at_pipe_first_separator (l c1 c2 : list string) :
  split_at_pipe l = Some (c1, c2) <-> l = c1 ++ "|" :: c2 /\ "|" ∉ c1.
Proof.
  revert c1 c2. induction l as [|a l IH]; intros c1 c2; simpl.
  - split; [done|]. intros [H _]. now destruct c1.
  - destruct (String.eqb_spec a "|") as [->|Hne].
    + split.
      * intros [= <- <-]. split; [done|]. apply not_elem_of_nil.
      * intros [H Hn]. destruct c1 as [|b c1].
        -- simpl in H. now injection H as <-.
        -- simpl in H. injection H as <- _. exfalso. apply Hn. left.
    + destruct (split_at_pipe l) as [[d1 d2]|] eqn:Hs.
      * split.
        -- intros [= <- <-]. destruct (proj1 (IH d1 d2) eq_refl) as [-> Hn].
           split; [done|]. apply not_elem_of_cons. done.
        -- intros [H Hn]. destruct c1 as [|b c1].
           ++ simpl in H. injection H as -> _. done.
           ++ simpl in H. injection H as <- H.
              apply not_elem_of_cons in Hn as [_ Hn].
              assert (E : Some (d1, d2) = Some (c1, c2)) by (apply IH; done).
              now injection E as -> ->.
      * split; [done|]. intros [H Hn]. destruct c1 as [|b c1].
        -- simpl in H. injection H as -> _. done.
        -- simpl in H. injection H as <- H.
           apply not_elem_of_cons in Hn as [_ Hn].
           assert (E : None = Some (c1, c2)) by (apply IH; done). done.
Qed.

Lemma split_at_pipe_none l : split_at_pipe l = None <-> "|" ∉ l.
Proof.
  induction l as [|a l IH]; simpl.
  - split; [intros _; apply not_elem_of_nil|done].
  - destruct (String.eqb_spec a "|") as [->|Hne].
    + split; [done|]. intros H. exfalso. apply H. left.
    + destruct (split_at_pipe l) as [[d1 d2]|] eqn:Hs.
      * split; [done|]. intros H. apply not_elem_of_cons in H as [_ H].
        now apply IH in H.
      * split; [|done]. intros _. apply not_elem_of_cons.
        split; [done|]. now apply IH.
Qed.

Lemma execute_pipe_no_separator
    (w : world) (a0 : string) (more : list string) (bg : Z)
    (fds : Z * Z) (rest : list answer) :
  os w = APipe (Some fds) :: rest ->
  "|" ∉ more ->
  execute_pipe (a0 :: more) bg w
  = (Stopped Crashed, add_event (EvPipe (Some fds)) (set_os rest w)).
Proof.
  intros Hos Hn. apply split_at_pipe_none in Hn.
  unfold execute_pipe.
  erewrite bind_returned; cycle 1.
  { unfold pipe, bind, ask, emit, modify. rewrite Hos. reflexivity. }
  destruct fds as [r wr]. cbv iota.
  erewrite bind_stopped; cycle 1.
  { unfold split_args, bind, args_from_1, ret, halt. rewrite Hn. reflexivity. }
  reflexivity.
Qed.

(** X7. [execute_pipe] on words that hold no "|" behind the first one.  The
    splitting loop has no test for the end of the vector, so it hands the
    terminating null pointer to [strcmp]: the process crashes, after the pipe
    was created and before any [fork]. *)
Theorem execute_pipe_without_separator_crashes
    (w : world) (a0 : string) (more : list string) (bg : Z)
    (fds : Z * Z) (rest : list answer) :
  os w = APipe (Some fds) :: rest ->
  "|" ∉ more ->
  exists w',
    execute_pipe (a0 :: more) bg w = (Stopped Crashed, w') /\
    trace w' = trace w ++ [EvPipe (Some fds)] /\
    os w' = rest.
Proof.
  intros Hos Hn.
  assert (Hsplit : split_at_pipe more = None).
  { clear Hos. induction more as [|a more IH]; simpl; [done|].
    apply not_elem_of_cons in Hn as [Hne Hn].
    destruct (String.eqb_spec a "|") as [E|_]; [congruence|].
    now rewrite IH. }
  unfold execute_pipe.
  erewrite bind_returned; cycle 1.
  { unfold pipe, bind, ask, emit, modify. rewrite Hos. reflexivity. }
  destruct fds as [r wr]. cbv iota.
  erewrite bind_stopped; cycle 1.
  { unfold split_args, bind, args_from_1, ret, halt. rewrite Hsplit.
    reflexivity. }
  eexists. split; [reflexivity|]. done.
Qed.

(** X8. [execute_pipe] in the shell, foreground: the shell closes both ends
    of the pipe and then waits for the child of its own [fork] with
    [waitpid(child, NULL, 0)]; the job table is as it was.  This child is
    the intermediate process, which itself waits for the first command
    before anybody reads the pipe: when the first command fills the pipe,
    neither wait comes back and the shell stays in [execute_pipe].  When
    the wait comes back, [execute_pipe] returns 0. *)
Theorem execute_pipe_shell_foreground
    (w : world) (a0 : string) (more c1 c2 : list string)
    (r wr p1 : Z) (rest : list answer) :
  split_at_pipe more = Some (c1, c2) ->
  os w = APipe (Some (r, wr)) :: AFork (InParent p1) :: rest ->
  0 < p1 -> p1 <> self_pid w ->
  exists out w',
    execute_pipe (a0 :: more) 0 w = (out, w') /\
    trace w' = trace w ++ [EvPipe (Some (r, wr)); EvFork (InParent p1);
                          EvClose r; EvClose wr; EvWaitpid p1 0] /\
    heap w' = heap w /\ process_list w' = process_list w /\ os w' = rest /\
    (head rest = Some ANoReturn -> out = Stopped Blocked) /\
    (head rest <> Some ANoReturn -> out = Returned 0).
Proof.
  intros Hsplit Hos Hp1 Hne. unfold execute_pipe.
  erewrite bind_returned; cycle 1.
  { unfold pipe, bind, ask, emit, modify. rewrite Hos. reflexivity. }
  cbv iota.
  rewrite (bind_returned _ _ _ _ _ (split_args_found a0 more c1 c2 _ Hsplit)).
  erewrite bind_returned; cycle 1.
  { apply fork_in_parent; [reflexivity|done|done]. }
  destruct (Z.eqb_spec p1 0) as [E|_]; [lia|].
  destruct (Z.ltb_spec 0 p1) as [_|E]; [|lia].
  erewrite bind_returned; [|reflexivity].
  erewrite bind_returned; [|reflexivity].
  simpl Z.eqb. cbv iota.
  unfold waitpid_pipeline, bind, emit, modify, get, halt, ret. simpl.
  destruct rest as [|[] rest']; simpl; eexists _, _;
    (split; [reflexivity|]); simpl; rewrite <- !app_assoc;
    repeat split; try done.
Qed.

(** X9. [execute_pipe] in the shell, background: the shell closes both ends
    of the pipe, does not wait, and puts one record in front of the job
    table: the name is the first word of the line, the pid is that of the
    child of its own [fork], the list id is -1. *)
Theorem execute_pipe_shell_background
    (w : world) (a0 : string) (more c1 c2 : list string) (bg : Z)
    (r wr p1 : Z) (a : addr) (rest : list answer) (l : list job) :
  split_at_pipe more = Some (c1, c2) ->
  bg <> 0 ->
  os w = APipe (Some (r, wr)) :: AFork (InParent p1) :: AMalloc (Some a)
         :: rest ->
  0 < p1 -> p1 <> self_pid w ->
  jobs w = Some l ->
  in_use w a = false ->
  exists w',
    execute_pipe (a0 :: more) bg w = (Returned 0, w') /\
    jobs w' = Some (Job a (Some a0) p1 (-1) :: l) /\
    trace w' = trace w ++ [EvPipe (Some (r, wr)); EvFork (InParent p1);
                          EvClose r; EvClose wr] /\
    os w' = rest.
Proof.
  intros Hsplit Hbg Hos Hp1 Hne Hjobs Hfree. apply jobs_chain in Hjobs.
  unfold execute_pipe.
  erewrite bind_returned; cycle 1.
  { unfold pipe, bind, ask, emit, modify. rewrite Hos. reflexivity. }
  cbv iota.
  rewrite (bind_returned _ _ _ _ _ (split_args_found a0 more c1 c2 _ Hsplit)).
  erewrite bind_returned; cycle 1.
  { apply fork_in_parent; [reflexivity|done|done]. }
  destruct (Z.eqb_spec p1 0) as [E|_]; [lia|].
  destruct (Z.ltb_spec 0 p1) as [_|E]; [|lia].
  erewrite bind_returned; [|reflexivity].
  erewrite bind_returned; [|reflexivity].
  destruct (Z.eqb_spec bg 0) as [E|_]; [done|].
  set (w1 := add_event (EvClose wr) _).
  destruct (process_add_spec (Some a0) p1 bg a rest w1 l)
    as [Hadd Hchain]; [done|done|apply in_use_false; done|].
  simpl head.
  rewrite (bind_returned _ _ _ _ _ Hadd). simpl.
  eexists. split; [reflexivity|]. split; [now apply jobs_chain|].
  simpl. rewrite <- !app_assoc. done.
Qed.

(** X10. The process that runs the first command of a pipeline is the child
    of the child: it closes the read end of the pipe, makes the write end its
    standard output with [dup2], and calls [execvp] with the words before
    the "|". *)
Theorem execute_pipe_first_command_process
    (w : world) (a0 : string) (more c1 c2 : list string) (bg : Z)
    (r wr p1 p2 : Z) (rest : list answer) :
  split_at_pipe more = Some (c1, c2) ->
  os w = APipe (Some (r, wr)) :: AFork (InChild p1) :: AFork (InChild p2)
         :: AExec None :: rest ->
  0 < p1 -> p1 <> self_pid w -> 0 < p2 -> p2 <> p1 ->
  exists w',
    execute_pipe (a0 :: more) bg w = (Stopped Replaced, w') /\
    trace w' = trace w ++ [EvPipe (Some (r, wr)); EvFork (InChild p1);
                          EvFork (InChild p2); EvClose r;
                          EvDup2 wr STDOUT_FILENO;
                          EvExecvp (Some a0) (a0 :: c1) None] /\
    self_pid w' = p2 /\
    heap w' = heap w /\ process_list w' = process_list w.
Proof.
  intros Hsplit Hos Hp1 Hne Hp2 Hne2. unfold execute_pipe.
  erewrite bind_returned; cycle 1.
  { unfold pipe, bind, ask, emit, modify. rewrite Hos. reflexivity. }
  cbv iota.
  rewrite (bind_returned _ _ _ _ _ (split_args_found a0 more c1 c2 _ Hsplit)).
  erewrite bind_returned; cycle 1.
  { apply fork_in_child; [reflexivity|done|done]. }
  rewrite Z.eqb_refl.
  erewrite bind_returned; cycle 1.
  { apply fork_in_child; [reflexivity|done|done]. }
  rewrite Z.eqb_refl.
  erewrite bind_returned; [|reflexivity].
  erewrite bind_returned; [|reflexivity].
  eexists. split.
  { apply bind_stopped. unfold execvp, bind, ask, emit, modify, halt. simpl.
    reflexivity. }
  simpl. rewrite <- !app_assoc. done.
Qed.

(** ** The built-in dispatcher: which words it takes *)

Lemma then_zero {A : Type} (m : M A) w r w' :
  (m ;; ret 0) w = (Returned r, w') -> r = 0.
Proof.
  unfold bind, ret. destruct (m w) as [[a|why] w1]; [|done]. now intros [= <- _].
Qed.

Lemma then_zero_2 {A B : Type} (m : M A) (k : A -> M B) w r w' :
  (x <- m ;; k x ;; ret 0) w = (Returned r, w') -> r = 0.
Proof.
  unfold bind, ret. destruct (m w) as [[a|why] w1]; [|done].
  destruct (k a w1) as [[b|why] w2]; [|done]. now intros [= <- _].
Qed.

Lemma bind_assoc {A B C : Type} (m : M A) (k1 : A -> M B) (k2 : B -> M C) w :
  bind (bind m k1) k2 w = bind m (fun x => bind (k1 x) k2) w.
Proof.
  unfold bind. destruct (m w) as [[a|why] w1]; [|done].
  now destruct (k1 a w1) as [[b|why] w2].
Qed.

Lemma bind_ret_l {A B : Type} (a : A) (k : A -> M B) : bind (ret a) k = k a.
Proof. reflexivity. Qed.

Lemma execute_built_ins_other c params w :
  is_built_in c = false -> execute_built_ins (Some c) params w = (Returned 1, w).
Proof.
  unfold is_built_in. intros H. apply bool_decide_eq_false in H.
  rewrite !elem_of_cons, elem_of_nil in H.
  unfold execute_built_ins, streq.
  repeat (rewrite bind_ret_l;
          match goal with
          | |- context [String.eqb c ?s] =>
              destruct (String.eqb_spec c s) as [E|_]; [tauto|]
          end).
  reflexivity.
Qed.

(** X11. [execute_built_ins] returns 0 or 1 whenever it returns, and 1
    exactly for a word other than "echo", "cd", "pwd", "exit", "fg" and
    "jobs"; in that case it has done nothing.  So whatever a built-in does,
    also when it fails, [main] never starts a program of that name. *)
Theorem execute_built_ins_dispatch
    (w w' : world) (c : string) (params : list string) (r : Z) :
  execute_built_ins (Some c) params w = (Returned r, w') ->
  (r = 0 \/ r = 1) /\
  (r = 1 <-> is_built_in c = false) /\
  (r = 1 -> w' = w).
Proof.
  assert (Hin : forall s, is_built_in s = true -> c = s -> is_built_in c = true).
  { now intros s Hs ->. }
  assert (Hzero : is_built_in c = true -> r = 0 ->
                  (r = 0 \/ r = 1) /\ (r = 1 <-> is_built_in c = false) /\
                  (r = 1 -> w' = w)).
  { intros Hb ->. rewrite Hb. repeat split; try done. now left. }
  unfold execute_built_ins, streq.
  rewrite bind_ret_l. destruct (String.eqb_spec c "echo") as [E|N1].
  { intros H. apply then_zero_2 in H. apply Hzero; [|done].
    apply (Hin "echo"); [now vm_compute|done]. }
  rewrite bind_ret_l. destruct (String.eqb_spec c "cd") as [E|N2].
  { intros H. apply then_zero_2 in H. apply Hzero; [|done].
    apply (Hin "cd"); [now vm_compute|done]. }
  rewrite bind_ret_l. destruct (String.eqb_spec c "pwd") as [E|N3].
  { intros H. apply then_zero in H. apply Hzero; [|done].
    apply (Hin "pwd"); [now vm_compute|done]. }
  rewrite bind_ret_l. destruct (String.eqb_spec c "exit") as [E|N4].
  { intros H. apply then_zero in H. apply Hzero; [|done].
    apply (Hin "exit"); [now vm_compute|done]. }
  rewrite bind_ret_l. destruct (String.eqb_spec c "fg") as [E|N5].
  { intros H. unfold bind at 1 in H.
    destruct (arg_at params 1 w) as [[a1|why] w1]; [|done].
    apply then_zero_2 in H. apply Hzero; [|done].
    apply (Hin "fg"); [now vm_compute|done]. }
  rewrite bind_ret_l. destruct (String.eqb_spec c "jobs") as [E|N6].
  { intros H. apply then_zero in H. apply Hzero; [|done].
    apply (Hin "jobs"); [now vm_compute|done]. }
  intros [= <- <-]. split; [now right|]. split; [|done].
  split; [intros _|done].
  apply bool_decide_eq_false. rewrite !elem_of_cons, elem_of_nil. tauto.
Qed.

(** ** The built-ins that write *)

Lemma add_events_add_event e es w :
  add_events es (add_event e w) = add_events (e :: es) w.
Proof. unfold add_events, add_event. simpl. now rewrite <- app_assoc. Qed.

Lemma add_events_app es1 es2 w :
  add_events es2 (add_events es1 w) = add_events (es1 ++ es2) w.
Proof. unfold add_events. simpl. now rewrite <- app_assoc. Qed.

Lemma add_event_events e w : add_event e w = add_events [e] w.
Proof. reflexivity. Qed.

Lemma execute_echo_events words w :
  execute_echo words w = (Returned tt, add_events (echo_events words) w).
Proof.
  revert w. induction words as [|s words IH]; intros w; simpl.
  - unfold ret. now rewrite add_events_nil.
  - erewrite bind_returned; [|reflexivity].
    rewrite IH. now rewrite add_events_add_event.
Qed.

Lemma execute_built_ins_echo c0 words w :
  execute_built_ins (Some "echo") (c0 :: words) w
  = (Returned 0, add_events (echo_events words) w).
Proof.
  unfold execute_built_ins, streq. rewrite bind_ret_l.
  change (String.eqb "echo" "echo") with true. cbv iota.
  unfold args_from_1. rewrite bind_ret_l.
  erewrite bind_returned; [|apply execute_echo_events].
  reflexivity.
Qed.

(** X12. The built-in "echo" prints the words behind the command name in
    order, each by [printf("%s ", word)]: every word is followed by one
    blank, the last one too, and no newline is written.  It returns 0 and
    changes nothing else. *)
Theorem echo_prints_every_argument
    (w : world) (c0 : string) (words : list string) :
  execute_built_ins (Some "echo") (c0 :: words) w
  = (Returned 0,
     add_events
       ((fun s => EvPrintf "%s " [ArgStr (Some s)]) <$> words) w).
Proof.
  unfold execute_built_ins, streq. rewrite bind_ret_l.
  change (String.eqb "echo" "echo") with true. cbv iota.
  unfold args_from_1. rewrite bind_ret_l.
  assert (Hecho : forall ws v,
             execute_echo ws v
             = (Returned tt,
                add_events
                  ((fun s => EvPrintf "%s " [ArgStr (Some s)]) <$> ws) v)).
  { induction ws as [|s ws IH]; intros v; simpl.
    - unfold ret. now rewrite add_events_nil.
    - erewrite bind_returned; [|reflexivity].
      rewrite IH. now rewrite add_events_add_event. }
  erewrite bind_returned; [|apply Hecho].
  reflexivity.
Qed.

(** X13. The built-ins "cd" and "pwd".  "cd" hands its first argument to
    [chdir], a null pointer when there is none, and calls [perror(NULL)] when
    [chdir] fails; "pwd" prints the buffer of [getcwd] without newline, or
    calls [perror(NULL)] when [getcwd] fails.  The dispatcher returns 0 in
    every case. *)
Theorem directory_built_ins_swallow_failures
    (w : world) (c0 : string) (more : list string) (rest : list answer) :
  (forall r, os w = AChdir r :: rest ->
     execute_built_ins (Some "cd") (c0 :: more) w
     = (Returned 0,
        add_events
          (EvChdir (head more) r :: if r =? 0 then [] else [EvPerror None])
          (set_os rest w))) /\
  (forall buf, os w = AGetcwd buf :: rest ->
     execute_built_ins (Some "pwd") (c0 :: more) w
     = (Returned 0,
        add_events
          [EvGetcwd buf;
           match buf with
           | Some s => EvPrintf "%s" [ArgStr (Some s)]
           | None => EvPerror None
           end]
          (set_os rest w))).
Proof.
  split.
  - intros r Hos.
    unfold execute_built_ins, streq. rewrite !bind_ret_l.
    change (String.eqb "cd" "echo") with false.
    change (String.eqb "cd" "cd") with true. cbv iota.
    unfold arg_at. simpl length.
    destruct (decide (1 <= S (length more))%nat) as [_|N]; [|lia].
    rewrite bind_ret_l.
    unfold execute_cd, chdir, perror, ask, emit, modify, get, ret, bind.
    rewrite Hos. simpl.
    destruct more as [|m more]; simpl;
      destruct (Z.eqb_spec r 0); simpl;
      rewrite ?add_event_events, ?add_events_app; reflexivity.
  - intros buf Hos.
    unfold execute_built_ins, streq. rewrite !bind_ret_l.
    change (String.eqb "pwd" "echo") with false.
    change (String.eqb "pwd" "cd") with false.
    change (String.eqb "pwd" "pwd") with true. cbv iota.
    unfold execute_pwd, getcwd, printf, perror, ask, emit, modify, get, ret,
      bind.
    rewrite Hos. simpl.
    destruct buf; rewrite ?add_event_events, ?add_events_app; reflexivity.
Qed.

(** ** [exit] *)

(** X14. The built-in "exit" never returns to the dispatcher and never
    calls [exit].  With an empty table its only call is [kill(0, SIGKILL)],
    which ends the shell with its process group.  With any record in the
    table it does not get that far: after releasing the first record it
    reads the [next] field of that record, and from this read on the source
    does not say what happens; no call has been made by then. *)
Theorem exit_built_in_never_returns
    (w : world) (l : list job) (params : list string) :
  jobs w = Some l ->
  exists why w',
    execute_built_ins (Some "exit") params w = (Stopped why, w') /\
    (l = [] ->
     why = Killed /\
     trace w' = trace w ++ [EvKill 0 SIGKILL] /\
     stale w' = stale w) /\
    (forall j l0, l = j :: l0 ->
     why = Undefined /\
     trace w' = trace w /\
     stale w' = stale w ++ [UseAfterFree (job_addr j)] /\
     released w' (job_addr j) = true).
Proof.
  intros Hj. apply jobs_chain in Hj.
  unfold execute_built_ins, streq. rewrite !bind_ret_l.
  change (String.eqb "exit" "echo") with false.
  change (String.eqb "exit" "cd") with false.
  change (String.eqb "exit" "pwd") with false.
  change (String.eqb "exit" "exit") with true. cbv iota.
  assert (Hex : execute_exit w
                = (exit_walk (walk_fuel w) (process_list w) ;;
                   kill 0 SIGKILL) w) by reflexivity.
  destruct l as [|j l].
  - simpl in Hj.
    assert (E : exit_walk (walk_fuel w) None = ret tt)
      by now destruct (walk_fuel w).
    rewrite Hj, E, bind_ret_l, kill_group in Hex.
    eexists _, _. split; [erewrite bind_stopped; [reflexivity|exact Hex]|].
    split; [|done]. intros _. simpl. done.
  - pose proof (chain_head _ _ _ Hj) as Hh. simpl in Hh.
    destruct (exit_walk_first_turn w j l (size (heap w)) Hj)
      as (h1 & pl1 & Hrun & _ & r & Hr).
    rewrite Hh in Hex.
    erewrite bind_stopped in Hex; [|exact Hrun].
    eexists _, _. split; [erewrite bind_stopped; [reflexivity|exact Hex]|].
    split; [done|]. intros j' l0 [= <- <-]. simpl.
    repeat split. unfold released. simpl. now rewrite Hr.
Qed.

(** ** The table: removal, and insertion undone *)

Lemma remove_first_at l :
  forall (k : nat) j,
    l !! k = Some j ->
    (forall i j', (i < k)%nat -> l !! i = Some j' -> job_pid j' <> job_pid j) ->
    first_with_pid (job_pid j) l = Some j /\
    remove_first (job_pid j) l = delete k l.
Proof.
  induction l as [|j0 l IH]; intros k j Hk Hbefore; [done|].
  destruct k as [|k]; simpl in *.
  - injection Hk as <-. now rewrite Z.eqb_refl.
  - destruct (Z.eqb_spec (job_pid j0) (job_pid j)) as [E|E].
    + exfalso. apply (Hbefore 0%nat j0); [lia|done|done].
    + destruct (IH k j Hk) as [-> ->]; [|done].
      intros i j' Hi Hl. apply (Hbefore (S i) j'); [lia|done].
Qed.

Lemma in_use_chain w p l a : chain (heap w) p l -> a ∈ addrs l -> in_use w a = true.
Proof.
  intros C Ha. destruct (chain_live _ _ _ _ C Ha) as [r Hr].
  unfold in_use. now rewrite Hr.
Qed.

(** X15. [process_remove_from_list] with the pid of a record of the table
    takes out the first record that carries this pid, and only this one: the
    others keep their order and their contents, the record is handed to
    [free], no other block changes between allocated and released, nothing
    is printed, no released record is touched, and the result is 0. *)
Theorem remove_takes_out_first_match
    (w : world) (l : list job) (k : nat) (j : job) :
  jobs w = Some l ->
  l !! k = Some j ->
  (forall i j', (i < k)%nat -> l !! i = Some j' -> job_pid j' <> job_pid j) ->
  exists w',
    process_remove_from_list (job_pid j) w = (Returned 0, w') /\
    jobs w' = Some (delete k l) /\
    released w' (job_addr j) = true /\
    (forall c, c <> job_addr j -> in_use w' c = in_use w c) /\
    trace w' = trace w /\ stale w' = stale w /\ os w' = os w.
Proof.
  intros Hj Hk Hbefore. apply jobs_chain in Hj.
  destruct (remove_first_at l k j Hk Hbefore) as [Hfirst Hdel].
  destruct (process_remove_from_list_spec (job_pid j) w l Hj)
    as (h' & pl' & Hrun & Hchain & Hframe & Hfreed).
  { intros ->. done. }
  destruct (Hfreed j Hfirst) as (nx & Hnew & Hold).
  rewrite Hdel in Hchain.
  eexists. split; [exact Hrun|]. split; [|split; [|split]].
  - now apply jobs_chain.
  - unfold released. simpl. now rewrite Hnew.
  - intros c Hc. destruct (decide (c ∈ addrs l)) as [Hin|Hout].
    + rewrite (in_use_chain w _ l c Hj Hin).
      destruct (addrs_remove_first (job_pid j) l c Hin) as [H|(j' & Hj' & ->)].
      * rewrite Hdel in H.
        unfold in_use. simpl.
        destruct (chain_live _ _ _ _ Hchain H) as [r Hr]. now rewrite Hr.
      * rewrite Hfirst in Hj'. now injection Hj' as <-.
    + unfold in_use. simpl. now rewrite (Hframe c Hout).
  - done.
Qed.

Lemma chain_records h h' l :
  forall p p' c,
    chain h p l -> chain h' p' l -> c ∈ addrs l -> h !! c = h' !! c.
Proof.
  induction l as [|j l IH]; intros p p' c C C' Hc; simpl in *.
  - now apply elem_of_nil in Hc.
  - destruct C as [_ (nx & Hr & C)]. destruct C' as [_ (nx' & Hr' & C')].
    apply elem_of_cons in Hc as [->|Hc].
    + rewrite Hr, Hr'.
      now rewrite (chain_head _ _ _ C), (chain_head _ _ _ C').
    + eapply IH; eauto.
Qed.

(** X16. [process_add] followed by [process_remove_from_list] with the same
    pid gives back the table as it was, also when other records carry this
    pid: the new record is in front, so it is the one that goes.  Its block
    is released, and every other block is as before. *)
Theorem add_then_remove_restores_the_table
    (w : world) (l : list job) (nm : cstr) (pid bg : Z) (a : addr)
    (rest : list answer) :
  jobs w = Some l ->
  os w = AMalloc (Some a) :: rest ->
  in_use w a = false ->
  exists w',
    (process_add nm pid bg ;; process_remove_from_list pid) w
    = (Returned 0, w') /\
    jobs w' = Some l /\
    released w' a = true /\
    (forall c, c <> a -> heap w' !! c = heap w !! c) /\
    trace w' = trace w /\ stale w' = stale w /\ os w' = rest.
Proof.
  intros Hj Hos Hfree. apply jobs_chain in Hj.
  destruct (process_add_spec nm pid bg a rest w l Hj Hos (in_use_false w a Hfree))
    as [Hadd Hchain].
  set (w1 := set_process_list (Some a) _) in Hadd.
  destruct (process_remove_from_list_spec pid w1 (Job a nm pid (-1) :: l) Hchain)
    as (h' & pl' & Hrun & Hchain' & Hframe & Hfreed); [done|].
  pose proof (remove_first_head (Job a nm pid (-1)) l) as Hrm.
  cbn [job_pid] in Hrm. rewrite Hrm in Hchain'.
  destruct (Hfreed (Job a nm pid (-1)) (first_with_pid_head (Job a nm pid (-1)) l))
    as (nx & Hnew & _).
  cbn [job_addr] in Hnew.
  eexists. split; [erewrite bind_returned; [exact Hrun|exact Hadd]|].
  split; [now apply jobs_chain|]. split; [|split; [|done]].
  - unfold released. simpl. now rewrite Hnew.
  - intros c Hc. simpl.
    destruct (decide (c ∈ addrs l)) as [Hin|Hout].
    + symmetry. eapply chain_records; eauto.
    + rewrite Hframe.
      * subst w1. simpl. now rewrite lookup_insert_ne.
      * simpl. rewrite not_elem_of_cons. done.
Qed.

(** ** Enumeration *)

Lemma renumber_idem l : forall n, renumber n (renumber n l) = renumber n l.
Proof. induction l as [|j l IH]; intros n; simpl; [done|]. now rewrite IH. Qed.

Lemma job_lines_renumber l : forall n m, job_lines n (renumber m l) = job_lines n l.
Proof. induction l as [|j l IH]; intros n m; simpl; [done|]. now rewrite IH. Qed.

Lemma renumber_names l : forall n, job_name <$> renumber n l = job_name <$> l.
Proof. induction l as [|j l IH]; intros n; simpl; [done|]. now rewrite IH. Qed.

Lemma job_lines_length l : forall n, length (job_lines n l) = length l.
Proof. induction l as [|j l IH]; intros n; simpl; [done|]. now rewrite IH. Qed.

Lemma job_lines_lookup l :
  forall n (k : nat) j,
    0 <= n -> n + Z.of_nat k < 2 ^ 31 ->
    l !! k = Some j ->
    job_lines n l !! k
    = Some (EvPrintf SHELL_JOBS_FORMAT
              [ArgInt (n + Z.of_nat k); ArgStr (job_name j); ArgInt (job_pid j)]).
Proof.
  induction l as [|j0 l IH]; intros n k j Hn Hb Hk; [done|].
  destruct k as [|k]; simpl in *.
  - injection Hk as <-. now rewrite Z.add_0_r.
  - rewrite (IH (int_wrap (n + 1)) k j); rewrite ?int_wrap_small; try lia; [|done].
    do 4 f_equal. lia.
Qed.

(** X17. [process_print_list] prints one line for each record, and changes
    nothing about the table but the list ids: pids, names, addresses and
    order stay.  A second call prints the same lines and leaves the whole
    state as the first call left it. *)
Theorem print_list_is_idempotent (w : world) (l : list job) :
  jobs w = Some l ->
  exists w1 l1,
    process_print_list w = (Returned tt, w1) /\
    trace w1 = trace w ++ job_lines LIST_ID_FIRST_VAL l /\
    jobs w1 = Some l1 /\
    pids l1 = pids l /\ addrs l1 = addrs l /\
    job_name <$> l1 = job_name <$> l /\
    process_print_list w1
    = (Returned tt, add_events (job_lines LIST_ID_FIRST_VAL l) w1).
Proof.
  intros Hj. apply jobs_chain in Hj.
  destruct (process_print_list_spec w l Hj) as (h1 & Hrun & Hchain & Hframe).
  set (w1 := set_heap h1 _) in Hrun.
  exists w1, (renumber LIST_ID_FIRST_VAL l).
  split; [done|]. split; [done|]. split; [now apply jobs_chain|].
  split; [apply renumber_pids|]. split; [apply renumber_addrs|].
  split; [apply renumber_names|].
  destruct (process_print_list_spec w1 (renumber LIST_ID_FIRST_VAL l) Hchain)
    as (h2 & Hrun2 & Hchain2 & Hframe2).
  rewrite renumber_idem in Hchain2. rewrite job_lines_renumber in Hrun2.
  rewrite Hrun2. f_equal.
  assert (E : h2 = heap w1).
  { apply map_eq. intros c.
    destruct (decide (c ∈ addrs (renumber LIST_ID_FIRST_VAL l))) as [Hin|Hout].
    - eapply chain_records; eauto.
    - now apply Hframe2. }
  rewrite E. now destruct w1.
Qed.

(** X18. The built-in "jobs" prints the header and then one line for each
    record, the most recently added first: line k shows the number k, the
    name and the pid of the k-th record from the front.  The table keeps its
    pids, and the dispatcher returns 0. *)
Theorem jobs_built_in_lists_newest_first
    (w : world) (l : list job) (params : list string) :
  jobs w = Some l ->
  exists w' lines,
    execute_built_ins (Some "jobs") params w = (Returned 0, w') /\
    trace w' = trace w ++ EvPrintf "%s" [ArgStr (Some SHELL_JOBS_HEADER)] :: lines /\
    length lines = length l /\
    (forall (k : nat) j,
       l !! k = Some j -> Z.of_nat k < 2 ^ 31 ->
       lines !! k
       = Some (EvPrintf SHELL_JOBS_FORMAT
                 [ArgInt (Z.of_nat k); ArgStr (job_name j);
                  ArgInt (job_pid j)])) /\
    (pids <$> jobs w') = Some (pids l) /\
    os w' = os w /\ stale w' = stale w.
Proof.
  intros Hj. apply jobs_chain in Hj.
  unfold execute_built_ins, streq. rewrite !bind_ret_l.
  change (String.eqb "jobs" "echo") with false.
  change (String.eqb "jobs" "cd") with false.
  change (String.eqb "jobs" "pwd") with false.
  change (String.eqb "jobs" "exit") with false.
  change (String.eqb "jobs" "fg") with false.
  change (String.eqb "jobs" "jobs") with true. cbv iota.
  unfold execute_jobs.
  set (w0 := add_event (EvPrintf "%s" [ArgStr (Some SHELL_JOBS_HEADER)]) w).
  destruct (process_print_list_spec w0 l Hj) as (h1 & Hrun & Hchain & Hframe).
  assert (Hall : ((printf "%s" [ArgStr (Some SHELL_JOBS_HEADER)] ;;
                   process_print_list) ;; ret 0) w
                 = (Returned 0,
                    set_heap h1 (add_events (job_lines LIST_ID_FIRST_VAL l) w0))).
  { erewrite bind_returned; [reflexivity|].
    erewrite bind_returned; [exact Hrun|reflexivity]. }
  eexists _, (job_lines LIST_ID_FIRST_VAL l). split; [exact Hall|].
  split; [simpl; now rewrite <- app_assoc|].
  split; [apply job_lines_length|]. split; [|split; [|done]].
  - intros k j Hk Hb.
    rewrite (job_lines_lookup l LIST_ID_FIRST_VAL k j); unfold LIST_ID_FIRST_VAL;
      try done; lia.
  - assert (Hj' : jobs (set_heap h1 (add_events (job_lines LIST_ID_FIRST_VAL l) w0))
                  = Some (renumber LIST_ID_FIRST_VAL l)) by now apply jobs_chain.
    rewrite Hj'. simpl. now rewrite renumber_pids.
Qed.

(** ** [fg]: display indices, later *)


Lemma first_with_index_none id l :
  (forall x, x ∈ l -> job_index x <> id) -> first_with_index id l = None.
Proof.
  induction l as [|j0 l IH]; intros Hno; simpl; [done|].
  destruct (Z.eqb_spec (job_index j0) id) as [E|E].
  - exfalso. apply (Hno j0); [left|done].
  - apply IH. intros x Hx. apply Hno. now right.
Qed.


Lemma renumber_at l n (k : nat) j :
  0 <= n -> n + Z.of_nat (length l) <= 2 ^ 31 ->
  l !! k = Some j ->
  renumber n l !! k = Some (shown j (n + Z.of_nat k)).
Proof.
  intros Hn Hb Hk.
  destruct (renumber n l !! k) as [x|] eqn:Hx.
  - destruct (renumber_lookup l n k x Hn Hb Hx) as (j0 & Hj0 & ->).
    rewrite Hk in Hj0. now injection Hj0 as <-.
  - apply lookup_ge_None in Hx. rewrite renumber_length in Hx.
    apply lookup_lt_Some in Hk. lia.
Qed.

Lemma renumber_elem l n x :
  0 <= n -> n + Z.of_nat (length l) <= 2 ^ 31 ->
  x ∈ renumber n l ->
  exists (i : nat) j0, l !! i = Some j0 /\ x = shown j0 (n + Z.of_nat i).
Proof.
  intros Hn Hb Hx. apply list_elem_of_lookup in Hx as [i Hi].
  destruct (renumber_lookup l n i x Hn Hb Hi) as (j0 & Hj0 & ->).
  now exists i, j0.
Qed.

Lemma fg_dispatch c0 s more w :
  execute_built_ins (Some "fg") (c0 :: s :: more) w
  = (execute_fg (int_wrap (strtol10 s)) ;; ret 0) w.
Proof.
  unfold execute_built_ins, streq. rewrite !bind_ret_l.
  change (String.eqb "fg" "echo") with false.
  change (String.eqb "fg" "cd") with false.
  change (String.eqb "fg" "pwd") with false.
  change (String.eqb "fg" "exit") with false.
  change (String.eqb "fg" "fg") with true. cbv iota.
  unfold arg_at. simpl length.
  destruct (decide (1 <= S (S (length more)))%nat) as [_|N]; [|lia].
  rewrite bind_ret_l. simpl lookup. unfold strtol. now rewrite bind_ret_l.
Qed.

(** What the table holds after the enumeration and the removal of [pa]. *)
Lemma printed_then_removed w l pa :
  chain (heap w) (process_list w) l -> l <> [] ->
  exists h2 pl2,
    (process_print_list ;; process_remove_from_list pa) w
    = (Returned 0,
       set_process_list pl2
         (set_heap h2 (add_events (job_lines LIST_ID_FIRST_VAL l) w))) /\
    chain h2 pl2 (remove_first pa (renumber LIST_ID_FIRST_VAL l)) /\
    (forall j, first_with_pid pa (renumber LIST_ID_FIRST_VAL l) = Some j ->
               exists r, h2 !! job_addr j = Some (Freed r)).
Proof.
  intros C Hne.
  destruct (process_print_list_spec w l C) as (h1 & Hrun & Hchain & _).
  set (w1 := set_heap h1 _) in Hrun.
  destruct (process_remove_from_list_spec pa w1 (renumber LIST_ID_FIRST_VAL l) Hchain)
    as (h2 & pl2 & Hrun2 & Hchain2 & _ & Hfreed).
  { destruct l; [done|]. done. }
  exists h2, pl2. split; [|split; [done|]].
  - erewrite bind_returned; [|exact Hrun]. rewrite Hrun2. reflexivity.
  - intros j Hj. destruct (Hfreed j Hj) as (nx & H & _). eauto.
Qed.


(** X20. "fg k" for a record that went since the enumeration showed it under
    the number k: no other record is taken for it.  The shell waits for
    nothing and removes nothing; it prints "Error: Invalid process number"
    only if the table is empty by then, and stays silent otherwise.  The
    dispatcher returns 0. *)
Theorem fg_on_reaped_job_waits_for_nothing
    (w : world) (l : list job) (k : nat) (j : job)
    (c0 s : string) (more : list string) :
  jobs w = Some l ->
  NoDup (pids l) ->
  Z.of_nat (length l) <= 2 ^ 31 ->
  l !! k = Some j ->
  int_wrap (strtol10 s) = Z.of_nat k ->
  exists w' l',
    (process_print_list ;; process_remove_from_list (job_pid j) ;;
     execute_built_ins (Some "fg") (c0 :: s :: more)) w = (Returned 0, w') /\
    trace w' = trace w ++ job_lines LIST_ID_FIRST_VAL l
                       ++ (if decide (length l = 1%nat)
                           then [EvPrintf "%s: %s"
                                   [ArgStr (Some "Error");
                                    ArgStr (Some ERROR_NO_SUCH_PROC)]]
                           else []) /\
    jobs w' = Some l' /\
    (forall p, p ∈ pids l' <-> p ∈ pids l /\ p <> job_pid j) /\
    stale w' = stale w /\ os w' = os w.
Proof.
  intros Hj Hnd Hlen Hk Hs. apply jobs_chain in Hj.
  assert (Hne : l <> []) by (intros ->; done).
  destruct (printed_then_removed w l (job_pid j) Hj Hne)
    as (h2 & pl2 & Hrun & Hchain & _).
  set (w2 := set_process_list pl2 _) in Hrun.
  set (l1 := renumber LIST_ID_FIRST_VAL l) in *.
  set (j' := shown j (Z.of_nat k)).
  assert (Hnd1 : NoDup (pids l1)) by (unfold l1; now rewrite renumber_pids).
  destruct (remove_first_pids (job_pid j) l1 Hnd1) as [Hnd2 Hpids2].
  assert (Hk1 : l1 !! k = Some j').
  { unfold l1, j'. rewrite (renumber_at l LIST_ID_FIRST_VAL k j);
      unfold LIST_ID_FIRST_VAL; try done; try lia. }
  destruct (remove_first_delete l1 k j' Hnd1 Hk1) as [_ Hdel].
  cbn [job_pid j' shown] in Hdel.
  assert (Hlen2 : length (remove_first (job_pid j) l1) = (length l - 1)%nat).
  { rewrite Hdel, length_delete; [|eauto]. unfold l1. now rewrite renumber_length. }
  assert (Hdisp : forall w3 r,
             process_bring_to_fg (Z.of_nat k) w2 = (Returned (-1), w3) ->
             r = (Returned 0, w3) ->
             (process_print_list ;; process_remove_from_list (job_pid j) ;;
              execute_built_ins (Some "fg") (c0 :: s :: more)) w = r).
  { intros w3 r Hfg ->.
    rewrite <- bind_assoc. erewrite bind_returned; [|exact Hrun].
    rewrite fg_dispatch, Hs. unfold execute_fg. rewrite bind_assoc.
    erewrite bind_returned; [|exact Hfg]. reflexivity. }
  exists (if decide (length l = 1%nat)
          then add_event (EvPrintf "%s: %s"
                            [ArgStr (Some "Error");
                             ArgStr (Some ERROR_NO_SUCH_PROC)]) w2
          else w2),
         (remove_first (job_pid j) l1).
  assert (Hpids : forall p, p ∈ pids (remove_first (job_pid j) l1)
                            <-> p ∈ pids l /\ p <> job_pid j).
  { intros p. rewrite Hpids2. unfold l1. now rewrite renumber_pids. }
  destruct (decide (length l = 1%nat)) as [H1|H1].
  - assert (E : remove_first (job_pid j) l1 = []).
    { apply length_zero_iff_nil. lia. }
    rewrite E in Hchain. simpl in Hchain.
    split; [eapply Hdisp; [|reflexivity];
            now apply process_bring_to_fg_empty|].
    split; [simpl; now rewrite <- app_assoc|].
    split; [apply jobs_chain; simpl; now rewrite E|].
    split; [exact Hpids|done].
  - assert (Hne2 : remove_first (job_pid j) l1 <> []).
    { intros E. rewrite E in Hlen2. simpl in Hlen2.
      apply lookup_lt_Some in Hk. lia. }
    pose proof (process_bring_to_fg_spec (Z.of_nat k) w2 _ Hchain Hne2) as Hfg.
    rewrite first_with_index_none in Hfg.
    + split; [eapply Hdisp; [exact Hfg|reflexivity]|].
      split; [simpl; now rewrite app_nil_r|].
      split; [now apply jobs_chain|done].
    + intros x Hx Hxi. apply elem_of_remove_first in Hx as [Hx Hxp]; [|done].
      apply renumber_elem in Hx as (i & j0 & Hi & ->);
        unfold LIST_ID_FIRST_VAL; try lia.
      simpl in Hxi, Hxp. unfold LIST_ID_FIRST_VAL in Hxi.
      assert (i = k) by lia. subst i.
      rewrite Hk in Hi. now injection Hi as <-.
Qed.

(** ** The handler of SIGCHLD *)

Lemma remove_any pid w l :
  chain (heap w) (process_list w) l ->
  exists r w',
    process_remove_from_list pid w = (Returned r, w') /\
    chain (heap w') (process_list w') (remove_first pid l) /\
    trace w' = trace w
               ++ match l with
                  | [] => [EvPrintf "%s: %s" [ArgStr (Some "Error");
                                              ArgStr (Some ERROR_NO_SUCH_PROC)]]
                  | _ => []
                  end /\
    os w' = os w /\ stale w' = stale w.
Proof.
  intros C. destruct l as [|j l].
  - simpl in C. eexists _, _.
    split; [now apply process_remove_from_list_empty|]. simpl. done.
  - destruct (process_remove_from_list_spec pid w (j :: l) C)
      as (h' & pl' & Hrun & Hchain & _); [done|].
    eexists _, _. split; [exact Hrun|]. simpl. now rewrite app_nil_r.
Qed.

Lemma reap_spec ps :
  forall fuel w l r rest,
    chain (heap w) (process_list w) l ->
    os w = (AWait3 <$> ps) ++ AWait3 r :: rest ->
    Forall (fun p => 0 < p) ps ->
    r <= 0 ->
    (length ps < fuel)%nat ->
    exists w',
      reap fuel w = (Returned tt, w') /\
      chain (heap w') (process_list w') (reaped ps l) /\
      os w' = rest /\
      trace w' = trace w ++ reap_events ps l ++ [EvWait3 r] /\
      stale w' = stale w.
Proof.
  induction ps as [|p ps IH]; intros fuel w l r rest C Hos Hpos Hr Hfuel;
    (destruct fuel as [|fuel]; [simpl in Hfuel; lia|]); simpl in Hos.
  - simpl reap. unfold wait3, bind, ask, emit, modify, ret. rewrite Hos. simpl.
    destruct (Z.ltb_spec 0 r) as [E|_]; [lia|].
    eexists. split; [reflexivity|]. simpl. done.
  - apply Forall_cons in Hpos as [Hp Hpos].
    simpl reap.
    assert (Hw : wait3 w
                 = (Returned p,
                    add_event (EvWait3 p)
                      (set_os ((AWait3 <$> ps) ++ AWait3 r :: rest) w))).
    { unfold wait3, bind, ask, emit, modify, ret. now rewrite Hos. }
    rewrite (bind_returned _ _ _ _ _ Hw).
    destruct (Z.ltb_spec 0 p) as [_|E]; [|lia].
    set (w1 := add_event _ _).
    destruct (remove_any p w1 l C) as (r1 & w2 & Hrun & C2 & Htr & Hos2 & Hst).
    rewrite (bind_returned _ _ _ _ _ Hrun).
    destruct (IH fuel w2 (remove_first p l) r rest C2) as
      (w' & Hrun' & C' & Hos' & Htr' & Hst'); [done|done|done|simpl in Hfuel; lia|].
    exists w'. split; [done|]. split; [done|]. split; [done|]. split.
    + rewrite Htr', Htr. simpl. rewrite <- !app_assoc. done.
    + now rewrite Hst', Hst.
Qed.

Lemma reaped_pids ps :
  forall l, NoDup (pids l) ->
    NoDup (pids (reaped ps l)) /\
    forall p, p ∈ pids (reaped ps l) <-> p ∈ pids l /\ p ∉ ps.
Proof.
  induction ps as [|q ps IH]; intros l Hnd; simpl.
  - split; [done|]. intros p. split; [intros H; split; [done|apply not_elem_of_nil]|tauto].
  - destruct (remove_first_pids q l Hnd) as [Hnd1 H1].
    destruct (IH _ Hnd1) as [Hnd2 H2]. split; [done|].
    intros p. rewrite H2, H1, not_elem_of_cons. tauto.
Qed.

(** X21. The handler on SIGCHLD calls [wait3] until it reports no further
    child (a result of 0 or less) and removes the first record of every pid
    reported before that, in this order; with distinct pids the table then
    holds exactly the pids that were not reported.  A reported pid that is
    not in the table is passed over silently, unless the table is empty at
    that moment: then "Error: Invalid process number" is printed from the
    handler. *)
Theorem sigchld_handler_reaps_every_reported_child
    (w : world) (l : list job) (ps : list Z) (r : Z) (rest : list answer) :
  jobs w = Some l ->
  os w = (AWait3 <$> ps) ++ AWait3 r :: rest ->
  Forall (fun p => 0 < p) ps ->
  r <= 0 ->
  exists w',
    signal_handler SIGCHLD w = (Returned tt, w') /\
    jobs w' = Some (reaped ps l) /\
    (NoDup (pids l) ->
     forall p, p ∈ pids (reaped ps l) <-> p ∈ pids l /\ p ∉ ps) /\
    os w' = rest /\
    trace w' = trace w ++ reap_events ps l ++ [EvWait3 r] /\
    stale w' = stale w.
Proof.
  intros Hj Hos Hpos Hr. apply jobs_chain in Hj.
  destruct (reap_spec ps (S (length (os w))) w l r rest Hj Hos Hpos Hr)
    as (w' & Hrun & C & Hos' & Htr & Hst).
  { rewrite Hos, length_app, length_fmap. simpl. lia. }
  exists w'. split; [exact Hrun|]. split; [now apply jobs_chain|].
  split; [|done]. intros Hnd. now apply reaped_pids.
Qed.

(** ** Sequences of insertions and removals: memory *)

Lemma process_add_stale nm pid bg w o w' :
  process_add nm pid bg w = (o, w') -> stale w' = stale w.
Proof.
  unfold process_add, malloc, init, assign_next, load, store, print_error,
    printf, ask, emit, modify, get, ret, halt, bind.
  destruct (os w) as [|[] ?]; simpl; try (intros [= <- <-]; done).
  destruct p as [b|]; simpl; [|intros [= <- <-]; done].
  destruct (heap w !! b) as [[?|?]|]; simpl;
    repeat (rewrite lookup_insert_eq; simpl);
    intros [= <- <-]; done.
Qed.

Lemma run_ops_stale ops :
  forall w l m m' rest w',
    table_matches w l m ->
    os w = alloc_script ops ++ rest ->
    spec_tracked ops m = Some m' ->
    run_ops ops w = (Returned tt, w') ->
    stale w' = stale w.
Proof.
  induction ops as [|o ops IH]; intros w l m m' rest w' HM Hos Hspec Hrun.
  - simpl in Hrun. now injection Hrun as <-.
  - destruct o as [nm pid [a|]|pid]; simpl in Hos, Hspec.
    + destruct (bool_decide (m !! pid = None)) eqn:E1; [|done].
      destruct (bool_decide (map_Forall (fun _ b => b <> a) m)) eqn:E2; [|done].
      simpl in Hspec.
      apply bool_decide_eq_true in E1. apply bool_decide_eq_true in E2.
      destruct (table_matches_insert w l m nm pid a _ HM Hos E1 E2)
        as (w1 & Hstep & HM1 & Hos1).
      simpl in Hrun. rewrite (bind_returned _ _ _ _ _ Hstep) in Hrun.
      rewrite (IH w1 _ _ m' rest w' HM1 Hos1 Hspec Hrun).
      eapply process_add_stale; eauto.
    + destruct (table_matches_insert_fails w l m nm pid _ HM Hos)
        as (w1 & Hstep & HM1 & Hos1).
      simpl in Hrun. rewrite (bind_returned _ _ _ _ _ Hstep) in Hrun.
      rewrite (IH w1 _ _ m' rest w' HM1 Hos1 Hspec Hrun).
      eapply process_add_stale; eauto.
    + destruct (table_matches_remove w l m pid HM) as (r & w1 & Hstep & HM1 & Hos1).
      rewrite Hos in Hos1.
      simpl in Hrun. rewrite (bind_returned _ _ _ _ _ Hstep) in Hrun.
      rewrite (IH w1 _ _ m' rest w' HM1 Hos1 Hspec Hrun).
      destruct HM as [C _].
      destruct (remove_any pid w l C) as (r2 & w2 & Hstep2 & _ & _ & _ & Hst).
      rewrite Hstep in Hstep2. now injection Hstep2 as _ <-.
Qed.

(** X22. Memory stays in step with the table.  Start from the empty table
    and run any sequence of [process_add] and [process_remove_from_list] in
    which no pid is inserted while a live record carries it.  Then the
    blocks that are allocated are exactly the records of the table (nothing
    leaks), the table has as many records as the specification's table has
    pids, and no released record was read, written or released again. *)
Theorem table_operations_keep_memory_in_step
    (ops : list table_op) (w : world) (m : gmap Z addr) (rest : list answer) :
  heap w = ∅ ->
  process_list w = None ->
  os w = alloc_script ops ++ rest ->
  spec_tracked ops ∅ = Some m ->
  exists w' l,
    run_ops ops w = (Returned tt, w') /\
    jobs w' = Some l /\
    (forall a, in_use w' a = true <-> a ∈ addrs l) /\
    length l = size m /\
    stale w' = stale w.
Proof.
  intros Hheap Hpl Hos Hspec.
  assert (HM : table_matches w [] ∅).
  { split; [done|]. split; [constructor|]. split.
    - intros a. unfold in_use. rewrite Hheap, lookup_empty. done.
    - intros pid a. rewrite lookup_empty. split; [done|].
      intros (j & Hin & _). now apply elem_of_nil in Hin. }
  destruct (run_ops_matches ops w [] ∅ m rest HM Hos Hspec)
    as (w' & l & Hrun & (C & Hnd & Hleak & Hm) & Hos').
  exists w', l. split; [done|]. split; [now apply jobs_chain|].
  split; [|split].
  - intros a. split; [apply Hleak|]. intros Ha. eapply in_use_chain; eauto.
  - assert (Hdom : dom m = list_to_set (pids l)).
    { apply set_eq. intros pid.
      rewrite elem_of_list_to_set, elem_of_dom. unfold pids.
      rewrite list_elem_of_fmap. split.
      - intros (a & Ha). apply Hm in Ha as (j & Hin & <- & _). eauto.
      - intros (j & -> & Hin). exists (job_addr j). apply Hm. eauto. }
    rewrite <- size_dom, Hdom, size_list_to_set; [|done].
    unfold pids. now rewrite length_fmap.
  - eapply run_ops_stale; eauto.
Qed.

(** ** Facts about the cutting *)

Lemma cut_token_clean sg t : Forall (fun c => at_most_32 sg c = false) (cut_token sg t).
Proof.
  induction t as [|c t IH]; simpl; [constructor|].
  destruct (at_most_32 sg c) eqn:E; [constructor|]. now constructor.
Qed.

Lemma getcmd_args_Some sg line l :
  getcmd_args sg line = Some l ->
  l = tokenize sg line /\ Z.of_nat (length (cl_args l)) <= MAX_ARGS.
Proof.
  unfold getcmd_args. destruct (bool_decide _) eqn:E; [|done].
  apply bool_decide_eq_true in E. now intros [= <-].
Qed.

(** X23. Every word that [getcmd] stores in [args] is non-empty and holds no
    byte that is at most 32 as a [char]: no blank, tab, newline or other
    control character, and where [char] is signed no byte from 128 on
    (a token is cut at the first such byte). *)
Theorem getcmd_words_are_clean
    (sg : bool) (line : string) (l : command_line) (word : string) :
  getcmd_args sg line = Some l ->
  word ∈ cl_args l ->
  word <> "" /\
  Forall (fun c => at_most_32 sg c = false /\ is_delimiter c = false)
         (list_ascii_of_string word).
Proof.
  intros Hl. apply getcmd_args_Some in Hl as [-> _].
  unfold tokenize. destruct (strsep_tokens _) as [t ts]. cbn [cl_args].
  intros Hin. apply list_elem_of_fmap in Hin as (t' & -> & Hin).
  apply list_elem_of_filter in Hin as [Hne Hin].
  apply list_elem_of_fmap in Hin as (t0 & -> & _).
  split.
  - intros E. apply Hne.
    rewrite <- (list_ascii_of_string_of_list_ascii (cut_token sg t0)), E. done.
  - rewrite list_ascii_of_string_of_list_ascii.
    eapply Forall_impl; [apply cut_token_clean|].
    intros c Hc. split; [done|].
    unfold at_most_32 in Hc. unfold is_delimiter.
    apply orb_false_iff in Hc as [Hc _]. apply Nat.leb_gt in Hc.
    destruct (Ascii.eqb_spec c " ") as [->|_];
      [change (nat_of_ascii " ") with 32%nat in Hc; lia|].
    destruct (Ascii.eqb_spec c "009") as [->|_];
      [change (nat_of_ascii "009") with 9%nat in Hc; lia|].
    destruct (Ascii.eqb_spec c "010") as [->|_];
      [change (nat_of_ascii "010") with 10%nat in Hc; lia|].
    done.
Qed.

Lemma blank_first_is_Some x s : is_Some (blank_first x s) <-> x ∈ s.
Proof.
  induction s as [|c s IH]; simpl.
  - split; [intros [? ?]; done|intros H; now apply elem_of_nil in H].
  - destruct (Ascii.eqb_spec c x) as [->|Hne].
    + split; [intros _; left|intros _; eauto].
    + rewrite fmap_is_Some, IH, elem_of_cons. split; [now right|].
      intros [E|H]; [congruence|done].
Qed.

Lemma blank_first_other x y s :
  y <> x -> y <> " "%char -> y ∈ default s (blank_first x s) <-> y ∈ s.
Proof.
  intros Hx Hb. induction s as [|c s IH]; simpl; [done|].
  destruct (Ascii.eqb_spec c x) as [->|Hne]; simpl.
  - rewrite !elem_of_cons. split; intros [E|H]; try congruence; now right.
  - destruct (blank_first x s) as [s'|]; simpl in *; [|done].
    rewrite !elem_of_cons, IH. done.
Qed.

(** X24. [getcmd] sets the background flag exactly when the line holds a '&',
    the redirect flag exactly when it holds a '>', and the pipe flag exactly
    when it holds a '|', wherever the character stands: inside a word as
    well as on its own.  Only the part of the line before its first NUL
    counts. *)
Theorem getcmd_flags (sg : bool) (line : string) (l : command_line) :
  getcmd_args sg line = Some l ->
  let s := c_string (list_ascii_of_string line) in
  (cl_bg l = true <-> FLAG_BG_PROCESS ∈ s) /\
  (cl_rd l = true <-> FLAG_RD_OUTPUT ∈ s) /\
  (cl_pipe l = true <-> FLAG_PIPE ∈ s).
Proof.
  intros Hl s. apply getcmd_args_Some in Hl as [-> _].
  unfold tokenize. fold s.
  destruct (strsep_tokens _) as [t ts]. cbn [cl_bg cl_rd cl_pipe].
  rewrite !bool_decide_eq_true. split; [|split].
  - apply blank_first_is_Some.
  - rewrite blank_first_is_Some. now apply blank_first_other.
  - rewrite blank_first_other by done. now apply blank_first_other.
Qed.

(** ** Words joined by blanks come back *)

Lemma toks_delimiter d r : is_delimiter d = true -> toks (d :: r) = [] :: toks r.
Proof. unfold toks. simpl. destruct (strsep_tokens r). now intros ->. Qed.

Lemma toks_word w d r :
  Forall (fun c => is_delimiter c = false) w ->
  is_delimiter d = true ->
  toks (w ++ d :: r) = w :: toks r.
Proof.
  intros Hw Hd. induction Hw as [|c w Hc Hw IH]; simpl.
  - now apply toks_delimiter.
  - unfold toks in *. simpl. destruct (strsep_tokens (w ++ d :: r)) as [t ts].
    rewrite Hc. destruct (strsep_tokens r). now injection IH as -> ->.
Qed.

Lemma toks_delimiters tl :
  Forall (fun c => is_delimiter c = true) tl -> Forall (fun t => t = []) (toks tl).
Proof.
  induction 1 as [|d tl Hd _ IH].
  - unfold toks. simpl. now constructor.
  - rewrite toks_delimiter by done. now constructor.
Qed.

Lemma cut_token_id sg w :
  Forall (fun c => at_most_32 sg c = false) w -> cut_token sg w = w.
Proof. induction 1 as [|c w Hc _ IH]; simpl; [done|]. now rewrite Hc, IH. Qed.

Lemma not_delimiter sg c : at_most_32 sg c = false -> is_delimiter c = false.
Proof.
  intros Hc. unfold at_most_32 in Hc. unfold is_delimiter.
  apply orb_false_iff in Hc as [Hc _]. apply Nat.leb_gt in Hc.
  destruct (Ascii.eqb_spec c " ") as [->|_];
    [change (nat_of_ascii " ") with 32%nat in Hc; lia|].
  destruct (Ascii.eqb_spec c "009") as [->|_];
    [change (nat_of_ascii "009") with 9%nat in Hc; lia|].
  destruct (Ascii.eqb_spec c "010") as [->|_];
    [change (nat_of_ascii "010") with 10%nat in Hc; lia|].
  done.
Qed.

Lemma filter_nonempty_empties (l : list (list ascii)) :
  Forall (fun t => t = []) l -> filter (fun t => t <> []) l = [].
Proof.
  induction 1 as [|t l -> _ IH]; [done|].
  rewrite filter_cons_False; [done|]. now intros H.
Qed.

Lemma list_ascii_of_string_app (a b : string) :
  list_ascii_of_string (a +:+ b) = list_ascii_of_string a ++ list_ascii_of_string b.
Proof. induction a as [|c a IH]; simpl; [done|]. now rewrite IH. Qed.

Lemma words_of_joined sg (ws : list string) :
  Forall (plain_word sg) ws ->
  forall tl,
    tl <> [] -> Forall (fun c => is_delimiter c = true) tl ->
    filter (fun t => t <> [])
      (cut_token sg <$> toks (list_ascii_of_string (String.concat " " ws) ++ tl))
    = list_ascii_of_string <$> ws.
Proof.
  induction 1 as [|w ws [Hne Hw] Hws IH]; intros tl Htl Hd.
  - simpl. apply filter_nonempty_empties.
    apply Forall_fmap. eapply Forall_impl; [apply toks_delimiters; exact Hd|].
    now intros t ->.
  - assert (Hnd : Forall (fun c => is_delimiter c = false) (list_ascii_of_string w)).
    { eapply Forall_impl; [exact Hw|]. intros c [Hc _]. eapply not_delimiter; eauto. }
    assert (Hcl : Forall (fun c => at_most_32 sg c = false) (list_ascii_of_string w)).
    { eapply Forall_impl; [exact Hw|]. now intros c [Hc _]. }
    assert (Hwne : list_ascii_of_string w <> []).
    { intros E. apply Hne. rewrite <- (string_of_list_ascii_of_string w), E. done. }
    destruct ws as [|w2 ws].
    + cbn [String.concat].
      destruct tl as [|d tl]; [done|]. apply Forall_cons in Hd as [Hd Htl'].
      rewrite toks_word by done. rewrite fmap_cons, cut_token_id by done.
      rewrite filter_cons_True by done. simpl. f_equal.
      apply filter_nonempty_empties.
      apply Forall_fmap. eapply Forall_impl; [apply toks_delimiters; exact Htl'|].
      now intros t ->.
    + change (String.concat " " (w :: w2 :: ws))
        with (w +:+ " " +:+ String.concat " " (w2 :: ws)).
      rewrite !list_ascii_of_string_app, <- !app_assoc.
      change (list_ascii_of_string " ") with [" "%char]. simpl app at 2.
      rewrite toks_word by done. rewrite fmap_cons, cut_token_id by done.
      rewrite filter_cons_True by done. rewrite fmap_cons. f_equal.
      now apply IH.
Qed.

Lemma c_string_id s : Forall (fun c => c <> Ascii.zero) s -> c_string s = s.
Proof.
  induction 1 as [|c s Hc _ IH]; simpl; [done|].
  destruct (Ascii.eqb_spec c Ascii.zero) as [E|_]; [done|]. now rewrite IH.
Qed.

Lemma blank_first_app x a b :
  x ∉ a -> blank_first x (a ++ b) = (app a) <$> blank_first x b.
Proof.
  induction a as [|c a IH]; intros Hx; simpl.
  - now destruct (blank_first x b).
  - apply not_elem_of_cons in Hx as [Hne Hx].
    destruct (Ascii.eqb_spec c x) as [E|_]; [congruence|].
    rewrite IH by done. now destruct (blank_first x b).
Qed.

Lemma joined_chars (P : ascii -> Prop) (ws : list string) :
  P " "%char ->
  Forall (fun w => Forall P (list_ascii_of_string w)) ws ->
  Forall P (list_ascii_of_string (String.concat " " ws)).
Proof.
  intros Hb. induction 1 as [|w ws Hw Hws IH]; [constructor|].
  destruct ws as [|w2 ws]; [done|].
  change (String.concat " " (w :: w2 :: ws))
    with (w +:+ " " +:+ String.concat " " (w2 :: ws)).
  rewrite !list_ascii_of_string_app. apply Forall_app. split; [done|].
  apply Forall_app. split; [|done]. now constructor.
Qed.

Lemma tokenize_plain_words (sg : bool) (ws : list string) (bg : bool) :
  Forall (plain_word sg) ws ->
  let l := tokenize sg (String.concat " " ws
                        +:+ (if bg then " &" else "") +:+ nl) in
  cl_args l = ws /\ cl_bg l = bg /\ cl_rd l = false.
Proof.
  intros Hws l. subst l. unfold tokenize.
  set (body := list_ascii_of_string (String.concat " " ws)).
  assert (Hbody : Forall (fun c => c <> Ascii.zero /\ c <> FLAG_BG_PROCESS /\ c <> FLAG_RD_OUTPUT)
                 body).
  { apply joined_chars; [done|].
    eapply Forall_impl; [exact Hws|]. intros w [_ Hw].
    eapply Forall_impl; [exact Hw|]. intros c (Hc & H1 & H2).
    split; [|done]. intros ->. done. }
  rewrite !list_ascii_of_string_app. fold body.
  set (tl := list_ascii_of_string (if bg then " &" else "")
             ++ list_ascii_of_string nl).
  set (tl1 := (if bg then [" "; " "] else [])%char ++ list_ascii_of_string nl).
  assert (Hs0 : c_string (body ++ tl) = body ++ tl).
  { apply c_string_id. apply Forall_app. split.
    - eapply Forall_impl; [exact Hbody|]. now intros c [H _].
    - unfold tl. destruct bg; repeat constructor; done. }
  assert (Hnot : forall x, Forall (fun c => c <> x) body -> x ∉ body).
  { intros x H Hin. rewrite Forall_forall in H. now apply (H x). }
  assert (Hbg : blank_first FLAG_BG_PROCESS (body ++ tl)
                = if bg then Some (body ++ tl1) else None).
  { rewrite blank_first_app.
    - unfold tl, tl1. now destruct bg.
    - apply Hnot. eapply Forall_impl; [exact Hbody|]. now intros c (_ & H & _). }
  assert (Hs1 : default (body ++ tl) (blank_first FLAG_BG_PROCESS (body ++ tl))
                = body ++ tl1).
  { rewrite Hbg. unfold tl, tl1. now destruct bg. }
  assert (Hrd : blank_first FLAG_RD_OUTPUT (body ++ tl1) = None).
  { rewrite blank_first_app.
    - unfold tl1. now destruct bg.
    - apply Hnot. eapply Forall_impl; [exact Hbody|]. now intros c (_ & _ & H). }
  rewrite Hs0, Hs1, Hrd. cbn [default].
  pose proof (words_of_joined sg ws Hws tl1) as Hwords.
  fold body in Hwords. unfold toks in Hwords.
  destruct (strsep_tokens (body ++ tl1)) as [t ts]. cbn [cl_args cl_bg cl_rd].
  split; [|split].
  - rewrite Hwords.
    + rewrite <- list_fmap_compose. rewrite <- (list_fmap_id ws) at 2.
      apply list_fmap_ext. intros i w _. simpl.
      apply string_of_list_ascii_of_string.
    + unfold tl1. now destruct bg.
    + unfold tl1. destruct bg; repeat constructor.
  - rewrite Hbg. now destruct bg.
  - done.
Qed.

(** X25. Words that hold only bytes above 32 and neither '&' nor '>', written
    on one line with single blanks between them and a newline at the end,
    come back from [getcmd] as they are and in order, with no flag but the
    pipe flag possibly set; with " &" before the newline the background flag
    is set and the words are the same.  The line has at most [MAX_ARGS]
    words. *)
Theorem getcmd_returns_plain_words
    (sg : bool) (ws : list string) (bg : bool) :
  Forall (plain_word sg) ws ->
  Z.of_nat (length ws) <= MAX_ARGS ->
  exists l,
    getcmd_args sg (String.concat " " ws
                    +:+ (if bg then " &" else "") +:+ nl) = Some l /\
    cl_args l = ws /\ cl_bg l = bg /\ cl_rd l = false.
Proof.
  intros Hws Hlen.
  destruct (tokenize_plain_words sg ws bg Hws) as (Ha & Hb & Hr).
  eexists. split; [|split; [exact Ha|split; [exact Hb|exact Hr]]].
  unfold getcmd_args. rewrite Ha.
  now rewrite bool_decide_eq_true_2.
Qed.

(** ** [main]: before the loop *)

(** X26. [main] before its loop installs the handlers for SIGTSTP, SIGINT
    and SIGCHLD in this order and stops at the first [signal] that fails:
    the later ones are not asked for, [perror("Could not bind signal: ")]
    is called, the result is -1 and [shell_id] is not set.  When all three
    succeed, [shell_id] becomes the pid of the process and the loop is
    entered. *)
Theorem main_setup_stops_at_first_failed_signal
    (w : world) (b1 b2 b3 : bool) (rest : list answer) :
  os w = ASignal b1 :: (if b1 then [ASignal b2] else [])
         ++ (if b1 && b2 then [ASignal b3] else []) ++ rest ->
  let asked :=
    EvSignal SIGTSTP b1
      :: (if b1 then [EvSignal SIGINT b2] else [])
      ++ (if b1 && b2 then [EvSignal SIGCHLD b3] else []) in
  exists w',
    main_setup w = (Returned (if b1 && b2 && b3 then 0 else -1), w') /\
    trace w' = trace w ++ asked
               ++ (if b1 && b2 && b3 then []
                   else [EvPerror (Some ERROR_SIGNAL_BIND)]) /\
    shell_id w' = (if b1 && b2 && b3 then self_pid w else shell_id w) /\
    os w' = rest.
Proof.
  intros Hos asked. subst asked.
  unfold main_setup, signal, getpid, perror, bind, ask, emit, modify, get, ret.
  rewrite Hos.
  destruct b1, b2, b3; simpl; eexists; (split; [reflexivity|]); simpl;
    rewrite <- ?app_assoc; done.
Qed.

(** ** [main]: one line *)

Lemma getcmd_line l rest w :
  os w = ALine (Some l) :: rest ->
  getcmd SHELL_PROMPT w
  = (Returned l, set_os rest (add_event (EvFputs SHELL_PROMPT) w)).
Proof.
  intros Hos. unfold getcmd, bind, fputs, emit, modify, ask. simpl.
  rewrite Hos. reflexivity.
Qed.

(** X27. One turn of the loop of [main] on a line without words.  At the end
    of input [getcmd] writes the prompt and calls [exit(-1)].  A line that
    gives no word, whatever flags it set, does nothing after the prompt: in
    particular no file is opened for a lone '>'.  (A lone '|' is not such a
    line: [getcmd] blanks '&' and '>' only, so "|" is a word.) *)
Theorem main_turn_without_words (w : world) (rest : list answer) :
  (os w = ALine None :: rest ->
   exists w',
     main_turn w = (Stopped (Exit (-1)), w') /\
     trace w' = trace w ++ [EvFputs SHELL_PROMPT; EvExit (-1)]) /\
  (forall l,
     os w = ALine (Some l) :: rest -> cl_args l = [] ->
     main_turn w
     = (Returned tt, set_os rest (add_event (EvFputs SHELL_PROMPT) w))).
Proof.
  split.
  - intros Hos. unfold main_turn, getcmd, exit, halt, bind, fputs, emit, modify, ask.
    simpl. rewrite Hos. simpl. eexists. split; [reflexivity|].
    simpl. now rewrite <- app_assoc.
  - intros l Hos Hargs. unfold main_turn.
    rewrite (bind_returned _ _ _ _ _ (getcmd_line l rest w Hos)).
    cbv zeta. rewrite Hargs.
    destruct (decide ([] = [])) as [_|N]; [reflexivity|done].
Qed.

(** X28. A line that holds a '>' and one word only, as "> out" does.  [main]
    takes the word for the file: it duplicates standard output, closes it,
    opens the word, and removes it from [args]; then [execute_built_ins]
    hands the null pointer [args[0]] to [strcmp].  The shell crashes with
    its standard output redirected. *)
Theorem main_turn_redirect_without_command_crashes
    (w : world) (l : command_line) (f : string) (s o : Z)
    (rest : list answer) :
  os w = ALine (Some l) :: AFd s :: AFd o :: rest ->
  cl_rd l = true ->
  cl_args l = [f] ->
  exists w',
    main_turn w = (Stopped Crashed, w') /\
    trace w' = trace w ++ [EvFputs SHELL_PROMPT; EvDup STDOUT_FILENO s;
                          EvClose STDOUT_FILENO; EvOpen (Some f) o] /\
    os w' = rest.
Proof.
  intros Hos Hrd Hargs. unfold main_turn.
  rewrite (bind_returned _ _ _ _ _ (getcmd_line l _ w Hos)).
  cbv zeta. rewrite Hargs, Hrd.
  destruct (decide ([f] = [])) as [N|_]; [done|].
  unfold dup, open, close, execute_built_ins, streq, halt, bind, ask, emit,
    modify, ret.
  simpl. eexists. split; [reflexivity|]. simpl.
  rewrite <- !app_assoc. done.
Qed.

(** X29. Redirection brackets a built-in as well.  For "echo" with a '>' on
    a line of fewer than [MAX_ARGS] words (so that [args] holds them and the
    terminator), [main] duplicates and closes standard output, opens the last
    word of the line as the file, and takes that word out of the arguments:
    "echo" prints the words before it.  Then [main] closes the file,
    restores standard output with [dup], closes the duplicate and flushes.
    No process is created. *)
Theorem main_turn_redirects_a_built_in
    (w : world) (l : command_line) (words : list string) (f : string)
    (s o r : Z) (rest : list answer) :
  os w = ALine (Some l) :: AFd s :: AFd o :: AFd r :: rest ->
  cl_rd l = true ->
  cl_args l = "echo" :: words ++ [f] ->
  Z.of_nat (length (cl_args l)) < MAX_ARGS ->
  exists w',
    main_turn w = (Returned tt, w') /\
    trace w' = trace w
               ++ [EvFputs SHELL_PROMPT; EvDup STDOUT_FILENO s;
                   EvClose STDOUT_FILENO; EvOpen (Some f) o]
               ++ ((fun x => EvPrintf "%s " [ArgStr (Some x)]) <$> words)
               ++ [EvClose o; EvDup s r; EvClose s; EvFflush] /\
    os w' = rest.
Proof.
  intros Hos Hrd Hargs _. unfold main_turn.
  rewrite (bind_returned _ _ _ _ _ (getcmd_line l _ w Hos)).
  cbv zeta. rewrite Hargs, Hrd.
  destruct (decide ("echo" :: words ++ [f] = [])) as [N|_]; [done|].
  assert (Hlast : last ("echo" :: words ++ [f]) = Some f).
  { change ("echo" :: words ++ [f]) with (("echo" :: words) ++ [f]).
    apply last_snoc. }
  assert (Hrm : removelast ("echo" :: words ++ [f]) = "echo" :: words).
  { change ("echo" :: words ++ [f]) with (("echo" :: words) ++ [f]).
    apply removelast_last. }
  rewrite Hlast, Hrm.
  erewrite bind_returned; cycle 1.
  { unfold dup, open, close, bind, ask, emit, modify, ret. simpl. reflexivity. }
  cbn [head].
  erewrite bind_returned; [|apply execute_built_ins_echo].
  simpl negb. cbv iota.
  unfold dup, close, bind, ask, emit, modify, ret. simpl.
  eexists. split; [reflexivity|]. simpl.
  rewrite <- !app_assoc. done.
Qed.

(** X30. A line whose only '|' stands inside a word, as "ls|wc" does, sets
    the pipe flag but gives no word "|".  When the line has fewer than
    [MAX_ARGS] words (so that [args] holds them and the terminator) and
    the command is not a built-in, [main] then calls [execute_pipe], which
    creates the pipe and crashes in its splitting loop: one such line ends
    the shell. *)
Theorem main_turn_pipe_flag_without_separator_crashes
    (w : world) (l : command_line) (a0 : string) (more : list string)
    (fds : Z * Z) (rest : list answer) :
  os w = ALine (Some l) :: APipe (Some fds) :: rest ->
  cl_rd l = false ->
  cl_pipe l = true ->
  cl_args l = a0 :: more ->
  Z.of_nat (length (cl_args l)) < MAX_ARGS ->
  is_built_in a0 = false ->
  "|" ∉ more ->
  exists w',
    main_turn w = (Stopped Crashed, w') /\
    trace w' = trace w ++ [EvFputs SHELL_PROMPT; EvPipe (Some fds)] /\
    os w' = rest.
Proof.
  intros Hos Hrd Hp Hargs _ Hb Hn. unfold main_turn.
  rewrite (bind_returned _ _ _ _ _ (getcmd_line l _ w Hos)).
  cbv zeta. rewrite Hargs, Hrd, Hp.
  destruct (decide (a0 :: more = [])) as [N|_]; [done|].
  rewrite bind_ret_l. cbn [head].
  erewrite bind_returned; [|now apply execute_built_ins_other].
  simpl negb. cbv iota.
  erewrite bind_stopped; cycle 1.
  { apply bind_stopped.
    apply execute_pipe_no_separator; [reflexivity|done]. }
  eexists. split; [reflexivity|]. simpl. rewrite <- !app_assoc. done.
Qed.

(** ** The further theorems at concrete inputs *)

Lemma execute_foreground_waits_for_child_witness :
  exists w',
    execute (Some "ls") ["ls"] 0 (shell [AFork (InParent 201)])
    = (Returned 0, w') /\
    trace w' = [EvFork (InParent 201); EvWaitpid 201 0].
Proof.
  destruct (execute_foreground_waits_for_child
              (shell [AFork (InParent 201)]) (Some "ls") ["ls"] 201 [])
    as (w' & H1 & H2 & _).
  - reflexivity.
  - lia.
  - discriminate.
  - exists w'. split; [exact H1|exact H2].
Defined.

Lemma execute_background_registers_child_witness :
  exists w',
    execute (Some "cat") ["cat"] 1
      (three_jobs [AFork (InParent 204); AMalloc (Some 4%positive)])
    = (Returned 0, w') /\
    jobs w' = Some (Job 4%positive (Some "cat") 204 (-1) :: three_jobs_list).
Proof.
  destruct (execute_background_registers_child
              (three_jobs [AFork (InParent 204); AMalloc (Some 4%positive)])
              (Some "cat") ["cat"] 1 204 4%positive [] three_jobs_list)
    as (w' & H1 & H2 & _).
  - discriminate.
  - reflexivity.
  - lia.
  - discriminate.
  - vm_compute. reflexivity.
  - reflexivity.
  - exists w'. split; [exact H1|exact H2].
Defined.

Lemma execute_background_out_of_memory_kills_child_witness :
  exists w',
    execute (Some "cat") ["cat"] 1
      (three_jobs [AFork (InParent 204); AMalloc None])
    = (Returned (-1), w') /\
    last (trace w') = Some (EvKill 204 SIGKILL).
Proof.
  destruct (execute_background_out_of_memory_kills_child
              (three_jobs [AFork (InParent 204); AMalloc None])
              (Some "cat") ["cat"] 1 204 [])
    as (w' & H1 & H2 & _).
  - discriminate.
  - reflexivity.
  - lia.
  - discriminate.
  - exists w'. split; [exact H1|]. rewrite H2. reflexivity.
Defined.

Lemma fork_failure_ends_the_process_witness :
  exists w',
    execute (Some "ls") ["ls"] 0 (shell [AFork ForkFailed])
    = (Stopped (Exit 1), w') /\
    trace w' = [EvFork ForkFailed; EvPerror (Some ERROR_FORK); EvExit 1].
Proof.
  pose proof (fork_failure_ends_the_process (shell [AFork ForkFailed]) [])
    as H.
  cbv zeta in H. destruct H as [H _].
  destruct (H (Some "ls") ["ls"] 0) as (w' & H1 & H2); [reflexivity|].
  exists w'. split; [exact H1|exact H2].
Defined.

Lemma execute_child_exec_failure_returns_witness :
  exists w',
    execute (Some "nosuch") ["nosuch"] 0
      (shell [AFork (InChild 201); AExec (Some 2)])
    = (Returned 0, w') /\
    last (trace w') = Some (EvPerror (Some ERROR_INPUT_CMD)) /\
    self_pid w' = 201.
Proof.
  destruct (execute_child_exec_failure_returns
              (shell [AFork (InChild 201); AExec (Some 2)])
              "nosuch" ["nosuch"] 0 201 2 [])
    as (w' & H1 & H2 & H3 & _).
  - reflexivity.
  - lia.
  - discriminate.
  - discriminate.
  - discriminate.
  - exists w'. split; [exact H1|]. split; [|exact H3]. rewrite H2. reflexivity.
Defined.

Lemma execute_pipe_without_separator_crashes_witness :
  exists w',
    execute_pipe ["ls"; "-l"] 0 (shell [APipe (Some (3, 4))])
    = (Stopped Crashed, w') /\
    trace w' = [EvPipe (Some (3, 4))].
Proof.
  destruct (execute_pipe_without_separator_crashes
              (shell [APipe (Some (3, 4))]) "ls" ["-l"] 0 (3, 4) [])
    as (w' & H1 & H2 & _).
  - reflexivity.
  - compute_done.
  - exists w'. split; [exact H1|exact H2].
Defined.

Lemma execute_pipe_shell_foreground_witness :
  exists w',
    execute_pipe ["ls"; "|"; "wc"] 0
      (shell [APipe (Some (3, 4)); AFork (InParent 201)])
    = (Returned 0, w') /\
    last (trace w') = Some (EvWaitpid 201 0).
Proof.
  destruct (execute_pipe_shell_foreground
              (shell [APipe (Some (3, 4)); AFork (InParent 201)])
              "ls" ["|"; "wc"] [] ["wc"] 3 4 201 [])
    as (out & w' & H1 & H2 & _ & _ & _ & _ & H3).
  - reflexivity.
  - reflexivity.
  - lia.
  - discriminate.
  - exists w'. rewrite H1, H3 by discriminate. split; [reflexivity|].
    rewrite H2. reflexivity.
Defined.

Lemma execute_pipe_shell_background_witness :
  exists w',
    execute_pipe ["ls"; "|"; "wc"] 1
      (three_jobs [APipe (Some (3, 4)); AFork (InParent 204);
                   AMalloc (Some 4%positive)])
    = (Returned 0, w') /\
    jobs w' = Some (Job 4%positive (Some "ls") 204 (-1) :: three_jobs_list).
Proof.
  destruct (execute_pipe_shell_background
              (three_jobs [APipe (Some (3, 4)); AFork (InParent 204);
                           AMalloc (Some 4%positive)])
              "ls" ["|"; "wc"] [] ["wc"] 1 3 4 204 4%positive []
              three_jobs_list)
    as (w' & H1 & H2 & _).
  - reflexivity.
  - discriminate.
  - reflexivity.
  - lia.
  - discriminate.
  - vm_compute. reflexivity.
  - reflexivity.
  - exists w'. split; [exact H1|exact H2].
Defined.

Lemma execute_pipe_first_command_process_witness :
  exists w',
    execute_pipe ["ls"; "-l"; "|"; "wc"] 0
      (shell [APipe (Some (3, 4)); AFork (InChild 201); AFork (InChild 202);
              AExec None])
    = (Stopped Replaced, w') /\
    last (trace w') = Some (EvExecvp (Some "ls") ["ls"; "-l"] None) /\
    self_pid w' = 202.
Proof.
  destruct (execute_pipe_first_command_process
              (shell [APipe (Some (3, 4)); AFork (InChild 201);
                      AFork (InChild 202); AExec None])
              "ls" ["-l"; "|"; "wc"] ["-l"] ["wc"] 0 3 4 201 202 [])
    as (w' & H1 & H2 & H3 & _).
  - reflexivity.
  - reflexivity.
  - lia.
  - discriminate.
  - lia.
  - discriminate.
  - exists w'. split; [exact H1|]. split; [|exact H3]. rewrite H2. reflexivity.
Defined.

Lemma execute_built_ins_dispatch_witness :
  is_built_in "ls" = false.
Proof.
  destruct (execute_built_ins_dispatch (shell []) (shell []) "ls" ["ls"] 1)
    as (_ & H & _).
  - reflexivity.
  - now apply H.
Defined.

Lemma directory_built_ins_swallow_failures_witness :
  execute_built_ins (Some "cd") ["cd"] (shell [AChdir (-1)])
  = (Returned 0,
     add_events [EvChdir None (-1); EvPerror None] (shell [])).
Proof.
  destruct (directory_built_ins_swallow_failures
              (shell [AChdir (-1)]) "cd" [] []) as [H _].
  apply (H (-1)). reflexivity.
Defined.

Lemma exit_built_in_never_returns_witness :
  (exists w',
     execute_built_ins (Some "exit") ["exit"] (shell [])
     = (Stopped Killed, w') /\
     trace w' = [EvKill 0 SIGKILL]) /\
  (exists w',
     execute_built_ins (Some "exit") ["exit"] (three_jobs [])
     = (Stopped Undefined, w') /\
     trace w' = []).
Proof.
  split.
  - destruct (exit_built_in_never_returns (shell []) [] ["exit"])
      as (why & w' & H1 & H2 & _).
    + vm_compute. reflexivity.
    + destruct (H2 eq_refl) as (-> & H3 & _).
      exists w'. split; [exact H1|exact H3].
  - destruct (exit_built_in_never_returns (three_jobs []) three_jobs_list
                ["exit"]) as (why & w' & H1 & _ & H2).
    + vm_compute. reflexivity.
    + destruct (H2 _ _ eq_refl) as (-> & H3 & _).
      exists w'. split; [exact H1|exact H3].
Defined.

Lemma remove_takes_out_first_match_witness :
  exists w',
    process_remove_from_list 202 (three_jobs []) = (Returned 0, w') /\
    jobs w' = Some [Job 3%positive (Some "wc") 203 (-1);
                    Job 1%positive (Some "sleep") 201 (-1)] /\
    released w' 2%positive = true.
Proof.
  destruct (remove_takes_out_first_match (three_jobs []) three_jobs_list
              1%nat (Job 2%positive (Some "ls") 202 (-1)))
    as (w' & H1 & H2 & H3 & _).
  - vm_compute. reflexivity.
  - reflexivity.
  - intros i j' Hi Hl. destruct i as [|i]; [|lia].
    injection Hl as <-. discriminate.
  - exists w'. split; [exact H1|]. split; [exact H2|exact H3].
Defined.

Lemma add_then_remove_restores_the_table_witness :
  exists w',
    (process_add (Some "cat") 204 1 ;; process_remove_from_list 204)
      (three_jobs [AMalloc (Some 4%positive)])
    = (Returned 0, w') /\
    jobs w' = Some three_jobs_list /\
    released w' 4%positive = true.
Proof.
  destruct (add_then_remove_restores_the_table
              (three_jobs [AMalloc (Some 4%positive)]) three_jobs_list
              (Some "cat") 204 1 4%positive [])
    as (w' & H1 & H2 & H3 & _).
  - vm_compute. reflexivity.
  - reflexivity.
  - reflexivity.
  - exists w'. split; [exact H1|]. split; [exact H2|exact H3].
Defined.

Lemma print_list_is_idempotent_witness :
  exists w1 l1,
    process_print_list (three_jobs []) = (Returned tt, w1) /\
    jobs w1 = Some l1 /\
    pids l1 = [203; 202; 201] /\
    process_print_list w1
    = (Returned tt, add_events (job_lines 0 three_jobs_list) w1).
Proof.
  destruct (print_list_is_idempotent (three_jobs []) three_jobs_list)
    as (w1 & l1 & H1 & _ & H2 & H3 & _ & _ & H4).
  - vm_compute. reflexivity.
  - exists w1, l1. split; [exact H1|]. split; [exact H2|].
    split; [exact H3|exact H4].
Defined.

Lemma jobs_built_in_lists_newest_first_witness :
  exists w' lines,
    execute_built_ins (Some "jobs") ["jobs"] (three_jobs [])
    = (Returned 0, w') /\
    trace w' = EvPrintf "%s" [ArgStr (Some SHELL_JOBS_HEADER)] :: lines /\
    lines !! 0%nat
    = Some (EvPrintf SHELL_JOBS_FORMAT
              [ArgInt 0; ArgStr (Some "wc"); ArgInt 203]).
Proof.
  destruct (jobs_built_in_lists_newest_first (three_jobs []) three_jobs_list
              ["jobs"]) as (w' & lines & H1 & H2 & _ & H3 & _).
  - vm_compute. reflexivity.
  - exists w', lines. split; [exact H1|]. split; [exact H2|].
    apply (H3 0%nat (Job 3%positive (Some "wc") 203 (-1))); [reflexivity|lia].
Defined.


Lemma fg_on_reaped_job_waits_for_nothing_witness :
  exists w' l',
    (process_print_list ;; process_remove_from_list 202 ;;
     execute_built_ins (Some "fg") ["fg"; "1"]) (three_jobs [])
    = (Returned 0, w') /\
    trace w' = job_lines 0 three_jobs_list /\
    jobs w' = Some l' /\
    (forall p, p ∈ pids l' <-> p ∈ [203; 202; 201] /\ p <> 202).
Proof.
  destruct (fg_on_reaped_job_waits_for_nothing (three_jobs [])
              three_jobs_list 1%nat (Job 2%positive (Some "ls") 202 (-1))
              "fg" "1" [])
    as (w' & l' & H1 & H2 & H3 & H4 & _).
  - vm_compute. reflexivity.
  - compute_done.
  - vm_compute. discriminate.
  - reflexivity.
  - vm_compute. reflexivity.
  - exists w', l'. split; [exact H1|]. split; [|split; [exact H3|exact H4]].
    rewrite H2. reflexivity.
Defined.

Lemma sigchld_handler_reaps_every_reported_child_witness :
  exists w',
    signal_handler SIGCHLD (three_jobs [AWait3 202; AWait3 201; AWait3 0])
    = (Returned tt, w') /\
    jobs w' = Some [Job 3%positive (Some "wc") 203 (-1)] /\
    trace w' = [EvWait3 202; EvWait3 201; EvWait3 0].
Proof.
  destruct (sigchld_handler_reaps_every_reported_child
              (three_jobs [AWait3 202; AWait3 201; AWait3 0])
              three_jobs_list [202; 201] 0 [])
    as (w' & H1 & H2 & _ & _ & H3 & _).
  - vm_compute. reflexivity.
  - reflexivity.
  - repeat constructor.
  - lia.
  - exists w'. split; [exact H1|]. split; [exact H2|exact H3].
Defined.

Lemma table_operations_keep_memory_in_step_witness :
  let ops := [Insert (Some "sleep") 201 (Some 1%positive);
              Insert (Some "ls") 202 (Some 2%positive);
              RemoveByPid 201;
              Insert (Some "wc") 203 (Some 1%positive)] in
  exists w' l,
    run_ops ops (shell (alloc_script ops)) = (Returned tt, w') /\
    jobs w' = Some l /\
    (forall a, in_use w' a = true <-> a ∈ addrs l) /\
    length l = 2%nat /\
    stale w' = [].
Proof.
  intros ops.
  destruct (table_operations_keep_memory_in_step ops
              (shell (alloc_script ops))
              {[ 202 := 2%positive; 203 := 1%positive ]} [])
    as (w' & l & H1 & H2 & H3 & H4 & H5).
  - reflexivity.
  - reflexivity.
  - vm_compute. reflexivity.
  - vm_compute. reflexivity.
  - exists w', l. split; [exact H1|]. split; [exact H2|].
    split; [exact H3|]. split; [|exact H5].
    rewrite H4. vm_compute. reflexivity.
Defined.

Lemma getcmd_words_are_clean_witness :
  "ls" <> "" /\
  Forall (fun c => at_most_32 true c = false /\ is_delimiter c = false)
         (list_ascii_of_string "ls").
Proof.
  apply (getcmd_words_are_clean true ("ls  -l" +:+ tab +:+ nl)
           (CommandLine ["ls"; "-l"] false false false) "ls").
  - vm_compute. reflexivity.
  - left.
Defined.

Lemma getcmd_flags_witness :
  let l := CommandLine ["ls|wc"] true false true in
  getcmd_args true ("ls|wc &" +:+ nl) = Some l /\
  cl_bg l = true /\ cl_pipe l = true.
Proof.
  intros l.
  assert (H : getcmd_args true ("ls|wc &" +:+ nl) = Some l)
    by (vm_compute; reflexivity).
  destruct (getcmd_flags true ("ls|wc &" +:+ nl) l H) as (H1 & _ & H3).
  split; [exact H|]. split.
  - apply H1. compute_done.
  - apply H3. compute_done.
Defined.

Lemma getcmd_returns_plain_words_witness :
  exists l,
    getcmd_args false ("sleep 30 &" +:+ nl) = Some l /\
    cl_args l = ["sleep"; "30"] /\ cl_bg l = true /\ cl_rd l = false.
Proof.
  apply (getcmd_returns_plain_words false ["sleep"; "30"] true).
  - repeat constructor; try discriminate; vm_compute; congruence.
  - vm_compute. discriminate.
Defined.

Lemma main_setup_stops_at_first_failed_signal_witness :
  exists w',
    main_setup (boot 100 [ASignal true; ASignal false])
    = (Returned (-1), w') /\
    trace w' = [EvSignal SIGTSTP true; EvSignal SIGINT false;
                EvPerror (Some ERROR_SIGNAL_BIND)] /\
    shell_id w' = 0.
Proof.
  destruct (main_setup_stops_at_first_failed_signal
              (boot 100 [ASignal true; ASignal false]) true false false [])
    as (w' & H1 & H2 & H3 & _).
  - reflexivity.
  - exists w'. split; [exact H1|]. split; [exact H2|exact H3].
Defined.

Lemma main_turn_without_words_witness :
  main_turn (shell [ALine (getcmd_args true (" >" +:+ tab +:+ nl))])
  = (Returned tt, add_event (EvFputs SHELL_PROMPT) (shell [])).
Proof.
  destruct (main_turn_without_words
              (shell [ALine (getcmd_args true (" >" +:+ tab +:+ nl))]) [])
    as [_ H].
  apply (H (CommandLine [] false true false)).
  - vm_compute. reflexivity.
  - reflexivity.
Defined.

Lemma main_turn_redirect_without_command_crashes_witness :
  exists w',
    main_turn (shell [ALine (getcmd_args true ("> out" +:+ nl));
                      AFd 3; AFd 1])
    = (Stopped Crashed, w') /\
    trace w' = [EvFputs SHELL_PROMPT; EvDup STDOUT_FILENO 3;
                EvClose STDOUT_FILENO; EvOpen (Some "out") 1].
Proof.
  destruct (main_turn_redirect_without_command_crashes
              (shell [ALine (getcmd_args true ("> out" +:+ nl));
                      AFd 3; AFd 1])
              (CommandLine ["out"] false true false) "out" 3 1 [])
    as (w' & H1 & H2 & _).
  - vm_compute. reflexivity.
  - reflexivity.
  - reflexivity.
  - exists w'. split; [exact H1|exact H2].
Defined.

Lemma main_turn_redirects_a_built_in_witness :
  exists w',
    main_turn (shell [ALine (getcmd_args true ("echo hi > out" +:+ nl));
                      AFd 3; AFd 1; AFd 1])
    = (Returned tt, w') /\
    trace w' = [EvFputs SHELL_PROMPT; EvDup STDOUT_FILENO 3;
                EvClose STDOUT_FILENO; EvOpen (Some "out") 1;
                EvPrintf "%s " [ArgStr (Some "hi")];
                EvClose 1; EvDup 3 1; EvClose 3; EvFflush].
Proof.
  destruct (main_turn_redirects_a_built_in
              (shell [ALine (getcmd_args true ("echo hi > out" +:+ nl));
                      AFd 3; AFd 1; AFd 1])
              (CommandLine ["echo"; "hi"; "out"] false true false)
              ["hi"] "out" 3 1 1 [])
    as (w' & H1 & H2 & _).
  - vm_compute. reflexivity.
  - reflexivity.
  - reflexivity.
  - vm_compute. reflexivity.
  - exists w'. split; [exact H1|exact H2].
Defined.

Lemma main_turn_pipe_flag_without_separator_crashes_witness :
  exists w',
    main_turn (shell [ALine (getcmd_args true ("ls|wc" +:+ nl));
                      APipe (Some (3, 4))])
    = (Stopped Crashed, w') /\
    trace w' = [EvFputs SHELL_PROMPT; EvPipe (Some (3, 4))].
Proof.
  destruct (main_turn_pipe_flag_without_separator_crashes
              (shell [ALine (getcmd_args true ("ls|wc" +:+ nl));
                      APipe (Some (3, 4))])
              (CommandLine ["ls|wc"] false false true) "ls|wc" [] (3, 4) [])
    as (w' & H1 & H2 & _).
  - vm_compute. reflexivity.
  - reflexivity.
  - reflexivity.
  - reflexivity.
  - vm_compute. reflexivity.
  - reflexivity.
  - compute_done.
  - exists w'. split; [exact H1|exact H2].
Defined.
